(** * LoLSkinChanger: the LCU client, the websocket event thread and the name database

    A shallow embedding of [src/lcu/client.py], [src/threads/websocket_thread.py]
    and [src/database/name_db.py].

    Python objects become records, dicts become [gmap], sets become [gset],
    methods become functions that pass the object explicitly.  Everything the
    code asks of the operating system, the network or the clock is answered by
    a [world]: a family of observations indexed by the number of interactions
    made so far, so that the outside may change between any two calls.

    A [str] is modelled by its UTF-8 encoding, and the methods of [str] that
    go by characters ([strip], [lower], [upper], [int]) follow the Unicode
    tables of the interpreter.  A JSON number is an integer or a float. *)

From stdpp Require Import base option list gmap strings sorting pretty.
From Stdlib Require Import ZArith Ascii String Lia.

Set Warnings "-clear-no-such-hyp".

Local Open Scope string_scope.
Local Open Scope list_scope.
Local Open Scope Z_scope.

(** ** Values that travel over the wire *)

(** The [timer] object of a champion-selection session. *)
Record timer_obj := Timer {
  timer_phase : option string;              (* t.get("phase") *)
  adjustedTimeLeftInPhase : option Z        (* t.get("adjustedTimeLeftInPhase") *)
}.

Record player := Player { cellId : option Z }.            (* p.get("cellId") *)
Record action := Action { actorCellId : option Z }.       (* a.get("actorCellId") *)

(** A decoded session object, its fields with the types the client sends
    them in: slot ids and times are integers, rosters and rounds are lists of
    objects; a key that is missing and a key with value [null] both read as
    [None].  [localPlayerCellId] alone distinguishes the missing key ([None])
    from the key with value [null] ([Some None]), as [dict.get(key, default)]
    does. *)
Record session := Session {
  localPlayerCellId : option (option Z);
  myTeam : list player;
  theirTeam : list player;
  actions : list (list action);
  timer : option timer_obj
}.

Definition empty_session : session := Session None [] [] [] None.

(** A JSON number with a fraction or an exponent is a [float] in Python:
    [m * 2^e], or an infinity or a NaN ([1e999], [NaN]). *)
Inductive pyfloat :=
| Finite (m e : Z)
| NotFinite.

(** [int(x)]: the fraction is cut off; [None] when it raises. *)
Definition float_int (x : pyfloat) : option Z :=
  match x with
  | Finite m e => Some (if 0 <=? e then m * 2 ^ e else Z.quot m (2 ^ (- e)))
  | NotFinite => None
  end.

(** [bool(x)]. *)
Definition float_truthy (x : pyfloat) : bool :=
  match x with
  | Finite m _ => negb (m =? 0)
  | NotFinite => true
  end.

(** [x == z] for an integer [z]. *)
Definition float_is (x : pyfloat) (z : Z) : bool :=
  match x with
  | Finite m e => if 0 <=? e then m * 2 ^ e =? z else m =? z * 2 ^ (- e)
  | NotFinite => false
  end.

(** What [json.loads] or [r.json()] may hand over.  [JNull] is Python's
    [None], [JSession] an object, [JOther] a list that is not empty and
    [JEmptyList] the empty list. *)
Inductive jdata :=
| JNull
| JStr (s : string)
| JInt (z : Z)
| JSession (s : session)
| JOther
| JBool (b : bool)
| JFloat (x : pyfloat)
| JEmptyList.

(** How often a trace holds an event of some kind. *)
Section counting.
Context {A : Type} (f : A -> bool).

Definition count_if (l : list A) : nat := List.length (List.filter f l).

End counting.

(** ** [src/lcu/client.py] *)

Module LCU.

(** One answer of the operating system.  [found] is what [_find_lockfile]
    returns, [is_file] what [os.path.isfile] says about it, [file_text] the
    text read from it ([None]: [open] or [read] raises), [file_mtime] its
    modification time ([None]: [os.path.getmtime] raises) and [wall_clock]
    the value of [time.time()].  Times are abstract instants: the code only
    tests them for truth and for equality. *)
Record os_obs := OsObs {
  found : option string;
  is_file : bool;
  file_text : option string;
  file_mtime : option Z;
  wall_clock : Z
}.

(** One answer of the HTTP layer to [self.s.get(url, timeout=...)]. *)
Inductive http_outcome :=
| Transport_error                                 (* a RequestException is raised *)
| Response (status_code : Z) (body : option jdata). (* body = None: r.json() raises *)

Record world := World {
  os_at : nat -> os_obs;
  http_at : nat -> string -> http_outcome
}.

(** The client object.  [auth] is [self.s.auth]. *)
Record t := Mk {
  ok : bool;
  port : option Z;
  pw : option string;
  base : option string;
  auth : option (string * string);
  _explicit_lockfile : option string;
  lf_path : option string;
  lf_mtime : Z
}.

(** What the client did to the outside, in program order. *)
Inductive io_event :=
| IoRefresh (force : bool)           (* a call of refresh_if_needed *)
| IoInit                             (* a call of _init_from_lockfile *)
| IoRequest (url : string) (timeout_ms : Z).  (* a call of self.s.get *)

(** The client together with the interaction counter and the trace. *)
Record conn := Conn {
  lcu : t;
  tick : nat;
  io : list io_event
}.

Definition emit (e : io_event) (c : conn) : conn :=
  Conn (lcu c) (tick c) (io c ++ [e]).

Definition next (c : conn) : conn := Conn (lcu c) (S (tick c)) (io c).

Definition set_lcu (l : t) (c : conn) : conn := Conn l (tick c) (io c).

(** *** String helpers of the Python runtime

    A [str] is modelled by its UTF-8 encoding.  The literals of the code are
    ASCII and encode as themselves; equality, concatenation, [split] at an
    ASCII separator and the search for an ASCII needle give the same on the
    characters of a [str] and on the bytes of its encoding. *)

Fixpoint split_on (sep : ascii) (s : string) : list string :=
  match s with
  | EmptyString => [EmptyString]
  | String a r =>
      if Ascii.eqb a sep then EmptyString :: split_on sep r
      else match split_on sep r with
           | [] => [String a EmptyString]
           | h :: tl => String a h :: tl
           end
  end.

(** The methods of [str] that go by characters cut the bytes into
    characters first.  A lead byte takes the continuation bytes it announces;
    a byte that is part of no well-formed sequence stands alone and is read
    as the character of its own number. *)
Definition byte (a : ascii) : Z := Z.of_N (N_of_ascii a).

Definition of_byte (z : Z) : ascii := ascii_of_N (Z.to_N z).

Definition is_continuation (a : ascii) : bool := (128 <=? byte a) && (byte a <? 192).

(** The number of continuation bytes that a lead byte announces. *)
Definition lead_length (a : ascii) : nat :=
  let b := byte a in
  if b <? 192 then 0%nat else if b <? 224 then 1%nat else if b <? 240 then 2%nat
  else if b <? 248 then 3%nat else 0%nat.

Fixpoint has_continuation (n : nat) (r : string) : bool :=
  match n, r with
  | O, _ => true
  | S n', String b r' => is_continuation b && has_continuation n' r'
  | S _, EmptyString => false
  end.

(** The bytes that the character under way is still owed, and the characters
    after it. *)
Fixpoint split_chars (owed : nat) (s : string) : string * list string :=
  match s with
  | EmptyString => (EmptyString, [])
  | String a r =>
      match owed with
      | S k => let '(g, cs) := split_chars k r in (String a g, cs)
      | O =>
          let n := if has_continuation (lead_length a) r then lead_length a else 0%nat in
          let '(g, cs) := split_chars n r in
          (EmptyString, String a g :: cs)
      end
  end.

Definition chars (s : string) : list string := snd (split_chars 0 s).

Definition join (cs : list string) : string := foldr append "" cs.

(** [ord(c)] of one character. *)
Definition code_point (c : string) : Z :=
  match c with
  | String a EmptyString => byte a
  | String a (String b EmptyString) => (byte a - 192) * 64 + (byte b - 128)
  | String a (String b (String c EmptyString)) =>
      (byte a - 224) * 4096 + (byte b - 128) * 64 + (byte c - 128)
  | String a (String b (String c (String d EmptyString))) =>
      (byte a - 240) * 262144 + (byte b - 128) * 4096 + (byte c - 128) * 64
      + (byte d - 128)
  | _ => -1
  end.

(** [chr(p)], encoded. *)
Definition utf8 (p : Z) : string :=
  if p <? 128 then String (of_byte p) ""
  else if p <? 2048 then
    String (of_byte (192 + p / 64)) (String (of_byte (128 + p mod 64)) "")
  else if p <? 65536 then
    String (of_byte (224 + p / 4096))
      (String (of_byte (128 + (p / 64) mod 64)) (String (of_byte (128 + p mod 64)) ""))
  else
    String (of_byte (240 + p / 262144))
      (String (of_byte (128 + (p / 4096) mod 64))
         (String (of_byte (128 + (p / 64) mod 64)) (String (of_byte (128 + p mod 64)) ""))).

(** The character [g] is what is read first from [g] followed by the bytes
    [t], and a list of characters is cut as [chars] cuts the bytes of its
    [join]. *)
Definition reads (g t : string) : Prop :=
  match g with
  | EmptyString => False
  | String a g' =>
      (if has_continuation (lead_length a) (g' +:+ t) then lead_length a else 0%nat)
      = String.length g'
  end.

Fixpoint well_cut (cs : list string) : Prop :=
  match cs with
  | [] => True
  | g :: r => reads g (join r) ∧ well_cut r
  end.

Definition among (l : list Z) (p : Z) : bool := existsb (Z.eqb p) l.

(** The characters for which [str.isspace()] holds; [str.strip()] removes
    them. *)
Definition white_space : list Z :=
  [
   9; 10; 11; 12; 13; 28; 29; 30; 31; 32; 133; 160; 5760; 8192; 8193; 8194; 8195; 8196; 8197;
   8198; 8199; 8200; 8201; 8202; 8232; 8233; 8239; 8287; 12288
  ].

Definition is_space (c : string) : bool := among white_space (code_point c).

Fixpoint lstrip_chars (cs : list string) : list string :=
  match cs with
  | c :: r => if is_space c then lstrip_chars r else cs
  | [] => []
  end.

Definition strip_chars (cs : list string) : list string :=
  reverse (lstrip_chars (reverse (lstrip_chars cs))).

(** [s.strip()]. *)
Definition strip (s : string) : string := join (strip_chars (chars s)).

(** The characters with a decimal digit value come in runs of ten, from the
    digit zero of a script to its digit nine (Unicode 14.0, as in CPython
    3.11): the zeros of the runs. *)
Definition decimal_zeros : list Z :=
  [
   48; 1632; 1776; 1984; 2406; 2534; 2662; 2790; 2918; 3046; 3174; 3302; 3430; 3558; 3664;
   3792; 3872; 4160; 4240; 6112; 6160; 6470; 6608; 6784; 6800; 6992; 7088; 7232; 7248; 42528;
   43216; 43264; 43472; 43504; 43600; 44016; 65296; 66720; 68912; 69734; 69872; 69942; 70096;
   70384; 70736; 70864; 71248; 71360; 71472; 71904; 72016; 72784; 73040; 73120; 92768; 92864;
   93008; 120782; 120792; 120802; 120812; 120822; 123200; 123632; 125264; 130032
  ].

Definition decimal_of (p : Z) : option Z :=
  (fun z => p - z) <$> List.find (fun z => (z <=? p) && (p <? z + 10)) decimal_zeros.

(** What [int] makes of one character of its argument.  The white space at
    the ends is ASCII white space, and white space outside ASCII, which is
    first turned into a blank; the control characters 28 to 31 are white
    space for [strip] and not for [int]. *)
Inductive int_token := TSpace | TPlus | TMinus | TUnderscore | TDigit (d : Z) | TBad.

Definition int_token_of (c : string) : int_token :=
  let p := code_point c in
  if among [9; 10; 11; 12; 13; 32] p then TSpace
  else if p =? 43 then TPlus
  else if p =? 45 then TMinus
  else if p =? 95 then TUnderscore
  else if (48 <=? p) && (p <=? 57) then TDigit (p - 48)
  else if p <? 127 then TBad
  else if among white_space p then TSpace
  else match decimal_of p with
       | Some d => TDigit d
       | None => TBad
       end.

Inductive int_state := ExpectDigit | AfterDigit | Trailing.

(** The digits, single underscores between them, and the white space after
    them.  More than 4300 digits are refused (the default of
    [sys.get_int_max_str_digits()]). *)
Fixpoint int_value (st : int_state) (acc : Z) (count : nat) (l : list int_token)
  : option Z :=
  match l, st with
  | [], AfterDigit | [], Trailing => if (count <=? 4300)%nat then Some acc else None
  | TDigit d :: r, ExpectDigit | TDigit d :: r, AfterDigit =>
      int_value AfterDigit (10 * acc + d) (S count) r
  | TUnderscore :: r, AfterDigit => int_value ExpectDigit acc count r
  | TSpace :: r, AfterDigit | TSpace :: r, Trailing => int_value Trailing acc count r
  | _, _ => None
  end.

Fixpoint skip_space (l : list int_token) : list int_token :=
  match l with
  | TSpace :: r => skip_space r
  | _ => l
  end.

(** [int(s)] on a string; [None] is [ValueError]. *)
Definition py_int (s : string) : option Z :=
  match skip_space (int_token_of <$> chars s) with
  | TPlus :: r => int_value ExpectDigit 0 0 r
  | TMinus :: r => Z.opp <$> int_value ExpectDigit 0 0 r
  | r => int_value ExpectDigit 0 0 r
  end.

(** Truth of a string: [not lf]. *)
Definition str_truthy (o : option string) : bool :=
  match o with
  | Some (String _ _) => true
  | _ => false
  end.

(** *** The methods *)

Definition _disable (l : t) : t :=
  Mk false None None None None (_explicit_lockfile l) (lf_path l) (lf_mtime l).

(** The [try] block of [_init_from_lockfile]: [None] when it raises. *)
Definition parse_lockfile (txt : option string) : option (Z * string) :=
  txt ≫= fun s =>
  match take 5 (split_on ":" s) with
  | [_name; _pid; port_s; pw_s; _proto] =>
      py_int port_s ≫= fun p => Some (p, pw_s)
  | _ => None
  end.

Definition _init_from_lockfile (w : world) (c : conn) : conn :=
  let c := emit IoInit c in
  let o := os_at w (tick c) in
  let c := next c in
  let l := lcu c in
  let lf := found o in
  let l := Mk (ok l) (port l) (pw l) (base l) (auth l) (_explicit_lockfile l) lf (lf_mtime l) in
  if negb (str_truthy lf) || negb (is_file o) then set_lcu (_disable l) c
  else
    match parse_lockfile (file_text o) with
    | Some (p, secret) =>
        let mt := match file_mtime o with Some m => m | None => wall_clock o end in
        set_lcu (Mk true (Some p) (Some secret)
                    (Some ("https://127.0.0.1:" +:+ pretty p))
                    (Some ("riot", secret))
                    (_explicit_lockfile l) lf mt) c
    | None => set_lcu (_disable l) c
    end.

Definition refresh_if_needed (w : world) (force : bool) (c : conn) : conn :=
  let c := emit (IoRefresh force) c in
  let o := os_at w (tick c) in
  let c := next c in
  let l := lcu c in
  let lf := found o in
  if negb (str_truthy lf) || negb (is_file o) then
    let d := _disable l in
    set_lcu (Mk (ok d) (port d) (pw d) (base d) (auth d) (_explicit_lockfile d) None 0) c
  else
    let mt := match file_mtime o with Some m => m | None => 0 end in
    if force
       || negb (bool_decide (lf = lf_path l))
       || (negb (mt =? 0) && negb (mt =? lf_mtime l))
       || negb (ok l)
    then
      let l := Mk (ok l) (port l) (pw l) (base l) (auth l) (_explicit_lockfile l) lf (lf_mtime l) in
      _init_from_lockfile w (set_lcu l c)
    else c.

(** The outcome of the body of one [try] block of [get]. *)
Inductive attempt :=
| Returned (v : jdata)
| Raised.                      (* requests.exceptions.RequestException *)

(** [r.raise_for_status()] raises [HTTPError], a [RequestException], for the
    status codes 400 to 599. *)
Definition raise_for_status (code : Z) : bool := (400 <=? code) && (code <? 600).

Definition interpret (o : http_outcome) : attempt :=
  match o with
  | Transport_error => Raised
  | Response code body =>
      if (code =? 404) || (code =? 405) then Returned JNull
      else if raise_for_status code then Raised
      else match body with
           | Some v => Returned v
           | None => Returned JNull
           end
  end.

Definition request (w : world) (path : string) (timeout_ms : Z) (c : conn)
  : attempt * conn :=
  let url := match base (lcu c) with Some b => b | None => "" end +:+ path in
  let c := emit (IoRequest url timeout_ms) c in
  let o := http_at w (tick c) url in
  (interpret o, next c).

Definition get (w : world) (path : string) (timeout_ms : Z) (c : conn)
  : jdata * conn :=
  let c1 := if ok (lcu c) then c else refresh_if_needed w false c in
  if negb (ok (lcu c1)) then (JNull, c1)
  else
    match request w path timeout_ms c1 with
    | (Returned v, c2) => (v, c2)
    | (Raised, c2) =>
        let c3 := refresh_if_needed w true c2 in
        if negb (ok (lcu c3)) then (JNull, c3)
        else
          match request w path timeout_ms c3 with
          | (Returned v, c4) => (v, c4)
          | (Raised, c4) => (JNull, c4)
          end
    end.

Definition phase (w : world) (c : conn) : jdata * conn :=
  match get w "/lol-gameflow/v1/gameflow-phase" 1000 c with
  | (JStr s, c') => (JStr s, c')
  | (_, c') => (JNull, c')
  end.

Definition session (w : world) (c : conn) : jdata * conn :=
  get w "/lol-champ-select/v1/session" 1000 c.

(** Counting what a trace holds. *)
Definition is_forced_refresh (e : io_event) : bool :=
  match e with IoRefresh true => true | _ => false end.

Definition is_request (e : io_event) : bool :=
  match e with IoRequest _ _ => true | _ => false end.

Definition forced_refreshes (l : list io_event) : nat := count_if is_forced_refresh l.

Definition requests (l : list io_event) : nat := count_if is_request l.

(** A lockfile that is there and well formed, and a network that is down. *)
Definition obs_ready : os_obs :=
  OsObs (Some "/lol/lockfile") true (Some "LeagueClient:4242:51234:s3cr3t:https") (Some 17) 99.

Definition w_ready_down : world :=
  World (fun _ => obs_ready) (fun _ _ => Transport_error).

Definition lcu_ready : t :=
  Mk true (Some 51234) (Some "s3cr3t") (Some "https://127.0.0.1:51234")
     (Some ("riot", "s3cr3t")) None (Some "/lol/lockfile") 17.

Definition c_ready : conn := Conn lcu_ready 0 [].

(** The same client when the lockfile has gone by the time of the refresh. *)
Definition obs_gone : os_obs := OsObs None false None None 99.

Definition w_gone_down : world :=
  World (fun _ => obs_gone) (fun _ _ => Transport_error).

(** *** The rest of the client *)

(** [LCU.__init__], called when the world has been asked [tick0] times. *)
Definition __init__ (w : world) (lockfile_path : option string) (tick0 : nat) : conn :=
  _init_from_lockfile w (Conn (Mk false None None None None lockfile_path None 0) tick0 []).

(** The credentials of the client agree with each other: an enabled client
    has a port, a password, the base URL of that port and the basic
    authentication of that password; a disabled one has none of them. *)
Definition consistent (l : t) : Prop :=
  if ok l
  then ∃ p secret, port l = Some p ∧ pw l = Some secret
                   ∧ base l = Some ("https://127.0.0.1:" +:+ pretty p)
                   ∧ auth l = Some ("riot", secret)
  else port l = None ∧ pw l = None ∧ base l = None ∧ auth l = None.

(** What a call has added to the trace. *)
Definition added (c c' : conn) : list io_event := drop (List.length (io c)) (io c').

Definition is_init (e : io_event) : bool :=
  match e with IoInit => true | _ => false end.

(** [sep.join(fields)]. *)
Fixpoint join_with (sep : ascii) (fields : list string) : string :=
  match fields with
  | [] => ""
  | [f] => f
  | f :: rest => f +:+ String sep (join_with sep rest)
  end.

Fixpoint has_char (a : ascii) (s : string) : bool :=
  match s with
  | EmptyString => false
  | String b r => Ascii.eqb b a || has_char a r
  end.

(** *** [_find_lockfile] over a snapshot of the host *)

(** A process as [psutil.process_iter(attrs=["name", "exe"])] yields it. *)
Record process := Process {
  proc_name : option string;      (* proc.info.get("name") *)
  proc_exe : option string        (* proc.info.get("exe") *)
}.

(** What [_find_lockfile] reads of the host.  [process_iter] lists the
    processes that psutil yields before it ends or raises; [dirname] and
    [path_join] are [os.path.dirname] and [os.path.join]. *)
Record host := Host {
  isfile : string -> bool;
  environ_LCU_LOCKFILE : option string;
  os_name : string;
  expanduser : string -> string;
  process_iter : list process;
  dirname : string -> string;
  path_join : string -> string -> string
}.

(** The characters outside ASCII that [str.lower()] changes otherwise than
    by their place in the word, each with the characters it becomes (Unicode
    14.0, as in CPython 3.11). *)
Definition lower_table : list (Z * list Z) :=
  [
   (192, [224]); (193, [225]); (194, [226]); (195, [227]); (196, [228]); (197, [229]);
   (198, [230]); (199, [231]); (200, [232]); (201, [233]); (202, [234]); (203, [235]);
   (204, [236]); (205, [237]); (206, [238]); (207, [239]); (208, [240]); (209, [241]);
   (210, [242]); (211, [243]); (212, [244]); (213, [245]); (214, [246]); (216, [248]);
   (217, [249]); (218, [250]); (219, [251]); (220, [252]); (221, [253]); (222, [254]);
   (256, [257]); (258, [259]); (260, [261]); (262, [263]); (264, [265]); (266, [267]);
   (268, [269]); (270, [271]); (272, [273]); (274, [275]); (276, [277]); (278, [279]);
   (280, [281]); (282, [283]); (284, [285]); (286, [287]); (288, [289]); (290, [291]);
   (292, [293]); (294, [295]); (296, [297]); (298, [299]); (300, [301]); (302, [303]);
   (304, [105; 775]); (306, [307]); (308, [309]); (310, [311]); (313, [314]); (315, [316]);
   (317, [318]); (319, [320]); (321, [322]); (323, [324]); (325, [326]); (327, [328]);
   (330, [331]); (332, [333]); (334, [335]); (336, [337]); (338, [339]); (340, [341]);
   (342, [343]); (344, [345]); (346, [347]); (348, [349]); (350, [351]); (352, [353]);
   (354, [355]); (356, [357]); (358, [359]); (360, [361]); (362, [363]); (364, [365]);
   (366, [367]); (368, [369]); (370, [371]); (372, [373]); (374, [375]); (376, [255]);
   (377, [378]); (379, [380]); (381, [382]); (385, [595]); (386, [387]); (388, [389]);
   (390, [596]); (391, [392]); (393, [598]); (394, [599]); (395, [396]); (398, [477]);
   (399, [601]); (400, [603]); (401, [402]); (403, [608]); (404, [611]); (406, [617]);
   (407, [616]); (408, [409]); (412, [623]); (413, [626]); (415, [629]); (416, [417]);
   (418, [419]); (420, [421]); (422, [640]); (423, [424]); (425, [643]); (428, [429]);
   (430, [648]); (431, [432]); (433, [650]); (434, [651]); (435, [436]); (437, [438]);
   (439, [658]); (440, [441]); (444, [445]); (452, [454]); (453, [454]); (455, [457]);
   (456, [457]); (458, [460]); (459, [460]); (461, [462]); (463, [464]); (465, [466]);
   (467, [468]); (469, [470]); (471, [472]); (473, [474]); (475, [476]); (478, [479]);
   (480, [481]); (482, [483]); (484, [485]); (486, [487]); (488, [489]); (490, [491]);
   (492, [493]); (494, [495]); (497, [499]); (498, [499]); (500, [501]); (502, [405]);
   (503, [447]); (504, [505]); (506, [507]); (508, [509]); (510, [511]); (512, [513]);
   (514, [515]); (516, [517]); (518, [519]); (520, [521]); (522, [523]); (524, [525]);
   (526, [527]); (528, [529]); (530, [531]); (532, [533]); (534, [535]); (536, [537]);
   (538, [539]); (540, [541]); (542, [543]); (544, [414]); (546, [547]); (548, [549]);
   (550, [551]); (552, [553]); (554, [555]); (556, [557]); (558, [559]); (560, [561]);
   (562, [563]); (570, [11365]); (571, [572]); (573, [410]); (574, [11366]); (577, [578]);
   (579, [384]); (580, [649]); (581, [652]); (582, [583]); (584, [585]); (586, [587]);
   (588, [589]); (590, [591]); (880, [881]); (882, [883]); (886, [887]); (895, [1011]);
   (902, [940]); (904, [941]); (905, [942]); (906, [943]); (908, [972]); (910, [973]);
   (911, [974]); (913, [945]); (914, [946]); (915, [947]); (916, [948]); (917, [949]);
   (918, [950]); (919, [951]); (920, [952]); (921, [953]); (922, [954]); (923, [955]);
   (924, [956]); (925, [957]); (926, [958]); (927, [959]); (928, [960]); (929, [961]);
   (932, [964]); (933, [965]); (934, [966]); (935, [967]); (936, [968]); (937, [969]);
   (938, [970]); (939, [971]); (975, [983]); (984, [985]); (986, [987]); (988, [989]);
   (990, [991]); (992, [993]); (994, [995]); (996, [997]); (998, [999]); (1000, [1001]);
   (1002, [1003]); (1004, [1005]); (1006, [1007]); (1012, [952]); (1015, [1016]);
   (1017, [1010]); (1018, [1019]); (1021, [891]); (1022, [892]); (1023, [893]); (1024, [1104]);
   (1025, [1105]); (1026, [1106]); (1027, [1107]); (1028, [1108]); (1029, [1109]);
   (1030, [1110]); (1031, [1111]); (1032, [1112]); (1033, [1113]); (1034, [1114]);
   (1035, [1115]); (1036, [1116]); (1037, [1117]); (1038, [1118]); (1039, [1119]);
   (1040, [1072]); (1041, [1073]); (1042, [1074]); (1043, [1075]); (1044, [1076]);
   (1045, [1077]); (1046, [1078]); (1047, [1079]); (1048, [1080]); (1049, [1081]);
   (1050, [1082]); (1051, [1083]); (1052, [1084]); (1053, [1085]); (1054, [1086]);
   (1055, [1087]); (1056, [1088]); (1057, [1089]); (1058, [1090]); (1059, [1091]);
   (1060, [1092]); (1061, [1093]); (1062, [1094]); (1063, [1095]); (1064, [1096]);
   (1065, [1097]); (1066, [1098]); (1067, [1099]); (1068, [1100]); (1069, [1101]);
   (1070, [1102]); (1071, [1103]); (1120, [1121]); (1122, [1123]); (1124, [1125]);
   (1126, [1127]); (1128, [1129]); (1130, [1131]); (1132, [1133]); (1134, [1135]);
   (1136, [1137]); (1138, [1139]); (1140, [1141]); (1142, [1143]); (1144, [1145]);
   (1146, [1147]); (1148, [1149]); (1150, [1151]); (1152, [1153]); (1162, [1163]);
   (1164, [1165]); (1166, [1167]); (1168, [1169]); (1170, [1171]); (1172, [1173]);
   (1174, [1175]); (1176, [1177]); (1178, [1179]); (1180, [1181]); (1182, [1183]);
   (1184, [1185]); (1186, [1187]); (1188, [1189]); (1190, [1191]); (1192, [1193]);
   (1194, [1195]); (1196, [1197]); (1198, [1199]); (1200, [1201]); (1202, [1203]);
   (1204, [1205]); (1206, [1207]); (1208, [1209]); (1210, [1211]); (1212, [1213]);
   (1214, [1215]); (1216, [1231]); (1217, [1218]); (1219, [1220]); (1221, [1222]);
   (1223, [1224]); (1225, [1226]); (1227, [1228]); (1229, [1230]); (1232, [1233]);
   (1234, [1235]); (1236, [1237]); (1238, [1239]); (1240, [1241]); (1242, [1243]);
   (1244, [1245]); (1246, [1247]); (1248, [1249]); (1250, [1251]); (1252, [1253]);
   (1254, [1255]); (1256, [1257]); (1258, [1259]); (1260, [1261]); (1262, [1263]);
   (1264, [1265]); (1266, [1267]); (1268, [1269]); (1270, [1271]); (1272, [1273]);
   (1274, [1275]); (1276, [1277]); (1278, [1279]); (1280, [1281]); (1282, [1283]);
   (1284, [1285]); (1286, [1287]); (1288, [1289]); (1290, [1291]); (1292, [1293]);
   (1294, [1295]); (1296, [1297]); (1298, [1299]); (1300, [1301]); (1302, [1303]);
   (1304, [1305]); (1306, [1307]); (1308, [1309]); (1310, [1311]); (1312, [1313]);
   (1314, [1315]); (1316, [1317]); (1318, [1319]); (1320, [1321]); (1322, [1323]);
   (1324, [1325]); (1326, [1327]); (1329, [1377]); (1330, [1378]); (1331, [1379]);
   (1332, [1380]); (1333, [1381]); (1334, [1382]); (1335, [1383]); (1336, [1384]);
   (1337, [1385]); (1338, [1386]); (1339, [1387]); (1340, [1388]); (1341, [1389]);
   (1342, [1390]); (1343, [1391]); (1344, [1392]); (1345, [1393]); (1346, [1394]);
   (1347, [1395]); (1348, [1396]); (1349, [1397]); (1350, [1398]); (1351, [1399]);
   (1352, [1400]); (1353, [1401]); (1354, [1402]); (1355, [1403]); (1356, [1404]);
   (1357, [1405]); (1358, [1406]); (1359, [1407]); (1360, [1408]); (1361, [1409]);
   (1362, [1410]); (1363, [1411]); (1364, [1412]); (1365, [1413]); (1366, [1414]);
   (4256, [11520]); (4257, [11521]); (4258, [11522]); (4259, [11523]); (4260, [11524]);
   (4261, [11525]); (4262, [11526]); (4263, [11527]); (4264, [11528]); (4265, [11529]);
   (4266, [11530]); (4267, [11531]); (4268, [11532]); (4269, [11533]); (4270, [11534]);
   (4271, [11535]); (4272, [11536]); (4273, [11537]); (4274, [11538]); (4275, [11539]);
   (4276, [11540]); (4277, [11541]); (4278, [11542]); (4279, [11543]); (4280, [11544]);
   (4281, [11545]); (4282, [11546]); (4283, [11547]); (4284, [11548]); (4285, [11549]);
   (4286, [11550]); (4287, [11551]); (4288, [11552]); (4289, [11553]); (4290, [11554]);
   (4291, [11555]); (4292, [11556]); (4293, [11557]); (4295, [11559]); (4301, [11565]);
   (5024, [43888]); (5025, [43889]); (5026, [43890]); (5027, [43891]); (5028, [43892]);
   (5029, [43893]); (5030, [43894]); (5031, [43895]); (5032, [43896]); (5033, [43897]);
   (5034, [43898]); (5035, [43899]); (5036, [43900]); (5037, [43901]); (5038, [43902]);
   (5039, [43903]); (5040, [43904]); (5041, [43905]); (5042, [43906]); (5043, [43907]);
   (5044, [43908]); (5045, [43909]); (5046, [43910]); (5047, [43911]); (5048, [43912]);
   (5049, [43913]); (5050, [43914]); (5051, [43915]); (5052, [43916]); (5053, [43917]);
   (5054, [43918]); (5055, [43919]); (5056, [43920]); (5057, [43921]); (5058, [43922]);
   (5059, [43923]); (5060, [43924]); (5061, [43925]); (5062, [43926]); (5063, [43927]);
   (5064, [43928]); (5065, [43929]); (5066, [43930]); (5067, [43931]); (5068, [43932]);
   (5069, [43933]); (5070, [43934]); (5071, [43935]); (5072, [43936]); (5073, [43937]);
   (5074, [43938]); (5075, [43939]); (5076, [43940]); (5077, [43941]); (5078, [43942]);
   (5079, [43943]); (5080, [43944]); (5081, [43945]); (5082, [43946]); (5083, [43947]);
   (5084, [43948]); (5085, [43949]); (5086, [43950]); (5087, [43951]); (5088, [43952]);
   (5089, [43953]); (5090, [43954]); (5091, [43955]); (5092, [43956]); (5093, [43957]);
   (5094, [43958]); (5095, [43959]); (5096, [43960]); (5097, [43961]); (5098, [43962]);
   (5099, [43963]); (5100, [43964]); (5101, [43965]); (5102, [43966]); (5103, [43967]);
   (5104, [5112]); (5105, [5113]); (5106, [5114]); (5107, [5115]); (5108, [5116]);
   (5109, [5117]); (7312, [4304]); (7313, [4305]); (7314, [4306]); (7315, [4307]);
   (7316, [4308]); (7317, [4309]); (7318, [4310]); (7319, [4311]); (7320, [4312]);
   (7321, [4313]); (7322, [4314]); (7323, [4315]); (7324, [4316]); (7325, [4317]);
   (7326, [4318]); (7327, [4319]); (7328, [4320]); (7329, [4321]); (7330, [4322]);
   (7331, [4323]); (7332, [4324]); (7333, [4325]); (7334, [4326]); (7335, [4327]);
   (7336, [4328]); (7337, [4329]); (7338, [4330]); (7339, [4331]); (7340, [4332]);
   (7341, [4333]); (7342, [4334]); (7343, [4335]); (7344, [4336]); (7345, [4337]);
   (7346, [4338]); (7347, [4339]); (7348, [4340]); (7349, [4341]); (7350, [4342]);
   (7351, [4343]); (7352, [4344]); (7353, [4345]); (7354, [4346]); (7357, [4349]);
   (7358, [4350]); (7359, [4351]); (7680, [7681]); (7682, [7683]); (7684, [7685]);
   (7686, [7687]); (7688, [7689]); (7690, [7691]); (7692, [7693]); (7694, [7695]);
   (7696, [7697]); (7698, [7699]); (7700, [7701]); (7702, [7703]); (7704, [7705]);
   (7706, [7707]); (7708, [7709]); (7710, [7711]); (7712, [7713]); (7714, [7715]);
   (7716, [7717]); (7718, [7719]); (7720, [7721]); (7722, [7723]); (7724, [7725]);
   (7726, [7727]); (7728, [7729]); (7730, [7731]); (7732, [7733]); (7734, [7735]);
   (7736, [7737]); (7738, [7739]); (7740, [7741]); (7742, [7743]); (7744, [7745]);
   (7746, [7747]); (7748, [7749]); (7750, [7751]); (7752, [7753]); (7754, [7755]);
   (7756, [7757]); (7758, [7759]); (7760, [7761]); (7762, [7763]); (7764, [7765]);
   (7766, [7767]); (7768, [7769]); (7770, [7771]); (7772, [7773]); (7774, [7775]);
   (7776, [7777]); (7778, [7779]); (7780, [7781]); (7782, [7783]); (7784, [7785]);
   (7786, [7787]); (7788, [7789]); (7790, [7791]); (7792, [7793]); (7794, [7795]);
   (7796, [7797]); (7798, [7799]); (7800, [7801]); (7802, [7803]); (7804, [7805]);
   (7806, [7807]); (7808, [7809]); (7810, [7811]); (7812, [7813]); (7814, [7815]);
   (7816, [7817]); (7818, [7819]); (7820, [7821]); (7822, [7823]); (7824, [7825]);
   (7826, [7827]); (7828, [7829]); (7838, [223]); (7840, [7841]); (7842, [7843]);
   (7844, [7845]); (7846, [7847]); (7848, [7849]); (7850, [7851]); (7852, [7853]);
   (7854, [7855]); (7856, [7857]); (7858, [7859]); (7860, [7861]); (7862, [7863]);
   (7864, [7865]); (7866, [7867]); (7868, [7869]); (7870, [7871]); (7872, [7873]);
   (7874, [7875]); (7876, [7877]); (7878, [7879]); (7880, [7881]); (7882, [7883]);
   (7884, [7885]); (7886, [7887]); (7888, [7889]); (7890, [7891]); (7892, [7893]);
   (7894, [7895]); (7896, [7897]); (7898, [7899]); (7900, [7901]); (7902, [7903]);
   (7904, [7905]); (7906, [7907]); (7908, [7909]); (7910, [7911]); (7912, [7913]);
   (7914, [7915]); (7916, [7917]); (7918, [7919]); (7920, [7921]); (7922, [7923]);
   (7924, [7925]); (7926, [7927]); (7928, [7929]); (7930, [7931]); (7932, [7933]);
   (7934, [7935]); (7944, [7936]); (7945, [7937]); (7946, [7938]); (7947, [7939]);
   (7948, [7940]); (7949, [7941]); (7950, [7942]); (7951, [7943]); (7960, [7952]);
   (7961, [7953]); (7962, [7954]); (7963, [7955]); (7964, [7956]); (7965, [7957]);
   (7976, [7968]); (7977, [7969]); (7978, [7970]); (7979, [7971]); (7980, [7972]);
   (7981, [7973]); (7982, [7974]); (7983, [7975]); (7992, [7984]); (7993, [7985]);
   (7994, [7986]); (7995, [7987]); (7996, [7988]); (7997, [7989]); (7998, [7990]);
   (7999, [7991]); (8008, [8000]); (8009, [8001]); (8010, [8002]); (8011, [8003]);
   (8012, [8004]); (8013, [8005]); (8025, [8017]); (8027, [8019]); (8029, [8021]);
   (8031, [8023]); (8040, [8032]); (8041, [8033]); (8042, [8034]); (8043, [8035]);
   (8044, [8036]); (8045, [8037]); (8046, [8038]); (8047, [8039]); (8072, [8064]);
   (8073, [8065]); (8074, [8066]); (8075, [8067]); (8076, [8068]); (8077, [8069]);
   (8078, [8070]); (8079, [8071]); (8088, [8080]); (8089, [8081]); (8090, [8082]);
   (8091, [8083]); (8092, [8084]); (8093, [8085]); (8094, [8086]); (8095, [8087]);
   (8104, [8096]); (8105, [8097]); (8106, [8098]); (8107, [8099]); (8108, [8100]);
   (8109, [8101]); (8110, [8102]); (8111, [8103]); (8120, [8112]); (8121, [8113]);
   (8122, [8048]); (8123, [8049]); (8124, [8115]); (8136, [8050]); (8137, [8051]);
   (8138, [8052]); (8139, [8053]); (8140, [8131]); (8152, [8144]); (8153, [8145]);
   (8154, [8054]); (8155, [8055]); (8168, [8160]); (8169, [8161]); (8170, [8058]);
   (8171, [8059]); (8172, [8165]); (8184, [8056]); (8185, [8057]); (8186, [8060]);
   (8187, [8061]); (8188, [8179]); (8486, [969]); (8490, [107]); (8491, [229]); (8498, [8526]);
   (8544, [8560]); (8545, [8561]); (8546, [8562]); (8547, [8563]); (8548, [8564]);
   (8549, [8565]); (8550, [8566]); (8551, [8567]); (8552, [8568]); (8553, [8569]);
   (8554, [8570]); (8555, [8571]); (8556, [8572]); (8557, [8573]); (8558, [8574]);
   (8559, [8575]); (8579, [8580]); (9398, [9424]); (9399, [9425]); (9400, [9426]);
   (9401, [9427]); (9402, [9428]); (9403, [9429]); (9404, [9430]); (9405, [9431]);
   (9406, [9432]); (9407, [9433]); (9408, [9434]); (9409, [9435]); (9410, [9436]);
   (9411, [9437]); (9412, [9438]); (9413, [9439]); (9414, [9440]); (9415, [9441]);
   (9416, [9442]); (9417, [9443]); (9418, [9444]); (9419, [9445]); (9420, [9446]);
   (9421, [9447]); (9422, [9448]); (9423, [9449]); (11264, [11312]); (11265, [11313]);
   (11266, [11314]); (11267, [11315]); (11268, [11316]); (11269, [11317]); (11270, [11318]);
   (11271, [11319]); (11272, [11320]); (11273, [11321]); (11274, [11322]); (11275, [11323]);
   (11276, [11324]); (11277, [11325]); (11278, [11326]); (11279, [11327]); (11280, [11328]);
   (11281, [11329]); (11282, [11330]); (11283, [11331]); (11284, [11332]); (11285, [11333]);
   (11286, [11334]); (11287, [11335]); (11288, [11336]); (11289, [11337]); (11290, [11338]);
   (11291, [11339]); (11292, [11340]); (11293, [11341]); (11294, [11342]); (11295, [11343]);
   (11296, [11344]); (11297, [11345]); (11298, [11346]); (11299, [11347]); (11300, [11348]);
   (11301, [11349]); (11302, [11350]); (11303, [11351]); (11304, [11352]); (11305, [11353]);
   (11306, [11354]); (11307, [11355]); (11308, [11356]); (11309, [11357]); (11310, [11358]);
   (11311, [11359]); (11360, [11361]); (11362, [619]); (11363, [7549]); (11364, [637]);
   (11367, [11368]); (11369, [11370]); (11371, [11372]); (11373, [593]); (11374, [625]);
   (11375, [592]); (11376, [594]); (11378, [11379]); (11381, [11382]); (11390, [575]);
   (11391, [576]); (11392, [11393]); (11394, [11395]); (11396, [11397]); (11398, [11399]);
   (11400, [11401]); (11402, [11403]); (11404, [11405]); (11406, [11407]); (11408, [11409]);
   (11410, [11411]); (11412, [11413]); (11414, [11415]); (11416, [11417]); (11418, [11419]);
   (11420, [11421]); (11422, [11423]); (11424, [11425]); (11426, [11427]); (11428, [11429]);
   (11430, [11431]); (11432, [11433]); (11434, [11435]); (11436, [11437]); (11438, [11439]);
   (11440, [11441]); (11442, [11443]); (11444, [11445]); (11446, [11447]); (11448, [11449]);
   (11450, [11451]); (11452, [11453]); (11454, [11455]); (11456, [11457]); (11458, [11459]);
   (11460, [11461]); (11462, [11463]); (11464, [11465]); (11466, [11467]); (11468, [11469]);
   (11470, [11471]); (11472, [11473]); (11474, [11475]); (11476, [11477]); (11478, [11479]);
   (11480, [11481]); (11482, [11483]); (11484, [11485]); (11486, [11487]); (11488, [11489]);
   (11490, [11491]); (11499, [11500]); (11501, [11502]); (11506, [11507]); (42560, [42561]);
   (42562, [42563]); (42564, [42565]); (42566, [42567]); (42568, [42569]); (42570, [42571]);
   (42572, [42573]); (42574, [42575]); (42576, [42577]); (42578, [42579]); (42580, [42581]);
   (42582, [42583]); (42584, [42585]); (42586, [42587]); (42588, [42589]); (42590, [42591]);
   (42592, [42593]); (42594, [42595]); (42596, [42597]); (42598, [42599]); (42600, [42601]);
   (42602, [42603]); (42604, [42605]); (42624, [42625]); (42626, [42627]); (42628, [42629]);
   (42630, [42631]); (42632, [42633]); (42634, [42635]); (42636, [42637]); (42638, [42639]);
   (42640, [42641]); (42642, [42643]); (42644, [42645]); (42646, [42647]); (42648, [42649]);
   (42650, [42651]); (42786, [42787]); (42788, [42789]); (42790, [42791]); (42792, [42793]);
   (42794, [42795]); (42796, [42797]); (42798, [42799]); (42802, [42803]); (42804, [42805]);
   (42806, [42807]); (42808, [42809]); (42810, [42811]); (42812, [42813]); (42814, [42815]);
   (42816, [42817]); (42818, [42819]); (42820, [42821]); (42822, [42823]); (42824, [42825]);
   (42826, [42827]); (42828, [42829]); (42830, [42831]); (42832, [42833]); (42834, [42835]);
   (42836, [42837]); (42838, [42839]); (42840, [42841]); (42842, [42843]); (42844, [42845]);
   (42846, [42847]); (42848, [42849]); (42850, [42851]); (42852, [42853]); (42854, [42855]);
   (42856, [42857]); (42858, [42859]); (42860, [42861]); (42862, [42863]); (42873, [42874]);
   (42875, [42876]); (42877, [7545]); (42878, [42879]); (42880, [42881]); (42882, [42883]);
   (42884, [42885]); (42886, [42887]); (42891, [42892]); (42893, [613]); (42896, [42897]);
   (42898, [42899]); (42902, [42903]); (42904, [42905]); (42906, [42907]); (42908, [42909]);
   (42910, [42911]); (42912, [42913]); (42914, [42915]); (42916, [42917]); (42918, [42919]);
   (42920, [42921]); (42922, [614]); (42923, [604]); (42924, [609]); (42925, [620]);
   (42926, [618]); (42928, [670]); (42929, [647]); (42930, [669]); (42931, [43859]);
   (42932, [42933]); (42934, [42935]); (42936, [42937]); (42938, [42939]); (42940, [42941]);
   (42942, [42943]); (42944, [42945]); (42946, [42947]); (42948, [42900]); (42949, [642]);
   (42950, [7566]); (42951, [42952]); (42953, [42954]); (42960, [42961]); (42966, [42967]);
   (42968, [42969]); (42997, [42998]); (65313, [65345]); (65314, [65346]); (65315, [65347]);
   (65316, [65348]); (65317, [65349]); (65318, [65350]); (65319, [65351]); (65320, [65352]);
   (65321, [65353]); (65322, [65354]); (65323, [65355]); (65324, [65356]); (65325, [65357]);
   (65326, [65358]); (65327, [65359]); (65328, [65360]); (65329, [65361]); (65330, [65362]);
   (65331, [65363]); (65332, [65364]); (65333, [65365]); (65334, [65366]); (65335, [65367]);
   (65336, [65368]); (65337, [65369]); (65338, [65370]); (66560, [66600]); (66561, [66601]);
   (66562, [66602]); (66563, [66603]); (66564, [66604]); (66565, [66605]); (66566, [66606]);
   (66567, [66607]); (66568, [66608]); (66569, [66609]); (66570, [66610]); (66571, [66611]);
   (66572, [66612]); (66573, [66613]); (66574, [66614]); (66575, [66615]); (66576, [66616]);
   (66577, [66617]); (66578, [66618]); (66579, [66619]); (66580, [66620]); (66581, [66621]);
   (66582, [66622]); (66583, [66623]); (66584, [66624]); (66585, [66625]); (66586, [66626]);
   (66587, [66627]); (66588, [66628]); (66589, [66629]); (66590, [66630]); (66591, [66631]);
   (66592, [66632]); (66593, [66633]); (66594, [66634]); (66595, [66635]); (66596, [66636]);
   (66597, [66637]); (66598, [66638]); (66599, [66639]); (66736, [66776]); (66737, [66777]);
   (66738, [66778]); (66739, [66779]); (66740, [66780]); (66741, [66781]); (66742, [66782]);
   (66743, [66783]); (66744, [66784]); (66745, [66785]); (66746, [66786]); (66747, [66787]);
   (66748, [66788]); (66749, [66789]); (66750, [66790]); (66751, [66791]); (66752, [66792]);
   (66753, [66793]); (66754, [66794]); (66755, [66795]); (66756, [66796]); (66757, [66797]);
   (66758, [66798]); (66759, [66799]); (66760, [66800]); (66761, [66801]); (66762, [66802]);
   (66763, [66803]); (66764, [66804]); (66765, [66805]); (66766, [66806]); (66767, [66807]);
   (66768, [66808]); (66769, [66809]); (66770, [66810]); (66771, [66811]); (66928, [66967]);
   (66929, [66968]); (66930, [66969]); (66931, [66970]); (66932, [66971]); (66933, [66972]);
   (66934, [66973]); (66935, [66974]); (66936, [66975]); (66937, [66976]); (66938, [66977]);
   (66940, [66979]); (66941, [66980]); (66942, [66981]); (66943, [66982]); (66944, [66983]);
   (66945, [66984]); (66946, [66985]); (66947, [66986]); (66948, [66987]); (66949, [66988]);
   (66950, [66989]); (66951, [66990]); (66952, [66991]); (66953, [66992]); (66954, [66993]);
   (66956, [66995]); (66957, [66996]); (66958, [66997]); (66959, [66998]); (66960, [66999]);
   (66961, [67000]); (66962, [67001]); (66964, [67003]); (66965, [67004]); (68736, [68800]);
   (68737, [68801]); (68738, [68802]); (68739, [68803]); (68740, [68804]); (68741, [68805]);
   (68742, [68806]); (68743, [68807]); (68744, [68808]); (68745, [68809]); (68746, [68810]);
   (68747, [68811]); (68748, [68812]); (68749, [68813]); (68750, [68814]); (68751, [68815]);
   (68752, [68816]); (68753, [68817]); (68754, [68818]); (68755, [68819]); (68756, [68820]);
   (68757, [68821]); (68758, [68822]); (68759, [68823]); (68760, [68824]); (68761, [68825]);
   (68762, [68826]); (68763, [68827]); (68764, [68828]); (68765, [68829]); (68766, [68830]);
   (68767, [68831]); (68768, [68832]); (68769, [68833]); (68770, [68834]); (68771, [68835]);
   (68772, [68836]); (68773, [68837]); (68774, [68838]); (68775, [68839]); (68776, [68840]);
   (68777, [68841]); (68778, [68842]); (68779, [68843]); (68780, [68844]); (68781, [68845]);
   (68782, [68846]); (68783, [68847]); (68784, [68848]); (68785, [68849]); (68786, [68850]);
   (71840, [71872]); (71841, [71873]); (71842, [71874]); (71843, [71875]); (71844, [71876]);
   (71845, [71877]); (71846, [71878]); (71847, [71879]); (71848, [71880]); (71849, [71881]);
   (71850, [71882]); (71851, [71883]); (71852, [71884]); (71853, [71885]); (71854, [71886]);
   (71855, [71887]); (71856, [71888]); (71857, [71889]); (71858, [71890]); (71859, [71891]);
   (71860, [71892]); (71861, [71893]); (71862, [71894]); (71863, [71895]); (71864, [71896]);
   (71865, [71897]); (71866, [71898]); (71867, [71899]); (71868, [71900]); (71869, [71901]);
   (71870, [71902]); (71871, [71903]); (93760, [93792]); (93761, [93793]); (93762, [93794]);
   (93763, [93795]); (93764, [93796]); (93765, [93797]); (93766, [93798]); (93767, [93799]);
   (93768, [93800]); (93769, [93801]); (93770, [93802]); (93771, [93803]); (93772, [93804]);
   (93773, [93805]); (93774, [93806]); (93775, [93807]); (93776, [93808]); (93777, [93809]);
   (93778, [93810]); (93779, [93811]); (93780, [93812]); (93781, [93813]); (93782, [93814]);
   (93783, [93815]); (93784, [93816]); (93785, [93817]); (93786, [93818]); (93787, [93819]);
   (93788, [93820]); (93789, [93821]); (93790, [93822]); (93791, [93823]); (125184, [125218]);
   (125185, [125219]); (125186, [125220]); (125187, [125221]); (125188, [125222]);
   (125189, [125223]); (125190, [125224]); (125191, [125225]); (125192, [125226]);
   (125193, [125227]); (125194, [125228]); (125195, [125229]); (125196, [125230]);
   (125197, [125231]); (125198, [125232]); (125199, [125233]); (125200, [125234]);
   (125201, [125235]); (125202, [125236]); (125203, [125237]); (125204, [125238]);
   (125205, [125239]); (125206, [125240]); (125207, [125241]); (125208, [125242]);
   (125209, [125243]); (125210, [125244]); (125211, [125245]); (125212, [125246]);
   (125213, [125247]); (125214, [125248]); (125215, [125249]); (125216, [125250]);
   (125217, [125251])
  ].

(** The capital sigma becomes the final small sigma at the end of a word:
    after a cased letter and not before one, the characters that are
    ignorable for case being skipped.  The ranges of the characters that are
    ignorable for case, and of the remaining cased ones. *)
Definition case_ignorable : list (Z * Z) :=
  [
   (39, 39); (46, 46); (58, 58); (94, 94); (96, 96); (168, 168); (173, 173); (175, 175);
   (180, 180); (183, 184); (688, 879); (884, 885); (890, 890); (900, 901); (903, 903);
   (1155, 1161); (1369, 1369); (1375, 1375); (1425, 1469); (1471, 1471); (1473, 1474);
   (1476, 1477); (1479, 1479); (1524, 1524); (1536, 1541); (1552, 1562); (1564, 1564);
   (1600, 1600); (1611, 1631); (1648, 1648); (1750, 1757); (1759, 1768); (1770, 1773);
   (1807, 1807); (1809, 1809); (1840, 1866); (1958, 1968); (2027, 2037); (2042, 2042);
   (2045, 2045); (2070, 2093); (2137, 2139); (2184, 2184); (2192, 2193); (2200, 2207);
   (2249, 2306); (2362, 2362); (2364, 2364); (2369, 2376); (2381, 2381); (2385, 2391);
   (2402, 2403); (2417, 2417); (2433, 2433); (2492, 2492); (2497, 2500); (2509, 2509);
   (2530, 2531); (2558, 2558); (2561, 2562); (2620, 2620); (2625, 2626); (2631, 2632);
   (2635, 2637); (2641, 2641); (2672, 2673); (2677, 2677); (2689, 2690); (2748, 2748);
   (2753, 2757); (2759, 2760); (2765, 2765); (2786, 2787); (2810, 2815); (2817, 2817);
   (2876, 2876); (2879, 2879); (2881, 2884); (2893, 2893); (2901, 2902); (2914, 2915);
   (2946, 2946); (3008, 3008); (3021, 3021); (3072, 3072); (3076, 3076); (3132, 3132);
   (3134, 3136); (3142, 3144); (3146, 3149); (3157, 3158); (3170, 3171); (3201, 3201);
   (3260, 3260); (3263, 3263); (3270, 3270); (3276, 3277); (3298, 3299); (3328, 3329);
   (3387, 3388); (3393, 3396); (3405, 3405); (3426, 3427); (3457, 3457); (3530, 3530);
   (3538, 3540); (3542, 3542); (3633, 3633); (3636, 3642); (3654, 3662); (3761, 3761);
   (3764, 3772); (3782, 3782); (3784, 3789); (3864, 3865); (3893, 3893); (3895, 3895);
   (3897, 3897); (3953, 3966); (3968, 3972); (3974, 3975); (3981, 3991); (3993, 4028);
   (4038, 4038); (4141, 4144); (4146, 4151); (4153, 4154); (4157, 4158); (4184, 4185);
   (4190, 4192); (4209, 4212); (4226, 4226); (4229, 4230); (4237, 4237); (4253, 4253);
   (4348, 4348); (4957, 4959); (5906, 5908); (5938, 5939); (5970, 5971); (6002, 6003);
   (6068, 6069); (6071, 6077); (6086, 6086); (6089, 6099); (6103, 6103); (6109, 6109);
   (6155, 6159); (6211, 6211); (6277, 6278); (6313, 6313); (6432, 6434); (6439, 6440);
   (6450, 6450); (6457, 6459); (6679, 6680); (6683, 6683); (6742, 6742); (6744, 6750);
   (6752, 6752); (6754, 6754); (6757, 6764); (6771, 6780); (6783, 6783); (6823, 6823);
   (6832, 6862); (6912, 6915); (6964, 6964); (6966, 6970); (6972, 6972); (6978, 6978);
   (7019, 7027); (7040, 7041); (7074, 7077); (7080, 7081); (7083, 7085); (7142, 7142);
   (7144, 7145); (7149, 7149); (7151, 7153); (7212, 7219); (7222, 7223); (7288, 7293);
   (7376, 7378); (7380, 7392); (7394, 7400); (7405, 7405); (7412, 7412); (7416, 7417);
   (7468, 7530); (7544, 7544); (7579, 7679); (8125, 8125); (8127, 8129); (8141, 8143);
   (8157, 8159); (8173, 8175); (8189, 8190); (8203, 8207); (8216, 8217); (8228, 8228);
   (8231, 8231); (8234, 8238); (8288, 8292); (8294, 8303); (8305, 8305); (8319, 8319);
   (8336, 8348); (8400, 8432); (11388, 11389); (11503, 11505); (11631, 11631); (11647, 11647);
   (11744, 11775); (11823, 11823); (12293, 12293); (12330, 12333); (12337, 12341);
   (12347, 12347); (12441, 12446); (12540, 12542); (40981, 40981); (42232, 42237);
   (42508, 42508); (42607, 42610); (42612, 42621); (42623, 42623); (42652, 42655);
   (42736, 42737); (42752, 42785); (42864, 42864); (42888, 42890); (42994, 42996);
   (43000, 43001); (43010, 43010); (43014, 43014); (43019, 43019); (43045, 43046);
   (43052, 43052); (43204, 43205); (43232, 43249); (43263, 43263); (43302, 43309);
   (43335, 43345); (43392, 43394); (43443, 43443); (43446, 43449); (43452, 43453);
   (43471, 43471); (43493, 43494); (43561, 43566); (43569, 43570); (43573, 43574);
   (43587, 43587); (43596, 43596); (43632, 43632); (43644, 43644); (43696, 43696);
   (43698, 43700); (43703, 43704); (43710, 43711); (43713, 43713); (43741, 43741);
   (43756, 43757); (43763, 43764); (43766, 43766); (43867, 43871); (43881, 43883);
   (44005, 44005); (44008, 44008); (44013, 44013); (64286, 64286); (64434, 64450);
   (65024, 65039); (65043, 65043); (65056, 65071); (65106, 65106); (65109, 65109);
   (65279, 65279); (65287, 65287); (65294, 65294); (65306, 65306); (65342, 65342);
   (65344, 65344); (65392, 65392); (65438, 65439); (65507, 65507); (65529, 65531);
   (66045, 66045); (66272, 66272); (66422, 66426); (67456, 67461); (67463, 67504);
   (67506, 67514); (68097, 68099); (68101, 68102); (68108, 68111); (68152, 68154);
   (68159, 68159); (68325, 68326); (68900, 68903); (69291, 69292); (69446, 69456);
   (69506, 69509); (69633, 69633); (69688, 69702); (69744, 69744); (69747, 69748);
   (69759, 69761); (69811, 69814); (69817, 69818); (69821, 69821); (69826, 69826);
   (69837, 69837); (69888, 69890); (69927, 69931); (69933, 69940); (70003, 70003);
   (70016, 70017); (70070, 70078); (70089, 70092); (70095, 70095); (70191, 70193);
   (70196, 70196); (70198, 70199); (70206, 70206); (70367, 70367); (70371, 70378);
   (70400, 70401); (70459, 70460); (70464, 70464); (70502, 70508); (70512, 70516);
   (70712, 70719); (70722, 70724); (70726, 70726); (70750, 70750); (70835, 70840);
   (70842, 70842); (70847, 70848); (70850, 70851); (71090, 71093); (71100, 71101);
   (71103, 71104); (71132, 71133); (71219, 71226); (71229, 71229); (71231, 71232);
   (71339, 71339); (71341, 71341); (71344, 71349); (71351, 71351); (71453, 71455);
   (71458, 71461); (71463, 71467); (71727, 71735); (71737, 71738); (71995, 71996);
   (71998, 71998); (72003, 72003); (72148, 72151); (72154, 72155); (72160, 72160);
   (72193, 72202); (72243, 72248); (72251, 72254); (72263, 72263); (72273, 72278);
   (72281, 72283); (72330, 72342); (72344, 72345); (72752, 72758); (72760, 72765);
   (72767, 72767); (72850, 72871); (72874, 72880); (72882, 72883); (72885, 72886);
   (73009, 73014); (73018, 73018); (73020, 73021); (73023, 73029); (73031, 73031);
   (73104, 73105); (73109, 73109); (73111, 73111); (73459, 73460); (78896, 78904);
   (92912, 92916); (92976, 92982); (92992, 92995); (94031, 94031); (94095, 94111);
   (94176, 94177); (94179, 94180); (110576, 110579); (110581, 110587); (110589, 110590);
   (113821, 113822); (113824, 113827); (118528, 118573); (118576, 118598); (119143, 119145);
   (119155, 119170); (119173, 119179); (119210, 119213); (119362, 119364); (121344, 121398);
   (121403, 121452); (121461, 121461); (121476, 121476); (121499, 121503); (121505, 121519);
   (122880, 122886); (122888, 122904); (122907, 122913); (122915, 122916); (122918, 122922);
   (123184, 123197); (123566, 123566); (123628, 123631); (125136, 125142); (125252, 125259);
   (127995, 127999); (917505, 917505); (917536, 917631); (917760, 917999)
  ].

Definition cased : list (Z * Z) :=
  [
   (65, 90); (97, 122); (170, 170); (181, 181); (186, 186); (192, 214); (216, 246); (248, 442);
   (444, 447); (452, 659); (661, 687); (880, 883); (886, 887); (891, 893); (895, 895);
   (902, 902); (904, 906); (908, 908); (910, 929); (931, 1013); (1015, 1153); (1162, 1327);
   (1329, 1366); (1376, 1416); (4256, 4293); (4295, 4295); (4301, 4301); (4304, 4346);
   (4349, 4351); (5024, 5109); (5112, 5117); (7296, 7304); (7312, 7354); (7357, 7359);
   (7424, 7467); (7531, 7543); (7545, 7578); (7680, 7957); (7960, 7965); (7968, 8005);
   (8008, 8013); (8016, 8023); (8025, 8025); (8027, 8027); (8029, 8029); (8031, 8061);
   (8064, 8116); (8118, 8124); (8126, 8126); (8130, 8132); (8134, 8140); (8144, 8147);
   (8150, 8155); (8160, 8172); (8178, 8180); (8182, 8188); (8450, 8450); (8455, 8455);
   (8458, 8467); (8469, 8469); (8473, 8477); (8484, 8484); (8486, 8486); (8488, 8488);
   (8490, 8493); (8495, 8500); (8505, 8505); (8508, 8511); (8517, 8521); (8526, 8526);
   (8544, 8575); (8579, 8580); (9398, 9449); (11264, 11387); (11390, 11492); (11499, 11502);
   (11506, 11507); (11520, 11557); (11559, 11559); (11565, 11565); (42560, 42605);
   (42624, 42651); (42786, 42863); (42865, 42887); (42891, 42894); (42896, 42954);
   (42960, 42961); (42963, 42963); (42965, 42969); (42997, 42998); (43002, 43002);
   (43824, 43866); (43872, 43880); (43888, 43967); (64256, 64262); (64275, 64279);
   (65313, 65338); (65345, 65370); (66560, 66639); (66736, 66771); (66776, 66811);
   (66928, 66938); (66940, 66954); (66956, 66962); (66964, 66965); (66967, 66977);
   (66979, 66993); (66995, 67001); (67003, 67004); (68736, 68786); (68800, 68850);
   (71840, 71903); (93760, 93823); (119808, 119892); (119894, 119964); (119966, 119967);
   (119970, 119970); (119973, 119974); (119977, 119980); (119982, 119993); (119995, 119995);
   (119997, 120003); (120005, 120069); (120071, 120074); (120077, 120084); (120086, 120092);
   (120094, 120121); (120123, 120126); (120128, 120132); (120134, 120134); (120138, 120144);
   (120146, 120485); (120488, 120512); (120514, 120538); (120540, 120570); (120572, 120596);
   (120598, 120628); (120630, 120654); (120656, 120686); (120688, 120712); (120714, 120744);
   (120746, 120770); (120772, 120779); (122624, 122633); (122635, 122654); (125184, 125251);
   (127280, 127305); (127312, 127337); (127344, 127369)
  ].

Definition in_ranges (rs : list (Z * Z)) (p : Z) : bool :=
  existsb (fun r => (fst r <=? p) && (p <=? snd r)) rs.

(** The first character that is not ignorable for case. *)
Fixpoint first_solid (cs : list string) : option Z :=
  match cs with
  | [] => None
  | c :: r => if in_ranges case_ignorable (code_point c) then first_solid r
              else Some (code_point c)
  end.

Definition final_sigma (before_rev after : list string) : bool :=
  match first_solid before_rev with
  | Some b => in_ranges cased b
  | None => false
  end
  && match first_solid after with
     | Some a => negb (in_ranges cased a)
     | None => true
     end.

Definition lower_char (c : string) : string :=
  let p := code_point c in
  if (65 <=? p) && (p <=? 90) then utf8 (p + 32)
  else if p <? 128 then c
  else match List.find (fun e => fst e =? p) lower_table with
       | Some (_, l) => join (utf8 <$> l)
       | None => c
       end.

Fixpoint lower_chars (before_rev cs : list string) : list string :=
  match cs with
  | [] => []
  | c :: r =>
      (if code_point c =? 931
       then utf8 (if final_sigma before_rev r then 962 else 963)
       else lower_char c)
      :: lower_chars (c :: before_rev) r
  end.

(** [s.lower()]. *)
Definition lower (s : string) : string := join (lower_chars [] (chars s)).

(** [needle in hay]. *)
Fixpoint starts_with (needle hay : string) : bool :=
  match needle, hay with
  | EmptyString, _ => true
  | String a n, String b h => Ascii.eqb a b && starts_with n h
  | String _ _, EmptyString => false
  end.

Fixpoint contains (needle hay : string) : bool :=
  starts_with needle hay
  || match hay with
     | EmptyString => false
     | String _ h => contains needle h
     end.

(** [for p in paths: if os.path.isfile(p): return p]. *)
Definition first_file (h : host) (paths : list string) : option string :=
  List.find (isfile h) paths.

Definition windows_paths : list string :=
  ["C:\\Riot Games\\League of Legends\\lockfile";
   "C:\\Program Files\\Riot Games\\League of Legends\\lockfile";
   "C:\\Program Files (x86)\\Riot Games\\League of Legends\\lockfile"].

Definition other_paths (h : host) : list string :=
  ["/Applications/League of Legends.app/Contents/LoL/lockfile";
   expanduser h "~/.local/share/League of Legends/lockfile"].

(** The paths that the scan of the processes tries, in its order. *)
Definition process_paths (h : host) : list string :=
  List.concat
    (List.map
       (fun pr =>
          if contains "leagueclient" (lower (default "" (proc_name pr)))
          then
            let exe := default "" (proc_exe pr) in
            [path_join h (dirname h exe) "lockfile";
             path_join h (dirname h (dirname h exe)) "lockfile"]
          else [])
       (process_iter h)).

Definition _find_lockfile (h : host) (explicit : option string) : option string :=
  if str_truthy explicit && isfile h (default "" explicit) then explicit
  else if str_truthy (environ_LCU_LOCKFILE h)
          && isfile h (default "" (environ_LCU_LOCKFILE h))
  then environ_LCU_LOCKFILE h
  else
    match first_file h (if bool_decide (os_name h = "nt") then windows_paths
                        else other_paths h) with
    | Some p => Some p
    | None => first_file h (process_paths h)
    end.

(** A host with the lockfile of a running client beside its executable. *)
Definition host_with_client : host :=
  Host (fun p => bool_decide (p = "/opt/lol/lockfile")) None "posix"
       (fun p => "/home/me" +:+ p)
       [Process (Some "bash") (Some "/bin/bash");
        Process (Some "LeagueClientUx") (Some "/opt/lol/LeagueClient")]
       (fun p => if bool_decide (p = "/opt/lol/LeagueClient") then "/opt/lol" else "/")
       (fun d f => d +:+ "/" +:+ f).

End LCU.

(** ** [src/database/name_db.py] *)

Module NameDB.

Inductive kind := Champion | Skin.

Record Entry := MkEntry {
  key : string;
  entry_kind : kind;
  champ_slug : string;
  champ_id : Z;
  skin_id : option Z
}.

(** How a call ends: with a value, or with an exception. *)
Inductive result (A : Type) :=
| Ok (a : A)
| Raise.
Arguments Ok {A} a.
Arguments Raise {A}.

(** A JSON value in a field of a skin object. *)
Inductive scalar := SNull | SStr (s : string) | SInt (z : Z).

Record skin_obj := SkinObj {
  id_field : scalar;            (* s.get("id") *)
  name_field : scalar;          (* s.get("name") *)
  num_field : scalar            (* s.get("num") *)
}.

(** A document of Data Dragon as the lookups read it: an object whose "data"
    maps a slug to the skins of a champion, or something that is no object,
    on which [.get] raises. *)
Inductive document :=
| DocChampion (data : list (string * list skin_obj))
| DocOther.

(** The cache directory and the network. *)
Inductive file := Unreadable | Readable (d : document).

Record world := World {
  files : gmap string file;           (* by file name under CACHE *)
  remote : gmap string document;      (* by URL; no entry: the request fails *)
  writable : bool                     (* can a cache file be written *)
}.

(** A dict that the code iterates over keeps its order: a list of pairs with
    distinct keys. *)
Fixpoint assoc {K V} `{EqDecision K} (k : K) (l : list (K * V)) : option V :=
  match l with
  | [] => None
  | (k', v) :: r => if decide (k = k') then Some v else assoc k r
  end.

(** The database object. *)
Record t := Mk {
  ver : string;
  langs : list string;
  slug_by_id : gmap Z string;
  champ_name_by_id_by_lang : list (string * list (Z * string));
  champ_name_by_id : list (Z * string);
  entries_by_champ : gmap string (list Entry);
  skin_name_by_id : gmap Z string;
  _skins_loaded : gset string;
  _global_entries : option (list Entry)
}.

Definition _cache_json (name url : string) (w : world) : result document * world :=
  match files w !! name with
  | Some (Readable d) => (Ok d, w)
  | _ =>
      match remote w !! url with
      | None => (Raise, w)
      | Some d =>
          if writable w
          then (Ok d, World (<[name := Readable d]> (files w)) (remote w) (writable w))
          else (Raise, w)
      end
  end.

(** [int(s.get("id"))]. *)
Definition int_of (v : scalar) : option Z :=
  match v with
  | SNull => None
  | SStr s => LCU.py_int s
  | SInt z => Some z
  end.

(** [(s.get("name") or "").strip()]. *)
Definition name_of (v : scalar) : option string :=
  match v with
  | SNull | SInt 0 => Some ""
  | SStr s => Some (LCU.strip s)
  | SInt _ => None
  end.

(** [int(s.get("num") or 0)]. *)
Definition num_of (v : scalar) : option Z :=
  match v with
  | SNull | SStr EmptyString => Some 0
  | SStr s => LCU.py_int s
  | SInt z => Some z
  end.

(** [a or b] on strings that may be missing. *)
Definition or_else (a : option string) (b : option string) : option string :=
  match a with
  | Some (String _ _) => a
  | _ => b
  end.

(** What the loop over the skins carries along: [self.skin_name_by_id], the
    list [out], and [keys_seen]. *)
Record acc := Acc {
  names : gmap Z string;
  out : list Entry;
  keys_seen : gset string
}.

(** The body of [for label in (full, sname)]. *)
Definition add_label (slug : string) (cid sid : Z) (a : acc) (label : string) : acc :=
  if bool_decide (label ∈ keys_seen a) then a
  else Acc (names a) (out a ++ [MkEntry label Skin slug cid (Some sid)])
           ({[label]} ∪ keys_seen a).

(** The body of [for s in skins], with its [try] and [except Exception: pass]. *)
Definition skin_step (cname slug : string) (cid : Z) (a : acc) (s : skin_obj) : acc :=
  match int_of (id_field s), name_of (name_field s), num_of (num_field s) with
  | Some sid, Some sname, Some num =>
      let a := if sid =? 0 then a
               else Acc (<[sid := sname]> (names a)) (out a) (keys_seen a) in
      if (num =? 0) || bool_decide (sname = "") then a
      else foldl (add_label slug cid sid) a [cname +:+ " " +:+ sname; sname]
  | _, _, _ => a
  end.

(** The body of [for lang in self.langs] of [_ensure_champ], with its [try]
    and [except Exception: pass]. *)
Definition lang_step (db : t) (slug : string) (cid : Z) (st : acc * world) (lang : string)
  : acc * world :=
  let '(a, w) := st in
  match _cache_json ("champ_" +:+ slug +:+ "_" +:+ ver db +:+ "_" +:+ lang +:+ ".json")
          ("https://ddragon.leagueoflegends.com/cdn/" +:+ ver db +:+ "/data/" +:+ lang
           +:+ "/champion/" +:+ slug +:+ ".json") w with
  | (Raise, w') => (a, w')
  | (Ok DocOther, w') => (a, w')
  | (Ok (DocChampion data), w') =>
      let skins := default [] (assoc slug data) in
      let cname :=
        default slug
          (or_else (assoc lang (champ_name_by_id_by_lang db) ≫= assoc cid)
             (or_else (assoc cid (champ_name_by_id db)) (Some slug))) in
      (foldl (skin_step cname slug cid) a skins, w')
  end.

Definition _ensure_champ (slug : string) (cid : Z) (db : t) (w : world) : t * world :=
  if bool_decide (slug ∈ _skins_loaded db) then (db, w)
  else
    let out0 := default [] (entries_by_champ db !! slug) in
    let '(a, w') :=
      foldl (lang_step db slug cid) (Acc (skin_name_by_id db) out0 ∅, w) (langs db) in
    (Mk (ver db) (langs db) (slug_by_id db) (champ_name_by_id_by_lang db)
        (champ_name_by_id db) (<[slug := out a]> (entries_by_champ db)) (names a)
        ({[slug]} ∪ _skins_loaded db) (_global_entries db), w').

(** The list built when [_global_entries] is not there yet. *)
Definition global_entries (db : t) : list Entry :=
  List.concat
    (List.map
       (fun '(lang, mp) =>
          omap (fun '(cid, nm) =>
                  match slug_by_id db !! cid with
                  | Some (String a r) => Some (MkEntry nm Champion (String a r) cid None)
                  | _ => None
                  end) mp)
       (champ_name_by_id_by_lang db)).

Definition candidates_for_champ (champ_id : option Z) (db : t) (w : world)
  : result (list Entry) * t * world :=
  let known :=
    match champ_id with
    | Some cid => if cid =? 0 then None else (fun slug => (cid, slug)) <$> slug_by_id db !! cid
    | None => None
    end in
  match known with
  | Some (cid, slug) =>
      let '(db, w) := _ensure_champ slug cid db w in
      (Ok (default [] (entries_by_champ db !! slug)), db, w)
  | None =>
      match _global_entries db with
      | Some glb => (Ok glb, db, w)
      | None =>
          let glb := global_entries db in
          (Ok glb,
           Mk (ver db) (langs db) (slug_by_id db) (champ_name_by_id_by_lang db)
              (champ_name_by_id db) (entries_by_champ db) (skin_name_by_id db)
              (_skins_loaded db) (Some glb), w)
      end
  end.

(** The name of a champion by its id, as the threads ask for it:
    [db.champ_name_by_id.get(cid)]. *)
Definition champ_name (db : t) (cid : Z) : option string :=
  assoc cid (champ_name_by_id db).

(** The parts of the database that a lookup only reads. *)
Definition index_of (db : t)
  : string * list string * gmap Z string * list (string * list (Z * string))
    * list (Z * string) :=
  (ver db, langs db, slug_by_id db, champ_name_by_id_by_lang db, champ_name_by_id db).

(** A network that is down, over a cache directory without files. *)
Definition offline : world := World ∅ ∅ true.

(** A database that knows Aatrox, from the index alone. *)
Definition db_aatrox : t :=
  Mk "14.1.1" ["en_US"] {[ 266 := "Aatrox" ]} [("en_US", [(266, "Aatrox")])]
     [(266, "Aatrox")] {[ "Aatrox" := [MkEntry "Aatrox" Champion "Aatrox" 266 None] ]}
     ∅ ∅ None.

(** *** The cache behind the lookups *)

(** The cache file and the URL of the skins of a champion in one language,
    as [_ensure_champ] names them. *)
Definition skin_file (db : t) (slug lang : string) : string :=
  "champ_" +:+ slug +:+ "_" +:+ ver db +:+ "_" +:+ lang +:+ ".json".

Definition skin_url (db : t) (slug lang : string) : string :=
  "https://ddragon.leagueoflegends.com/cdn/" +:+ ver db +:+ "/data/" +:+ lang
  +:+ "/champion/" +:+ slug +:+ ".json".

(** The document that is there for a lookup: the cache file when it can be
    read, and else what the URL gives, provided it can be written to the
    cache. *)
Definition available (w : world) (name url : string) : option document :=
  match files w !! name with
  | Some (Readable d) => Some d
  | _ => if writable w then remote w !! url else None
  end.

(** The name of the champion that [_ensure_champ] puts in front of the name
    of a skin, and what the skins of one document add to the entries. *)
Definition cname_of (db : t) (slug : string) (cid : Z) (lang : string) : string :=
  default slug
    (or_else (assoc lang (champ_name_by_id_by_lang db) ≫= assoc cid)
       (or_else (assoc cid (champ_name_by_id db)) (Some slug))).

Definition apply_doc (db : t) (slug : string) (cid : Z) (a : acc) (lang : string)
    (o : option document) : acc :=
  match o with
  | Some (DocChampion data) =>
      foldl (skin_step (cname_of db slug cid lang) slug cid) a (default [] (assoc slug data))
  | _ => a
  end.

(** A skin that gets entries: it has an id, a name that is not empty and a
    number that is not zero. *)
Definition listed_skin (s : skin_obj) (sname : string) : Prop :=
  is_Some (int_of (id_field s)) ∧ name_of (name_field s) = Some sname ∧ sname ≠ ""
  ∧ ∃ num, num_of (num_field s) = Some num ∧ num ≠ 0.

(** Every label that was seen has an entry. *)
Definition labelled (cid : Z) (a : acc) : Prop :=
  ∀ k, k ∈ keys_seen a →
    ∃ e, e ∈ out a ∧ key e = k ∧ entry_kind e = Skin ∧ champ_id e = cid.

(** *** What the lookups leave behind *)

(** The entries that [_ensure_champ] builds are skin entries of its champion:
    [Entry(key=label, kind="skin", champ_slug=slug, champ_id=champ_id,
    skin_id=sid)] with a label that is not empty. *)
Definition skin_entry_of (slug : string) (cid : Z) (e : Entry) : Prop :=
  entry_kind e = Skin ∧ champ_slug e = slug ∧ champ_id e = cid
  ∧ is_Some (skin_id e) ∧ key e ≠ "".

(** What the loops of [_ensure_champ] keep true of [out], [keys_seen] and
    [self.skin_name_by_id], from the list [out0] and the names [names0] they
    start with. *)
Definition grown (slug : string) (cid : Z) (out0 : list Entry) (names0 : gmap Z string)
    (a : acc) : Prop :=
  ∃ new,
    out a = out0 ++ new
    ∧ Forall (skin_entry_of slug cid) new
    ∧ NoDup (key <$> new)
    ∧ (∀ e, e ∈ new → key e ∈ keys_seen a)
    ∧ names a !! 0 = names0 !! 0
    ∧ (∀ k, is_Some (names0 !! k) → is_Some (names a !! k))
    ∧ (∀ e sid, e ∈ new → skin_id e = Some sid → sid ≠ 0 → is_Some (names a !! sid)).

(** A cache directory that holds one skin file of Aatrox, the network down
    and the directory read-only. *)
Definition w_cached : world :=
  World {[ "champ_Aatrox_14.1.1_en_US.json" :=
             Readable (DocChampion
               [("Aatrox", [SkinObj (SStr "266000") (SStr "default") (SInt 0);
                            SkinObj (SStr "266001") (SStr "Justicar Aatrox") (SInt 1);
                            SkinObj SNull (SStr "Broken") (SInt 2)])]) ]} ∅ false.

(** The network up, over an empty cache directory that can be written. *)
Definition w_online : world :=
  World ∅ {[ "https://ddragon.leagueoflegends.com/cdn/14.1.1/data/en_US/champion/Aatrox.json"
             := DocChampion [("Aatrox", [SkinObj (SInt 266001) (SStr "Justicar Aatrox")
                                           (SInt 1)])] ]} true.

(** *** [normalized_entries] *)

Section normalization.
(** [utils.normalization.normalize_text], a function from strings to
    strings. *)
Variable normalize_text : string → string.

(** The body of [for e in entries], over [out] and [self._norm_cache]. *)
Definition norm_step (a : list (Entry * string) * gmap string string) (e : Entry)
  : list (Entry * string) * gmap string string :=
  let '(out, cache) := a in
  match cache !! key e with
  | Some nk => (out ++ [(e, nk)], cache)
  | None =>
      let nk := normalize_text (key e) in
      (out ++ [(e, nk)], <[key e := nk]> cache)
  end.

(** The database object carries [_norm_cache] beside the fields of [t]. *)
Definition normalized_entries (champ_id : option Z) (db : t) (cache : gmap string string)
    (w : world) : result (list (Entry * string)) * t * gmap string string * world :=
  match candidates_for_champ champ_id db w with
  | (Ok entries, db, w) =>
      let '(out, cache) := foldl norm_step ([], cache) entries in
      (Ok out, db, cache, w)
  | (Raise, db, w) => (Raise, db, cache, w)
  end.

(** A cache that holds under every key what [normalize_text] gives for it. *)
Definition coherent (cache : gmap string string) : Prop :=
  ∀ k v, cache !! k = Some v → v = normalize_text k.

End normalization.

(** *** The languages of the database *)

(** [_resolve_langs_spec].  [languages] is what the call
    [self._fetch_languages()] gives, or that it raises. *)
Definition _resolve_langs_spec (languages : result (list string)) (spec : string)
  : list string :=
  if bool_decide (spec = "")
     || bool_decide (LCU.lower (LCU.strip spec) ∈ ["default"; "auto"])
  then ["fr_FR"]
  else
    let s := LCU.strip spec in
    if bool_decide (LCU.lower s = "all") then
      match languages with
      | Ok l => l
      | Raise => ["en_US"; "fr_FR"]
      end
    else if LCU.has_char "," s then
      List.filter (fun x => negb (bool_decide (x = "")))
        (LCU.strip <$> LCU.split_on "," s)
    else [s].

(** [self.canonical_lang] as [__init__] sets it from [self.langs]. *)
Definition canonical_lang (langs : list string) : string :=
  if bool_decide ("en_US" ∈ langs) then "en_US"
  else match langs with
       | x :: _ => x
       | [] => "en_US"
       end.

End NameDB.

(** ** [src/threads/websocket_thread.py] *)

Module WS.

(** Modelled from the spec: [state/shared_state.py] is not among the sources.
    The record holds the fields of [SharedState] that the event thread reads
    or writes, with the types the thread's own uses give them (section 3 of
    the specification: the lock map from slot id to character id, the
    countdown epoch fields, the flags).  [timer_lock] is an object of the
    interpreter; taking and leaving it shows in the trace. *)
Record SharedState := State {
  phase : option string;
  hovered_champ_id : option Z;
  locked_champ_id : option Z;
  local_cell_id : option Z;
  players_visible : Z;
  locks_by_cell : gmap Z Z;
  all_locked_announced : bool;
  loadout_countdown_active : bool;
  loadout_left0_ms : Z;
  loadout_t0 : Z;
  ticker_seq : option Z;
  current_ticker : option Z;
  last_hovered_skin_key : option string;
  last_hovered_skin_id : option Z;
  last_hovered_skin_slug : option string;
  last_hover_written : bool;
  processed_action_ids : gset Z
}.

Definition set_phase (v : option string) (s : SharedState) : SharedState :=
  State v (hovered_champ_id s) (locked_champ_id s) (local_cell_id s) (players_visible s)
    (locks_by_cell s) (all_locked_announced s) (loadout_countdown_active s)
    (loadout_left0_ms s) (loadout_t0 s) (ticker_seq s) (current_ticker s)
    (last_hovered_skin_key s) (last_hovered_skin_id s) (last_hovered_skin_slug s)
    (last_hover_written s) (processed_action_ids s).

Definition set_hovered_champ_id (v : option Z) (s : SharedState) : SharedState :=
  State (phase s) v (locked_champ_id s) (local_cell_id s) (players_visible s)
    (locks_by_cell s) (all_locked_announced s) (loadout_countdown_active s)
    (loadout_left0_ms s) (loadout_t0 s) (ticker_seq s) (current_ticker s)
    (last_hovered_skin_key s) (last_hovered_skin_id s) (last_hovered_skin_slug s)
    (last_hover_written s) (processed_action_ids s).

Definition set_locked_champ_id (v : option Z) (s : SharedState) : SharedState :=
  State (phase s) (hovered_champ_id s) v (local_cell_id s) (players_visible s)
    (locks_by_cell s) (all_locked_announced s) (loadout_countdown_active s)
    (loadout_left0_ms s) (loadout_t0 s) (ticker_seq s) (current_ticker s)
    (last_hovered_skin_key s) (last_hovered_skin_id s) (last_hovered_skin_slug s)
    (last_hover_written s) (processed_action_ids s).

Definition set_local_cell_id (v : option Z) (s : SharedState) : SharedState :=
  State (phase s) (hovered_champ_id s) (locked_champ_id s) v (players_visible s)
    (locks_by_cell s) (all_locked_announced s) (loadout_countdown_active s)
    (loadout_left0_ms s) (loadout_t0 s) (ticker_seq s) (current_ticker s)
    (last_hovered_skin_key s) (last_hovered_skin_id s) (last_hovered_skin_slug s)
    (last_hover_written s) (processed_action_ids s).

Definition set_players_visible (v : Z) (s : SharedState) : SharedState :=
  State (phase s) (hovered_champ_id s) (locked_champ_id s) (local_cell_id s) v
    (locks_by_cell s) (all_locked_announced s) (loadout_countdown_active s)
    (loadout_left0_ms s) (loadout_t0 s) (ticker_seq s) (current_ticker s)
    (last_hovered_skin_key s) (last_hovered_skin_id s) (last_hovered_skin_slug s)
    (last_hover_written s) (processed_action_ids s).

Definition set_locks_by_cell (v : gmap Z Z) (s : SharedState) : SharedState :=
  State (phase s) (hovered_champ_id s) (locked_champ_id s) (local_cell_id s)
    (players_visible s) v (all_locked_announced s) (loadout_countdown_active s)
    (loadout_left0_ms s) (loadout_t0 s) (ticker_seq s) (current_ticker s)
    (last_hovered_skin_key s) (last_hovered_skin_id s) (last_hovered_skin_slug s)
    (last_hover_written s) (processed_action_ids s).

Definition set_all_locked_announced (v : bool) (s : SharedState) : SharedState :=
  State (phase s) (hovered_champ_id s) (locked_champ_id s) (local_cell_id s)
    (players_visible s) (locks_by_cell s) v (loadout_countdown_active s)
    (loadout_left0_ms s) (loadout_t0 s) (ticker_seq s) (current_ticker s)
    (last_hovered_skin_key s) (last_hovered_skin_id s) (last_hovered_skin_slug s)
    (last_hover_written s) (processed_action_ids s).

Definition set_loadout_countdown_active (v : bool) (s : SharedState) : SharedState :=
  State (phase s) (hovered_champ_id s) (locked_champ_id s) (local_cell_id s)
    (players_visible s) (locks_by_cell s) (all_locked_announced s) v (loadout_left0_ms
    s) (loadout_t0 s) (ticker_seq s) (current_ticker s) (last_hovered_skin_key s)
    (last_hovered_skin_id s) (last_hovered_skin_slug s) (last_hover_written s)
    (processed_action_ids s).

Definition set_loadout_left0_ms (v : Z) (s : SharedState) : SharedState :=
  State (phase s) (hovered_champ_id s) (locked_champ_id s) (local_cell_id s)
    (players_visible s) (locks_by_cell s) (all_locked_announced s)
    (loadout_countdown_active s) v (loadout_t0 s) (ticker_seq s) (current_ticker s)
    (last_hovered_skin_key s) (last_hovered_skin_id s) (last_hovered_skin_slug s)
    (last_hover_written s) (processed_action_ids s).

Definition set_loadout_t0 (v : Z) (s : SharedState) : SharedState :=
  State (phase s) (hovered_champ_id s) (locked_champ_id s) (local_cell_id s)
    (players_visible s) (locks_by_cell s) (all_locked_announced s)
    (loadout_countdown_active s) (loadout_left0_ms s) v (ticker_seq s) (current_ticker
    s) (last_hovered_skin_key s) (last_hovered_skin_id s) (last_hovered_skin_slug s)
    (last_hover_written s) (processed_action_ids s).

Definition set_ticker_seq (v : option Z) (s : SharedState) : SharedState :=
  State (phase s) (hovered_champ_id s) (locked_champ_id s) (local_cell_id s)
    (players_visible s) (locks_by_cell s) (all_locked_announced s)
    (loadout_countdown_active s) (loadout_left0_ms s) (loadout_t0 s) v (current_ticker
    s) (last_hovered_skin_key s) (last_hovered_skin_id s) (last_hovered_skin_slug s)
    (last_hover_written s) (processed_action_ids s).

Definition set_current_ticker (v : option Z) (s : SharedState) : SharedState :=
  State (phase s) (hovered_champ_id s) (locked_champ_id s) (local_cell_id s)
    (players_visible s) (locks_by_cell s) (all_locked_announced s)
    (loadout_countdown_active s) (loadout_left0_ms s) (loadout_t0 s) (ticker_seq s) v
    (last_hovered_skin_key s) (last_hovered_skin_id s) (last_hovered_skin_slug s)
    (last_hover_written s) (processed_action_ids s).

Definition set_last_hovered_skin_key (v : option string) (s : SharedState) : SharedState :=
  State (phase s) (hovered_champ_id s) (locked_champ_id s) (local_cell_id s)
    (players_visible s) (locks_by_cell s) (all_locked_announced s)
    (loadout_countdown_active s) (loadout_left0_ms s) (loadout_t0 s) (ticker_seq s)
    (current_ticker s) v (last_hovered_skin_id s) (last_hovered_skin_slug s)
    (last_hover_written s) (processed_action_ids s).

Definition set_last_hovered_skin_id (v : option Z) (s : SharedState) : SharedState :=
  State (phase s) (hovered_champ_id s) (locked_champ_id s) (local_cell_id s)
    (players_visible s) (locks_by_cell s) (all_locked_announced s)
    (loadout_countdown_active s) (loadout_left0_ms s) (loadout_t0 s) (ticker_seq s)
    (current_ticker s) (last_hovered_skin_key s) v (last_hovered_skin_slug s)
    (last_hover_written s) (processed_action_ids s).

Definition set_last_hovered_skin_slug (v : option string) (s : SharedState) : SharedState :=
  State (phase s) (hovered_champ_id s) (locked_champ_id s) (local_cell_id s)
    (players_visible s) (locks_by_cell s) (all_locked_announced s)
    (loadout_countdown_active s) (loadout_left0_ms s) (loadout_t0 s) (ticker_seq s)
    (current_ticker s) (last_hovered_skin_key s) (last_hovered_skin_id s) v
    (last_hover_written s) (processed_action_ids s).

Definition set_last_hover_written (v : bool) (s : SharedState) : SharedState :=
  State (phase s) (hovered_champ_id s) (locked_champ_id s) (local_cell_id s)
    (players_visible s) (locks_by_cell s) (all_locked_announced s)
    (loadout_countdown_active s) (loadout_left0_ms s) (loadout_t0 s) (ticker_seq s)
    (current_ticker s) (last_hovered_skin_key s) (last_hovered_skin_id s)
    (last_hovered_skin_slug s) v (processed_action_ids s).

Definition set_processed_action_ids (v : gset Z) (s : SharedState) : SharedState :=
  State (phase s) (hovered_champ_id s) (locked_champ_id s) (local_cell_id s)
    (players_visible s) (locks_by_cell s) (all_locked_announced s)
    (loadout_countdown_active s) (loadout_left0_ms s) (loadout_t0 s) (ticker_seq s)
    (current_ticker s) (last_hovered_skin_key s) (last_hovered_skin_id s)
    (last_hovered_skin_slug s) (last_hover_written s) v.

(** The fields of the countdown epoch, which the thread shares with the
    ticker and guards with [timer_lock]. *)
Inductive epoch_field :=
| FActive                      (* loadout_countdown_active *)
| FLeft0                       (* loadout_left0_ms *)
| FT0                          (* loadout_t0 *)
| FSeq                         (* ticker_seq *)
| FCurrent.                    (* current_ticker *)

(** What the thread writes to the log and does to the outside, in program
    order, and with it every read and write of a field of the countdown
    epoch.  The lock lines carry the slot the loop is at in front of what the
    line prints. *)
Inductive label :=
| Name (s : string)            (* a name found in db.champ_name_by_id *)
| ChampFallback (cid : Z)      (* f"champ_{cid}" *)
| Hash (ch : Z).               (* f"#{ch}" *)

Inductive event :=
| LogPhase (ph : string)
| LogHover (nm : label) (cid : Z)
| LogPlayers (n : Z)
| LogLockPlus (cid : Z) (lbl : label) (locked visible : Z)
| LogLockChamp (lbl : label) (ch : Z)
| LogLockMinus (cid : Z) (lbl : label) (locked visible : Z)
| LogAllLocked (locked total : Z)
| LogLoadoutStart (id : option Z) (mode : string) (left_ms hz : Z)
| Poll                          (* self.lcu.session() *)
| Sleep60                       (* time.sleep(0.06) *)
| AcquireTimerLock              (* entering `with self.state.timer_lock` *)
| ReleaseTimerLock              (* leaving it *)
| TickerStart (id : option Z) (mode : string)
| ReadEpoch (f : epoch_field)   (* self.state.<f> is read *)
| WriteEpoch (f : epoch_field). (* self.state.<f> = ... *)

(** Modelled from the spec: [threads/loadout_ticker.py] is not among the
    sources.  Of a [LoadoutTicker] the thread keeps the handle; whether it is
    still alive is for the world to say. *)
Record LoadoutTicker := Ticker {
  ticker_id : option Z;
  ticker_mode : string
}.

(** The thread object: [self.state], [self.lcu], [self.ticker], and the trace. *)
Record thread := Thread {
  state : SharedState;
  conn : LCU.conn;
  ticker : option LoadoutTicker;
  trace : list event
}.

(** What the thread is constructed with and runs against.  [compute_locked]
    stands for [lcu.utils.compute_locked], which is not among the sources. *)
Record env := Env {
  world : LCU.world;
  monotonic_at : nat -> Z;                 (* time.monotonic() *)
  is_alive_at : nat -> bool;               (* self.ticker.is_alive() *)
  compute_locked : session -> gmap Z Z;
  db : NameDB.t;                           (* self.db *)
  timer_hz : Z;
  fallback_ms : Z
}.

(** A decoded event payload: [payload.get("uri")] and [payload.get("data")]. *)
Record payload := Payload {
  uri : option string;
  data : jdata
}.

(** How a function ends. *)
Inductive ending := Normal | Exception.

Definition upd (f : SharedState -> SharedState) (th : thread) : thread :=
  Thread (f (state th)) (conn th) (ticker th) (trace th).

Definition say (e : event) (th : thread) : thread :=
  Thread (state th) (conn th) (ticker th) (trace th ++ [e]).

Definition with_conn (c : LCU.conn) (th : thread) : thread :=
  Thread (state th) c (ticker th) (trace th).

Definition with_ticker (t : option LoadoutTicker) (th : thread) : thread :=
  Thread (state th) (conn th) t (trace th).

(** A read and a write of a field of the countdown epoch. *)
Definition read_epoch (f : epoch_field) (th : thread) : thread := say (ReadEpoch f) th.

Definition write_epoch (f : epoch_field) (set : SharedState -> SharedState) (th : thread)
  : thread :=
  say (WriteEpoch f) (upd set th).

(** The characters outside ASCII that [str.upper()] changes, each with the
    characters it becomes (Unicode 14.0, as in CPython 3.11). *)
Definition upper_table : list (Z * list Z) :=
  [
   (181, [924]); (223, [83; 83]); (224, [192]); (225, [193]); (226, [194]); (227, [195]);
   (228, [196]); (229, [197]); (230, [198]); (231, [199]); (232, [200]); (233, [201]);
   (234, [202]); (235, [203]); (236, [204]); (237, [205]); (238, [206]); (239, [207]);
   (240, [208]); (241, [209]); (242, [210]); (243, [211]); (244, [212]); (245, [213]);
   (246, [214]); (248, [216]); (249, [217]); (250, [218]); (251, [219]); (252, [220]);
   (253, [221]); (254, [222]); (255, [376]); (257, [256]); (259, [258]); (261, [260]);
   (263, [262]); (265, [264]); (267, [266]); (269, [268]); (271, [270]); (273, [272]);
   (275, [274]); (277, [276]); (279, [278]); (281, [280]); (283, [282]); (285, [284]);
   (287, [286]); (289, [288]); (291, [290]); (293, [292]); (295, [294]); (297, [296]);
   (299, [298]); (301, [300]); (303, [302]); (305, [73]); (307, [306]); (309, [308]);
   (311, [310]); (314, [313]); (316, [315]); (318, [317]); (320, [319]); (322, [321]);
   (324, [323]); (326, [325]); (328, [327]); (329, [700; 78]); (331, [330]); (333, [332]);
   (335, [334]); (337, [336]); (339, [338]); (341, [340]); (343, [342]); (345, [344]);
   (347, [346]); (349, [348]); (351, [350]); (353, [352]); (355, [354]); (357, [356]);
   (359, [358]); (361, [360]); (363, [362]); (365, [364]); (367, [366]); (369, [368]);
   (371, [370]); (373, [372]); (375, [374]); (378, [377]); (380, [379]); (382, [381]);
   (383, [83]); (384, [579]); (387, [386]); (389, [388]); (392, [391]); (396, [395]);
   (402, [401]); (405, [502]); (409, [408]); (410, [573]); (414, [544]); (417, [416]);
   (419, [418]); (421, [420]); (424, [423]); (429, [428]); (432, [431]); (436, [435]);
   (438, [437]); (441, [440]); (445, [444]); (447, [503]); (453, [452]); (454, [452]);
   (456, [455]); (457, [455]); (459, [458]); (460, [458]); (462, [461]); (464, [463]);
   (466, [465]); (468, [467]); (470, [469]); (472, [471]); (474, [473]); (476, [475]);
   (477, [398]); (479, [478]); (481, [480]); (483, [482]); (485, [484]); (487, [486]);
   (489, [488]); (491, [490]); (493, [492]); (495, [494]); (496, [74; 780]); (498, [497]);
   (499, [497]); (501, [500]); (505, [504]); (507, [506]); (509, [508]); (511, [510]);
   (513, [512]); (515, [514]); (517, [516]); (519, [518]); (521, [520]); (523, [522]);
   (525, [524]); (527, [526]); (529, [528]); (531, [530]); (533, [532]); (535, [534]);
   (537, [536]); (539, [538]); (541, [540]); (543, [542]); (547, [546]); (549, [548]);
   (551, [550]); (553, [552]); (555, [554]); (557, [556]); (559, [558]); (561, [560]);
   (563, [562]); (572, [571]); (575, [11390]); (576, [11391]); (578, [577]); (583, [582]);
   (585, [584]); (587, [586]); (589, [588]); (591, [590]); (592, [11375]); (593, [11373]);
   (594, [11376]); (595, [385]); (596, [390]); (598, [393]); (599, [394]); (601, [399]);
   (603, [400]); (604, [42923]); (608, [403]); (609, [42924]); (611, [404]); (613, [42893]);
   (614, [42922]); (616, [407]); (617, [406]); (618, [42926]); (619, [11362]); (620, [42925]);
   (623, [412]); (625, [11374]); (626, [413]); (629, [415]); (637, [11364]); (640, [422]);
   (642, [42949]); (643, [425]); (647, [42929]); (648, [430]); (649, [580]); (650, [433]);
   (651, [434]); (652, [581]); (658, [439]); (669, [42930]); (670, [42928]); (837, [921]);
   (881, [880]); (883, [882]); (887, [886]); (891, [1021]); (892, [1022]); (893, [1023]);
   (912, [921; 776; 769]); (940, [902]); (941, [904]); (942, [905]); (943, [906]);
   (944, [933; 776; 769]); (945, [913]); (946, [914]); (947, [915]); (948, [916]);
   (949, [917]); (950, [918]); (951, [919]); (952, [920]); (953, [921]); (954, [922]);
   (955, [923]); (956, [924]); (957, [925]); (958, [926]); (959, [927]); (960, [928]);
   (961, [929]); (962, [931]); (963, [931]); (964, [932]); (965, [933]); (966, [934]);
   (967, [935]); (968, [936]); (969, [937]); (970, [938]); (971, [939]); (972, [908]);
   (973, [910]); (974, [911]); (976, [914]); (977, [920]); (981, [934]); (982, [928]);
   (983, [975]); (985, [984]); (987, [986]); (989, [988]); (991, [990]); (993, [992]);
   (995, [994]); (997, [996]); (999, [998]); (1001, [1000]); (1003, [1002]); (1005, [1004]);
   (1007, [1006]); (1008, [922]); (1009, [929]); (1010, [1017]); (1011, [895]); (1013, [917]);
   (1016, [1015]); (1019, [1018]); (1072, [1040]); (1073, [1041]); (1074, [1042]);
   (1075, [1043]); (1076, [1044]); (1077, [1045]); (1078, [1046]); (1079, [1047]);
   (1080, [1048]); (1081, [1049]); (1082, [1050]); (1083, [1051]); (1084, [1052]);
   (1085, [1053]); (1086, [1054]); (1087, [1055]); (1088, [1056]); (1089, [1057]);
   (1090, [1058]); (1091, [1059]); (1092, [1060]); (1093, [1061]); (1094, [1062]);
   (1095, [1063]); (1096, [1064]); (1097, [1065]); (1098, [1066]); (1099, [1067]);
   (1100, [1068]); (1101, [1069]); (1102, [1070]); (1103, [1071]); (1104, [1024]);
   (1105, [1025]); (1106, [1026]); (1107, [1027]); (1108, [1028]); (1109, [1029]);
   (1110, [1030]); (1111, [1031]); (1112, [1032]); (1113, [1033]); (1114, [1034]);
   (1115, [1035]); (1116, [1036]); (1117, [1037]); (1118, [1038]); (1119, [1039]);
   (1121, [1120]); (1123, [1122]); (1125, [1124]); (1127, [1126]); (1129, [1128]);
   (1131, [1130]); (1133, [1132]); (1135, [1134]); (1137, [1136]); (1139, [1138]);
   (1141, [1140]); (1143, [1142]); (1145, [1144]); (1147, [1146]); (1149, [1148]);
   (1151, [1150]); (1153, [1152]); (1163, [1162]); (1165, [1164]); (1167, [1166]);
   (1169, [1168]); (1171, [1170]); (1173, [1172]); (1175, [1174]); (1177, [1176]);
   (1179, [1178]); (1181, [1180]); (1183, [1182]); (1185, [1184]); (1187, [1186]);
   (1189, [1188]); (1191, [1190]); (1193, [1192]); (1195, [1194]); (1197, [1196]);
   (1199, [1198]); (1201, [1200]); (1203, [1202]); (1205, [1204]); (1207, [1206]);
   (1209, [1208]); (1211, [1210]); (1213, [1212]); (1215, [1214]); (1218, [1217]);
   (1220, [1219]); (1222, [1221]); (1224, [1223]); (1226, [1225]); (1228, [1227]);
   (1230, [1229]); (1231, [1216]); (1233, [1232]); (1235, [1234]); (1237, [1236]);
   (1239, [1238]); (1241, [1240]); (1243, [1242]); (1245, [1244]); (1247, [1246]);
   (1249, [1248]); (1251, [1250]); (1253, [1252]); (1255, [1254]); (1257, [1256]);
   (1259, [1258]); (1261, [1260]); (1263, [1262]); (1265, [1264]); (1267, [1266]);
   (1269, [1268]); (1271, [1270]); (1273, [1272]); (1275, [1274]); (1277, [1276]);
   (1279, [1278]); (1281, [1280]); (1283, [1282]); (1285, [1284]); (1287, [1286]);
   (1289, [1288]); (1291, [1290]); (1293, [1292]); (1295, [1294]); (1297, [1296]);
   (1299, [1298]); (1301, [1300]); (1303, [1302]); (1305, [1304]); (1307, [1306]);
   (1309, [1308]); (1311, [1310]); (1313, [1312]); (1315, [1314]); (1317, [1316]);
   (1319, [1318]); (1321, [1320]); (1323, [1322]); (1325, [1324]); (1327, [1326]);
   (1377, [1329]); (1378, [1330]); (1379, [1331]); (1380, [1332]); (1381, [1333]);
   (1382, [1334]); (1383, [1335]); (1384, [1336]); (1385, [1337]); (1386, [1338]);
   (1387, [1339]); (1388, [1340]); (1389, [1341]); (1390, [1342]); (1391, [1343]);
   (1392, [1344]); (1393, [1345]); (1394, [1346]); (1395, [1347]); (1396, [1348]);
   (1397, [1349]); (1398, [1350]); (1399, [1351]); (1400, [1352]); (1401, [1353]);
   (1402, [1354]); (1403, [1355]); (1404, [1356]); (1405, [1357]); (1406, [1358]);
   (1407, [1359]); (1408, [1360]); (1409, [1361]); (1410, [1362]); (1411, [1363]);
   (1412, [1364]); (1413, [1365]); (1414, [1366]); (1415, [1333; 1362]); (4304, [7312]);
   (4305, [7313]); (4306, [7314]); (4307, [7315]); (4308, [7316]); (4309, [7317]);
   (4310, [7318]); (4311, [7319]); (4312, [7320]); (4313, [7321]); (4314, [7322]);
   (4315, [7323]); (4316, [7324]); (4317, [7325]); (4318, [7326]); (4319, [7327]);
   (4320, [7328]); (4321, [7329]); (4322, [7330]); (4323, [7331]); (4324, [7332]);
   (4325, [7333]); (4326, [7334]); (4327, [7335]); (4328, [7336]); (4329, [7337]);
   (4330, [7338]); (4331, [7339]); (4332, [7340]); (4333, [7341]); (4334, [7342]);
   (4335, [7343]); (4336, [7344]); (4337, [7345]); (4338, [7346]); (4339, [7347]);
   (4340, [7348]); (4341, [7349]); (4342, [7350]); (4343, [7351]); (4344, [7352]);
   (4345, [7353]); (4346, [7354]); (4349, [7357]); (4350, [7358]); (4351, [7359]);
   (5112, [5104]); (5113, [5105]); (5114, [5106]); (5115, [5107]); (5116, [5108]);
   (5117, [5109]); (7296, [1042]); (7297, [1044]); (7298, [1054]); (7299, [1057]);
   (7300, [1058]); (7301, [1058]); (7302, [1066]); (7303, [1122]); (7304, [42570]);
   (7545, [42877]); (7549, [11363]); (7566, [42950]); (7681, [7680]); (7683, [7682]);
   (7685, [7684]); (7687, [7686]); (7689, [7688]); (7691, [7690]); (7693, [7692]);
   (7695, [7694]); (7697, [7696]); (7699, [7698]); (7701, [7700]); (7703, [7702]);
   (7705, [7704]); (7707, [7706]); (7709, [7708]); (7711, [7710]); (7713, [7712]);
   (7715, [7714]); (7717, [7716]); (7719, [7718]); (7721, [7720]); (7723, [7722]);
   (7725, [7724]); (7727, [7726]); (7729, [7728]); (7731, [7730]); (7733, [7732]);
   (7735, [7734]); (7737, [7736]); (7739, [7738]); (7741, [7740]); (7743, [7742]);
   (7745, [7744]); (7747, [7746]); (7749, [7748]); (7751, [7750]); (7753, [7752]);
   (7755, [7754]); (7757, [7756]); (7759, [7758]); (7761, [7760]); (7763, [7762]);
   (7765, [7764]); (7767, [7766]); (7769, [7768]); (7771, [7770]); (7773, [7772]);
   (7775, [7774]); (7777, [7776]); (7779, [7778]); (7781, [7780]); (7783, [7782]);
   (7785, [7784]); (7787, [7786]); (7789, [7788]); (7791, [7790]); (7793, [7792]);
   (7795, [7794]); (7797, [7796]); (7799, [7798]); (7801, [7800]); (7803, [7802]);
   (7805, [7804]); (7807, [7806]); (7809, [7808]); (7811, [7810]); (7813, [7812]);
   (7815, [7814]); (7817, [7816]); (7819, [7818]); (7821, [7820]); (7823, [7822]);
   (7825, [7824]); (7827, [7826]); (7829, [7828]); (7830, [72; 817]); (7831, [84; 776]);
   (7832, [87; 778]); (7833, [89; 778]); (7834, [65; 702]); (7835, [7776]); (7841, [7840]);
   (7843, [7842]); (7845, [7844]); (7847, [7846]); (7849, [7848]); (7851, [7850]);
   (7853, [7852]); (7855, [7854]); (7857, [7856]); (7859, [7858]); (7861, [7860]);
   (7863, [7862]); (7865, [7864]); (7867, [7866]); (7869, [7868]); (7871, [7870]);
   (7873, [7872]); (7875, [7874]); (7877, [7876]); (7879, [7878]); (7881, [7880]);
   (7883, [7882]); (7885, [7884]); (7887, [7886]); (7889, [7888]); (7891, [7890]);
   (7893, [7892]); (7895, [7894]); (7897, [7896]); (7899, [7898]); (7901, [7900]);
   (7903, [7902]); (7905, [7904]); (7907, [7906]); (7909, [7908]); (7911, [7910]);
   (7913, [7912]); (7915, [7914]); (7917, [7916]); (7919, [7918]); (7921, [7920]);
   (7923, [7922]); (7925, [7924]); (7927, [7926]); (7929, [7928]); (7931, [7930]);
   (7933, [7932]); (7935, [7934]); (7936, [7944]); (7937, [7945]); (7938, [7946]);
   (7939, [7947]); (7940, [7948]); (7941, [7949]); (7942, [7950]); (7943, [7951]);
   (7952, [7960]); (7953, [7961]); (7954, [7962]); (7955, [7963]); (7956, [7964]);
   (7957, [7965]); (7968, [7976]); (7969, [7977]); (7970, [7978]); (7971, [7979]);
   (7972, [7980]); (7973, [7981]); (7974, [7982]); (7975, [7983]); (7984, [7992]);
   (7985, [7993]); (7986, [7994]); (7987, [7995]); (7988, [7996]); (7989, [7997]);
   (7990, [7998]); (7991, [7999]); (8000, [8008]); (8001, [8009]); (8002, [8010]);
   (8003, [8011]); (8004, [8012]); (8005, [8013]); (8016, [933; 787]); (8017, [8025]);
   (8018, [933; 787; 768]); (8019, [8027]); (8020, [933; 787; 769]); (8021, [8029]);
   (8022, [933; 787; 834]); (8023, [8031]); (8032, [8040]); (8033, [8041]); (8034, [8042]);
   (8035, [8043]); (8036, [8044]); (8037, [8045]); (8038, [8046]); (8039, [8047]);
   (8048, [8122]); (8049, [8123]); (8050, [8136]); (8051, [8137]); (8052, [8138]);
   (8053, [8139]); (8054, [8154]); (8055, [8155]); (8056, [8184]); (8057, [8185]);
   (8058, [8170]); (8059, [8171]); (8060, [8186]); (8061, [8187]); (8064, [7944; 921]);
   (8065, [7945; 921]); (8066, [7946; 921]); (8067, [7947; 921]); (8068, [7948; 921]);
   (8069, [7949; 921]); (8070, [7950; 921]); (8071, [7951; 921]); (8072, [7944; 921]);
   (8073, [7945; 921]); (8074, [7946; 921]); (8075, [7947; 921]); (8076, [7948; 921]);
   (8077, [7949; 921]); (8078, [7950; 921]); (8079, [7951; 921]); (8080, [7976; 921]);
   (8081, [7977; 921]); (8082, [7978; 921]); (8083, [7979; 921]); (8084, [7980; 921]);
   (8085, [7981; 921]); (8086, [7982; 921]); (8087, [7983; 921]); (8088, [7976; 921]);
   (8089, [7977; 921]); (8090, [7978; 921]); (8091, [7979; 921]); (8092, [7980; 921]);
   (8093, [7981; 921]); (8094, [7982; 921]); (8095, [7983; 921]); (8096, [8040; 921]);
   (8097, [8041; 921]); (8098, [8042; 921]); (8099, [8043; 921]); (8100, [8044; 921]);
   (8101, [8045; 921]); (8102, [8046; 921]); (8103, [8047; 921]); (8104, [8040; 921]);
   (8105, [8041; 921]); (8106, [8042; 921]); (8107, [8043; 921]); (8108, [8044; 921]);
   (8109, [8045; 921]); (8110, [8046; 921]); (8111, [8047; 921]); (8112, [8120]);
   (8113, [8121]); (8114, [8122; 921]); (8115, [913; 921]); (8116, [902; 921]);
   (8118, [913; 834]); (8119, [913; 834; 921]); (8124, [913; 921]); (8126, [921]);
   (8130, [8138; 921]); (8131, [919; 921]); (8132, [905; 921]); (8134, [919; 834]);
   (8135, [919; 834; 921]); (8140, [919; 921]); (8144, [8152]); (8145, [8153]);
   (8146, [921; 776; 768]); (8147, [921; 776; 769]); (8150, [921; 834]);
   (8151, [921; 776; 834]); (8160, [8168]); (8161, [8169]); (8162, [933; 776; 768]);
   (8163, [933; 776; 769]); (8164, [929; 787]); (8165, [8172]); (8166, [933; 834]);
   (8167, [933; 776; 834]); (8178, [8186; 921]); (8179, [937; 921]); (8180, [911; 921]);
   (8182, [937; 834]); (8183, [937; 834; 921]); (8188, [937; 921]); (8526, [8498]);
   (8560, [8544]); (8561, [8545]); (8562, [8546]); (8563, [8547]); (8564, [8548]);
   (8565, [8549]); (8566, [8550]); (8567, [8551]); (8568, [8552]); (8569, [8553]);
   (8570, [8554]); (8571, [8555]); (8572, [8556]); (8573, [8557]); (8574, [8558]);
   (8575, [8559]); (8580, [8579]); (9424, [9398]); (9425, [9399]); (9426, [9400]);
   (9427, [9401]); (9428, [9402]); (9429, [9403]); (9430, [9404]); (9431, [9405]);
   (9432, [9406]); (9433, [9407]); (9434, [9408]); (9435, [9409]); (9436, [9410]);
   (9437, [9411]); (9438, [9412]); (9439, [9413]); (9440, [9414]); (9441, [9415]);
   (9442, [9416]); (9443, [9417]); (9444, [9418]); (9445, [9419]); (9446, [9420]);
   (9447, [9421]); (9448, [9422]); (9449, [9423]); (11312, [11264]); (11313, [11265]);
   (11314, [11266]); (11315, [11267]); (11316, [11268]); (11317, [11269]); (11318, [11270]);
   (11319, [11271]); (11320, [11272]); (11321, [11273]); (11322, [11274]); (11323, [11275]);
   (11324, [11276]); (11325, [11277]); (11326, [11278]); (11327, [11279]); (11328, [11280]);
   (11329, [11281]); (11330, [11282]); (11331, [11283]); (11332, [11284]); (11333, [11285]);
   (11334, [11286]); (11335, [11287]); (11336, [11288]); (11337, [11289]); (11338, [11290]);
   (11339, [11291]); (11340, [11292]); (11341, [11293]); (11342, [11294]); (11343, [11295]);
   (11344, [11296]); (11345, [11297]); (11346, [11298]); (11347, [11299]); (11348, [11300]);
   (11349, [11301]); (11350, [11302]); (11351, [11303]); (11352, [11304]); (11353, [11305]);
   (11354, [11306]); (11355, [11307]); (11356, [11308]); (11357, [11309]); (11358, [11310]);
   (11359, [11311]); (11361, [11360]); (11365, [570]); (11366, [574]); (11368, [11367]);
   (11370, [11369]); (11372, [11371]); (11379, [11378]); (11382, [11381]); (11393, [11392]);
   (11395, [11394]); (11397, [11396]); (11399, [11398]); (11401, [11400]); (11403, [11402]);
   (11405, [11404]); (11407, [11406]); (11409, [11408]); (11411, [11410]); (11413, [11412]);
   (11415, [11414]); (11417, [11416]); (11419, [11418]); (11421, [11420]); (11423, [11422]);
   (11425, [11424]); (11427, [11426]); (11429, [11428]); (11431, [11430]); (11433, [11432]);
   (11435, [11434]); (11437, [11436]); (11439, [11438]); (11441, [11440]); (11443, [11442]);
   (11445, [11444]); (11447, [11446]); (11449, [11448]); (11451, [11450]); (11453, [11452]);
   (11455, [11454]); (11457, [11456]); (11459, [11458]); (11461, [11460]); (11463, [11462]);
   (11465, [11464]); (11467, [11466]); (11469, [11468]); (11471, [11470]); (11473, [11472]);
   (11475, [11474]); (11477, [11476]); (11479, [11478]); (11481, [11480]); (11483, [11482]);
   (11485, [11484]); (11487, [11486]); (11489, [11488]); (11491, [11490]); (11500, [11499]);
   (11502, [11501]); (11507, [11506]); (11520, [4256]); (11521, [4257]); (11522, [4258]);
   (11523, [4259]); (11524, [4260]); (11525, [4261]); (11526, [4262]); (11527, [4263]);
   (11528, [4264]); (11529, [4265]); (11530, [4266]); (11531, [4267]); (11532, [4268]);
   (11533, [4269]); (11534, [4270]); (11535, [4271]); (11536, [4272]); (11537, [4273]);
   (11538, [4274]); (11539, [4275]); (11540, [4276]); (11541, [4277]); (11542, [4278]);
   (11543, [4279]); (11544, [4280]); (11545, [4281]); (11546, [4282]); (11547, [4283]);
   (11548, [4284]); (11549, [4285]); (11550, [4286]); (11551, [4287]); (11552, [4288]);
   (11553, [4289]); (11554, [4290]); (11555, [4291]); (11556, [4292]); (11557, [4293]);
   (11559, [4295]); (11565, [4301]); (42561, [42560]); (42563, [42562]); (42565, [42564]);
   (42567, [42566]); (42569, [42568]); (42571, [42570]); (42573, [42572]); (42575, [42574]);
   (42577, [42576]); (42579, [42578]); (42581, [42580]); (42583, [42582]); (42585, [42584]);
   (42587, [42586]); (42589, [42588]); (42591, [42590]); (42593, [42592]); (42595, [42594]);
   (42597, [42596]); (42599, [42598]); (42601, [42600]); (42603, [42602]); (42605, [42604]);
   (42625, [42624]); (42627, [42626]); (42629, [42628]); (42631, [42630]); (42633, [42632]);
   (42635, [42634]); (42637, [42636]); (42639, [42638]); (42641, [42640]); (42643, [42642]);
   (42645, [42644]); (42647, [42646]); (42649, [42648]); (42651, [42650]); (42787, [42786]);
   (42789, [42788]); (42791, [42790]); (42793, [42792]); (42795, [42794]); (42797, [42796]);
   (42799, [42798]); (42803, [42802]); (42805, [42804]); (42807, [42806]); (42809, [42808]);
   (42811, [42810]); (42813, [42812]); (42815, [42814]); (42817, [42816]); (42819, [42818]);
   (42821, [42820]); (42823, [42822]); (42825, [42824]); (42827, [42826]); (42829, [42828]);
   (42831, [42830]); (42833, [42832]); (42835, [42834]); (42837, [42836]); (42839, [42838]);
   (42841, [42840]); (42843, [42842]); (42845, [42844]); (42847, [42846]); (42849, [42848]);
   (42851, [42850]); (42853, [42852]); (42855, [42854]); (42857, [42856]); (42859, [42858]);
   (42861, [42860]); (42863, [42862]); (42874, [42873]); (42876, [42875]); (42879, [42878]);
   (42881, [42880]); (42883, [42882]); (42885, [42884]); (42887, [42886]); (42892, [42891]);
   (42897, [42896]); (42899, [42898]); (42900, [42948]); (42903, [42902]); (42905, [42904]);
   (42907, [42906]); (42909, [42908]); (42911, [42910]); (42913, [42912]); (42915, [42914]);
   (42917, [42916]); (42919, [42918]); (42921, [42920]); (42933, [42932]); (42935, [42934]);
   (42937, [42936]); (42939, [42938]); (42941, [42940]); (42943, [42942]); (42945, [42944]);
   (42947, [42946]); (42952, [42951]); (42954, [42953]); (42961, [42960]); (42967, [42966]);
   (42969, [42968]); (42998, [42997]); (43859, [42931]); (43888, [5024]); (43889, [5025]);
   (43890, [5026]); (43891, [5027]); (43892, [5028]); (43893, [5029]); (43894, [5030]);
   (43895, [5031]); (43896, [5032]); (43897, [5033]); (43898, [5034]); (43899, [5035]);
   (43900, [5036]); (43901, [5037]); (43902, [5038]); (43903, [5039]); (43904, [5040]);
   (43905, [5041]); (43906, [5042]); (43907, [5043]); (43908, [5044]); (43909, [5045]);
   (43910, [5046]); (43911, [5047]); (43912, [5048]); (43913, [5049]); (43914, [5050]);
   (43915, [5051]); (43916, [5052]); (43917, [5053]); (43918, [5054]); (43919, [5055]);
   (43920, [5056]); (43921, [5057]); (43922, [5058]); (43923, [5059]); (43924, [5060]);
   (43925, [5061]); (43926, [5062]); (43927, [5063]); (43928, [5064]); (43929, [5065]);
   (43930, [5066]); (43931, [5067]); (43932, [5068]); (43933, [5069]); (43934, [5070]);
   (43935, [5071]); (43936, [5072]); (43937, [5073]); (43938, [5074]); (43939, [5075]);
   (43940, [5076]); (43941, [5077]); (43942, [5078]); (43943, [5079]); (43944, [5080]);
   (43945, [5081]); (43946, [5082]); (43947, [5083]); (43948, [5084]); (43949, [5085]);
   (43950, [5086]); (43951, [5087]); (43952, [5088]); (43953, [5089]); (43954, [5090]);
   (43955, [5091]); (43956, [5092]); (43957, [5093]); (43958, [5094]); (43959, [5095]);
   (43960, [5096]); (43961, [5097]); (43962, [5098]); (43963, [5099]); (43964, [5100]);
   (43965, [5101]); (43966, [5102]); (43967, [5103]); (64256, [70; 70]); (64257, [70; 73]);
   (64258, [70; 76]); (64259, [70; 70; 73]); (64260, [70; 70; 76]); (64261, [83; 84]);
   (64262, [83; 84]); (64275, [1348; 1350]); (64276, [1348; 1333]); (64277, [1348; 1339]);
   (64278, [1358; 1350]); (64279, [1348; 1341]); (65345, [65313]); (65346, [65314]);
   (65347, [65315]); (65348, [65316]); (65349, [65317]); (65350, [65318]); (65351, [65319]);
   (65352, [65320]); (65353, [65321]); (65354, [65322]); (65355, [65323]); (65356, [65324]);
   (65357, [65325]); (65358, [65326]); (65359, [65327]); (65360, [65328]); (65361, [65329]);
   (65362, [65330]); (65363, [65331]); (65364, [65332]); (65365, [65333]); (65366, [65334]);
   (65367, [65335]); (65368, [65336]); (65369, [65337]); (65370, [65338]); (66600, [66560]);
   (66601, [66561]); (66602, [66562]); (66603, [66563]); (66604, [66564]); (66605, [66565]);
   (66606, [66566]); (66607, [66567]); (66608, [66568]); (66609, [66569]); (66610, [66570]);
   (66611, [66571]); (66612, [66572]); (66613, [66573]); (66614, [66574]); (66615, [66575]);
   (66616, [66576]); (66617, [66577]); (66618, [66578]); (66619, [66579]); (66620, [66580]);
   (66621, [66581]); (66622, [66582]); (66623, [66583]); (66624, [66584]); (66625, [66585]);
   (66626, [66586]); (66627, [66587]); (66628, [66588]); (66629, [66589]); (66630, [66590]);
   (66631, [66591]); (66632, [66592]); (66633, [66593]); (66634, [66594]); (66635, [66595]);
   (66636, [66596]); (66637, [66597]); (66638, [66598]); (66639, [66599]); (66776, [66736]);
   (66777, [66737]); (66778, [66738]); (66779, [66739]); (66780, [66740]); (66781, [66741]);
   (66782, [66742]); (66783, [66743]); (66784, [66744]); (66785, [66745]); (66786, [66746]);
   (66787, [66747]); (66788, [66748]); (66789, [66749]); (66790, [66750]); (66791, [66751]);
   (66792, [66752]); (66793, [66753]); (66794, [66754]); (66795, [66755]); (66796, [66756]);
   (66797, [66757]); (66798, [66758]); (66799, [66759]); (66800, [66760]); (66801, [66761]);
   (66802, [66762]); (66803, [66763]); (66804, [66764]); (66805, [66765]); (66806, [66766]);
   (66807, [66767]); (66808, [66768]); (66809, [66769]); (66810, [66770]); (66811, [66771]);
   (66967, [66928]); (66968, [66929]); (66969, [66930]); (66970, [66931]); (66971, [66932]);
   (66972, [66933]); (66973, [66934]); (66974, [66935]); (66975, [66936]); (66976, [66937]);
   (66977, [66938]); (66979, [66940]); (66980, [66941]); (66981, [66942]); (66982, [66943]);
   (66983, [66944]); (66984, [66945]); (66985, [66946]); (66986, [66947]); (66987, [66948]);
   (66988, [66949]); (66989, [66950]); (66990, [66951]); (66991, [66952]); (66992, [66953]);
   (66993, [66954]); (66995, [66956]); (66996, [66957]); (66997, [66958]); (66998, [66959]);
   (66999, [66960]); (67000, [66961]); (67001, [66962]); (67003, [66964]); (67004, [66965]);
   (68800, [68736]); (68801, [68737]); (68802, [68738]); (68803, [68739]); (68804, [68740]);
   (68805, [68741]); (68806, [68742]); (68807, [68743]); (68808, [68744]); (68809, [68745]);
   (68810, [68746]); (68811, [68747]); (68812, [68748]); (68813, [68749]); (68814, [68750]);
   (68815, [68751]); (68816, [68752]); (68817, [68753]); (68818, [68754]); (68819, [68755]);
   (68820, [68756]); (68821, [68757]); (68822, [68758]); (68823, [68759]); (68824, [68760]);
   (68825, [68761]); (68826, [68762]); (68827, [68763]); (68828, [68764]); (68829, [68765]);
   (68830, [68766]); (68831, [68767]); (68832, [68768]); (68833, [68769]); (68834, [68770]);
   (68835, [68771]); (68836, [68772]); (68837, [68773]); (68838, [68774]); (68839, [68775]);
   (68840, [68776]); (68841, [68777]); (68842, [68778]); (68843, [68779]); (68844, [68780]);
   (68845, [68781]); (68846, [68782]); (68847, [68783]); (68848, [68784]); (68849, [68785]);
   (68850, [68786]); (71872, [71840]); (71873, [71841]); (71874, [71842]); (71875, [71843]);
   (71876, [71844]); (71877, [71845]); (71878, [71846]); (71879, [71847]); (71880, [71848]);
   (71881, [71849]); (71882, [71850]); (71883, [71851]); (71884, [71852]); (71885, [71853]);
   (71886, [71854]); (71887, [71855]); (71888, [71856]); (71889, [71857]); (71890, [71858]);
   (71891, [71859]); (71892, [71860]); (71893, [71861]); (71894, [71862]); (71895, [71863]);
   (71896, [71864]); (71897, [71865]); (71898, [71866]); (71899, [71867]); (71900, [71868]);
   (71901, [71869]); (71902, [71870]); (71903, [71871]); (93792, [93760]); (93793, [93761]);
   (93794, [93762]); (93795, [93763]); (93796, [93764]); (93797, [93765]); (93798, [93766]);
   (93799, [93767]); (93800, [93768]); (93801, [93769]); (93802, [93770]); (93803, [93771]);
   (93804, [93772]); (93805, [93773]); (93806, [93774]); (93807, [93775]); (93808, [93776]);
   (93809, [93777]); (93810, [93778]); (93811, [93779]); (93812, [93780]); (93813, [93781]);
   (93814, [93782]); (93815, [93783]); (93816, [93784]); (93817, [93785]); (93818, [93786]);
   (93819, [93787]); (93820, [93788]); (93821, [93789]); (93822, [93790]); (93823, [93791]);
   (125218, [125184]); (125219, [125185]); (125220, [125186]); (125221, [125187]);
   (125222, [125188]); (125223, [125189]); (125224, [125190]); (125225, [125191]);
   (125226, [125192]); (125227, [125193]); (125228, [125194]); (125229, [125195]);
   (125230, [125196]); (125231, [125197]); (125232, [125198]); (125233, [125199]);
   (125234, [125200]); (125235, [125201]); (125236, [125202]); (125237, [125203]);
   (125238, [125204]); (125239, [125205]); (125240, [125206]); (125241, [125207]);
   (125242, [125208]); (125243, [125209]); (125244, [125210]); (125245, [125211]);
   (125246, [125212]); (125247, [125213]); (125248, [125214]); (125249, [125215]);
   (125250, [125216]); (125251, [125217])
  ].

Definition upper_char (c : string) : string :=
  let p := LCU.code_point c in
  if (97 <=? p) && (p <=? 122) then LCU.utf8 (p - 32)
  else if p <? 128 then c
  else match List.find (fun e => fst e =? p) upper_table with
       | Some (_, l) => LCU.join (LCU.utf8 <$> l)
       | None => c
       end.

(** [s.upper()]: character by character. *)
Definition upper (s : string) : string := LCU.join (upper_char <$> LCU.chars s).

(** [bool(v)] of a value that is no object. *)
Definition truthy (v : jdata) : bool :=
  match v with
  | JNull | JEmptyList => false
  | JStr s => negb (bool_decide (s = ""))
  | JInt z => negb (z =? 0)
  | JBool b => b
  | JFloat x => float_truthy x
  | JSession _ | JOther => true
  end.

(** [x or {}] followed by [.get]: [None] when [.get] raises [AttributeError]. *)
Definition as_session (v : jdata) : option session :=
  match v with
  | JSession s => Some s
  | _ => if truthy v then None else Some empty_session
  end.

(** [str((t.get("phase") or "")).upper()] for [t = sess.get("timer") or {}]. *)
Definition phase_timer_of (sess : session) : string :=
  upper (default "" (timer sess ≫= timer_phase)).

(** [int(t.get("adjustedTimeLeftInPhase") or 0)]. *)
Definition left_ms_of (sess : session) : Z :=
  default 0 (timer sess ≫= adjustedTimeLeftInPhase).

(** The loop [for _ in range(8)] with [n] rounds left.  Returns the last value
    of [left_ms]; [None] when a round raises. *)
Fixpoint probe (E : env) (n : nat) (left_ms : Z) (th : thread) : option Z * thread :=
  match n with
  | O => (Some left_ms, th)
  | S n' =>
      let '(v, c) := LCU.session (world E) (conn th) in
      let th := with_conn c (say Poll th) in
      match as_session v with
      | None => (None, th)
      | Some s2 =>
          let left_ms := left_ms_of s2 in
          if 0 <? left_ms then (Some left_ms, th)
          else probe E n' left_ms (say Sleep60 th)
      end
  end.

(** [ticker_seq or 0]. *)
Definition seq_value (o : option Z) : Z := default 0 o.

(** The mode that the log line and the ticker are given. *)
Definition arm_mode (phase_timer : string) (left_ms : Z) : string :=
  if bool_decide (phase_timer = "FINALIZATION") && (0 <? left_ms)
  then "finalization" else "lcu-probe".

(** The writes of the epoch fields under [if not
    self.state.loadout_countdown_active:], in three parts: the anchor sample
    and the anchor instant, *)
Definition stamp_epoch (E : env) (left_ms : Z) (th : thread) : thread :=
  let th := write_epoch FLeft0 (set_loadout_left0_ms left_ms) th in
  let now := monotonic_at E (LCU.tick (conn th)) in
  write_epoch FT0 (set_loadout_t0 now) (with_conn (LCU.next (conn th)) th).

(** the sequence number and the current ticker, *)
Definition next_seq (th : thread) : thread :=
  let th := read_epoch FSeq th in
  let th := write_epoch FSeq (set_ticker_seq (Some (seq_value (ticker_seq (state th)) + 1)))
              th in
  let th := read_epoch FSeq th in
  write_epoch FCurrent (set_current_ticker (ticker_seq (state th))) th.

(** and the active flag. *)
Definition new_epoch (E : env) (left_ms : Z) (th : thread) : thread :=
  write_epoch FActive (set_loadout_countdown_active true)
    (next_seq (stamp_epoch E left_ms th)).

(** The log line, and the ticker if none is alive. *)
Definition start_ticker (E : env) (mode : string) (left_ms : Z) (th : thread) : thread :=
  let th := read_epoch FCurrent th in
  let th := say (LogLoadoutStart (current_ticker (state th)) mode left_ms (timer_hz E)) th in
  let alive :=
    match ticker th with
    | None => false
    | Some _ => is_alive_at E (LCU.tick (conn th))
    end in
  if alive then th
  else
    let th := read_epoch FCurrent th in
    let t := Ticker (current_ticker (state th)) mode in
    say (TickerStart (ticker_id t) mode) (with_ticker (Some t) th).

(** The block under [if should_start:]. *)
Definition arm (E : env) (phase_timer : string) (left_ms : Z) (th : thread) : thread :=
  let th := say AcquireTimerLock th in
  let th := read_epoch FActive th in
  let th :=
    if loadout_countdown_active (state th) then th
    else start_ticker E (arm_mode phase_timer left_ms) left_ms (new_epoch E left_ms th)
  in
  say ReleaseTimerLock th.

(** The first half of [_maybe_start_timer]: the values of [should_start] and
    [left_ms] when the [if should_start:] is reached; [None] when the probe
    raises. *)
Definition should_start_of (E : env) (sess : session) (th : thread)
  : option (bool * Z) * thread :=
  let phase_timer := phase_timer_of sess in
  let left_ms := left_ms_of sess in
  let total := players_visible (state th) in
  let locked_count := Z.of_nat (size (locks_by_cell (state th))) in
  if bool_decide (phase_timer = "FINALIZATION") && (0 <? left_ms) then
    (Some (true, left_ms), th)
  else if (0 <? total) && (total <=? locked_count) then
    let '(r, th) :=
      if left_ms <=? 0 then probe E 8 left_ms th else (Some left_ms, th) in
    match r with
    | None => (None, th)
    | Some left_ms => (Some (0 <? left_ms, left_ms), th)
    end
  else (Some (false, left_ms), th).

Definition _maybe_start_timer (E : env) (sess : session) (th : thread)
  : thread * ending :=
  match should_start_of E sess th with
  | (None, th) => (th, Exception)
  | (Some (should_start, left_ms), th) =>
      if should_start then (arm E (phase_timer_of sess) left_ms th, Normal)
      else (th, Normal)
  end.

(** The slot ids of a roster or of a round of actions, added to [seen]. *)
Definition add_cells {A} (cell : A -> option Z) (l : list A) (seen : gset Z) : gset Z :=
  foldl (fun seen p => match cell p with
                       | Some cid => {[cid]} ∪ seen
                       | None => seen
                       end) seen l.

Definition visible_cells (sess : session) : gset Z :=
  let seen := add_cells cellId (theirTeam sess) (add_cells cellId (myTeam sess) ∅) in
  if bool_decide (seen = ∅) then
    foldl (fun seen rnd => add_cells actorCellId rnd seen) seen (actions sess)
  else seen.

(** [sorted(list(a - b))]. *)
Definition sorted_difference (a b : gset Z) : list Z :=
  merge_sort Z.le (elements (a ∖ b)).

Definition lock_label (E : env) (ch : Z) : label :=
  match NameDB.champ_name (db E) ch with
  | Some nm => Name nm
  | None => Hash ch
  end.

(** The body of [for cid in added].  [new_locks[cid]] is there, [cid] being
    one of its keys. *)
Definition on_added (E : env) (new_locks : gmap Z Z) (curr : gset Z)
    (th : thread) (cid : Z) : thread :=
  match new_locks !! cid with
  | None => th
  | Some ch =>
      let champ_label := lock_label E ch in
      let th := say (LogLockPlus cid champ_label (Z.of_nat (size curr))
                       (players_visible (state th))) th in
      match local_cell_id (state th) with
      | Some me =>
          if cid =? me
          then upd (set_locked_champ_id (Some ch)) (say (LogLockChamp champ_label ch) th)
          else th
      | None => th
      end
  end.

(** The body of [for cid in removed]. *)
Definition on_removed (E : env) (curr : gset Z) (th : thread) (cid : Z) : thread :=
  let ch := default 0 (locks_by_cell (state th) !! cid) in
  say (LogLockMinus cid (lock_label E ch) (Z.of_nat (size curr))
         (players_visible (state th))) th.

(** The branch of [_handle_api_event] for "/lol-champ-select/v1/session",
    one definition for each of its commented parts.  First the local slot and
    the visible players (distinct cellIds). *)
Definition derive_players (sess : session) (th : thread) : thread :=
  let th := upd (set_local_cell_id
                   (match localPlayerCellId sess with
                    | Some v => v
                    | None => local_cell_id (state th)
                    end)) th in
  let count_visible := Z.of_nat (size (visible_cells sess)) in
  if negb (count_visible =? players_visible (state th)) && (0 <? count_visible)
  then say (LogPlayers count_visible) (upd (set_players_visible count_visible) th)
  else th.

(** Lock counter: diff cellId -> championId. *)
Definition derive_locks (E : env) (sess : session) (th : thread) : thread :=
  let new_locks := compute_locked E sess in
  let prev_cells := dom (locks_by_cell (state th)) in
  let curr_cells := dom new_locks in
  let added := sorted_difference curr_cells prev_cells in
  let removed := sorted_difference prev_cells curr_cells in
  let th := foldl (on_added E new_locks curr_cells) th added in
  let th := foldl (on_removed E curr_cells) th removed in
  upd (set_locks_by_cell new_locks) th.

(** ALL LOCKED. *)
Definition derive_all_locked (th : thread) : thread :=
  let total := players_visible (state th) in
  let locked_count := Z.of_nat (size (locks_by_cell (state th))) in
  let th :=
    if (0 <? total) && (total <=? locked_count) && negb (all_locked_announced (state th))
    then upd (set_all_locked_announced true) (say (LogAllLocked locked_count total) th)
    else th in
  if locked_count <? total then upd (set_all_locked_announced false) th else th.

Definition derive_session (E : env) (sess : session) (th : thread) : thread :=
  derive_all_locked (derive_locks E sess (derive_players sess th)).

(** Timer: the whole branch ends with the call of [_maybe_start_timer]. *)
Definition on_session (E : env) (sess : session) (th : thread) : thread * ending :=
  _maybe_start_timer E sess (derive_session E sess th).

Definition known_phases : list string :=
  ["Lobby"; "Matchmaking"; "ReadyCheck"; "ChampSelect"; "GameStart"; "InProgress";
   "EndOfGame"].

(** The branch for "/lol-gameflow/v1/gameflow-phase". *)
Definition on_phase (d : jdata) (th : thread) : thread :=
  match d with
  | JStr ph =>
      if bool_decide (Some ph = phase (state th)) then th
      else
        let th := if bool_decide (ph ∈ known_phases) then say (LogPhase ph) th else th in
        let th := upd (set_phase (Some ph)) th in
        if bool_decide (ph = "ChampSelect") then
          let th := upd (set_last_hovered_skin_key None) th in
          let th := upd (set_last_hovered_skin_id None) th in
          let th := upd (set_last_hovered_skin_slug None) th in
          let th := upd (set_last_hover_written false) th in
          upd (set_processed_action_ids ∅) th
        else
          let th := upd (set_hovered_champ_id None) th in
          let th := upd (set_players_visible 0) th in
          let th := upd (set_locks_by_cell ∅) th in
          let th := upd (set_all_locked_announced false) th in
          write_epoch FActive (set_loadout_countdown_active false) th
  | _ => th
  end.

(** [int(cid) if cid is not None else None], [None] on an exception. *)
Definition hover_id (d : jdata) : option Z :=
  match d with
  | JNull => None
  | JInt z => Some z
  | JBool b => Some (if b then 1 else 0)
  | JFloat x => float_int x
  | JStr s => LCU.py_int s
  | JSession _ | JOther | JEmptyList => None
  end.

(** The branch for "/lol-champ-select/v1/hovered-champion-id". *)
Definition on_hover (E : env) (d : jdata) (th : thread) : thread :=
  match hover_id d with
  | Some cid =>
      if negb (cid =? 0) && negb (bool_decide (Some cid = hovered_champ_id (state th)))
      then
        let nm := match NameDB.champ_name (db E) cid with
                  | Some (String a r) => Name (String a r)
                  | _ => ChampFallback cid
                  end in
        upd (set_hovered_champ_id (Some cid)) (say (LogHover nm cid) th)
      else th
  | None => th
  end.

Definition _handle_api_event (E : env) (p : payload) (th : thread) : thread * ending :=
  match uri p with
  | None | Some EmptyString => (th, Normal)
  | Some u =>
      if bool_decide (u = "/lol-gameflow/v1/gameflow-phase") then
        (on_phase (data p) th, Normal)
      else if bool_decide (u = "/lol-champ-select/v1/hovered-champion-id") then
        (on_hover E (data p) th, Normal)
      else if bool_decide (u = "/lol-champ-select/v1/session") then
        match as_session (data p) with
        | Some sess => on_session E sess th
        | None => (th, Exception)
        end
      else (th, Normal)
  end.

(** A frame after [json.loads]. *)
Inductive item :=
| ItemInt (z : Z)
| ItemFloat (x : pyfloat)
| ItemDict (p : payload)
| ItemOther.                      (* a string, a boolean, null or a list *)

(** [data[0] == 8]. *)
Definition is_eight (i : item) : bool :=
  match i with
  | ItemInt z => z =? 8
  | ItemFloat x => float_is x 8
  | _ => false
  end.

Inductive message :=
| MsgInvalid                      (* json.loads raises *)
| MsgList (items : list item)
| MsgDict (p : payload)           (* a dict; without the key "uri", [uri p = None] *)
| MsgOther.

(** [_on_message]: whatever the handler raises is swallowed. *)
Definition _on_message (E : env) (m : message) (th : thread) : thread :=
  match m with
  | MsgList (head :: _ :: ItemDict p :: _) =>
      if is_eight head then fst (_handle_api_event E p th) else th
  | MsgDict p => fst (_handle_api_event E p th)
  | _ => th
  end.

(** Reading a trace. *)
Definition acquired_slots (l : list event) : list Z :=
  omap (fun e => match e with LogLockPlus cid _ _ _ => Some cid | _ => None end) l.

Definition released_slots (l : list event) : list Z :=
  omap (fun e => match e with LogLockMinus cid _ _ _ => Some cid | _ => None end) l.

Definition is_all_locked (e : event) : bool :=
  match e with LogAllLocked _ _ => true | _ => false end.

Definition all_locked_count (l : list event) : nat := count_if is_all_locked l.

Definition is_timer_event (e : event) : bool :=
  match e with
  | Poll | Sleep60 | AcquireTimerLock | ReleaseTimerLock
  | LogLoadoutStart _ _ _ _ | TickerStart _ _ | ReadEpoch _ | WriteEpoch _ => true
  | _ => false
  end.

Definition is_lock_event (e : event) : bool :=
  match e with
  | LogLockPlus _ _ _ _ | LogLockChamp _ _ | LogLockMinus _ _ _ _ => true
  | _ => false
  end.

(** The visible player count that an update leaves in the state. *)
Definition new_total (sess : session) (s : SharedState) : Z :=
  let count_visible := Z.of_nat (size (visible_cells sess)) in
  if negb (count_visible =? players_visible s) && (0 <? count_visible)
  then count_visible else players_visible s.

(** A session update as it arrives. *)
Definition session_uri : string := "/lol-champ-select/v1/session".
Definition phase_uri : string := "/lol-gameflow/v1/gameflow-phase".
Definition hover_uri : string := "/lol-champ-select/v1/hovered-champion-id".

Definition session_update (sess : session) : payload :=
  Payload (Some session_uri) (JSession sess).

Definition phase_update (ph : string) : payload :=
  Payload (Some phase_uri) (JStr ph).

(** What was written to the trace between two moments of the thread. *)
Definition emitted (th th' : thread) : list event :=
  drop (List.length (trace th)) (trace th').

(** Handling a sequence of session updates, one after the other. *)
Definition session_step (E : env) (th : thread) (sess : session) : thread :=
  fst (_handle_api_event E (session_update sess) th).

Definition run_sessions (E : env) (l : list session) (th : thread) : thread :=
  foldl (session_step E) th l.

(** The lock count and the visible count as an update leaves them. *)
Definition lock_count (th : thread) : Z := Z.of_nat (size (locks_by_cell (state th))).
Definition visible_count (th : thread) : Z := players_visible (state th).

(** An unbroken streak: after every update of the sequence the lock count is
    at least the visible count. *)
Fixpoint streak (E : env) (l : list session) (th : thread) : Prop :=
  match l with
  | [] => True
  | sess :: l' =>
      let th' := session_step E th sess in
      visible_count th' <= lock_count th' ∧ streak E l' th'
  end.

(** *** The arming decision *)

Definition is_poll (e : event) : bool := match e with Poll => true | _ => false end.
Definition is_sleep (e : event) : bool := match e with Sleep60 => true | _ => false end.




(** [k] rounds of the probe that found no positive time: a poll and a sleep
    each. *)
Definition rounds (k : nat) : list event := List.concat (replicate k [Poll; Sleep60]).








(** The accesses of an arming attempt that finds no epoch active, up to the
    log line. *)
Definition arming_accesses : list event :=
  [ReadEpoch FActive; WriteEpoch FLeft0; WriteEpoch FT0; ReadEpoch FSeq; WriteEpoch FSeq;
   ReadEpoch FSeq; WriteEpoch FCurrent; WriteEpoch FActive; ReadEpoch FCurrent].

(** The fields of the countdown epoch. *)
Definition epoch_fields (s : SharedState) : bool * Z * Z * option Z * option Z :=
  (loadout_countdown_active s, loadout_left0_ms s, loadout_t0 s,
   ticker_seq s, current_ticker s).


Definition is_start (e : event) : bool :=
  match e with LogLoadoutStart _ _ _ _ => true | _ => false end.

(** The successful armings that a trace holds. *)
Definition armings (l : list event) : nat := count_if is_start l.

(** A step of the thread that neither arms nor touches the sequence number. *)
Definition quiet (th th' : thread) : Prop :=
  ticker_seq (state th') = ticker_seq (state th)
  ∧ ∃ new, trace th' = trace th ++ new ∧ armings new = 0%nat.

(** *** Concrete threads and sessions *)

(** A stand-in for [compute_locked] where a concrete one is needed: every
    slot that acts in the session counts as locked, on champion 266. *)
Definition acting_slots_locked (sess : session) : gmap Z Z :=
  list_to_map (omap (fun a => (fun c => (c, 266)) <$> actorCellId a)
                 (List.concat (actions sess))).

Definition quiet_world : LCU.world :=
  LCU.World (fun _ => LCU.obs_ready) (fun _ _ => LCU.Response 404 None).

Definition env0 : env :=
  Env quiet_world (fun n => Z.of_nat n) (fun _ => false) acting_slots_locked
      NameDB.db_aatrox 1000 0.

Definition state0 : SharedState :=
  State None None None None 0 ∅ false false 0 0 None None None None None false ∅.

Definition thread0 : thread := Thread state0 LCU.c_ready None [].

(** Three players on the rosters; [k] of the slots 0, 1, 2 have acted. *)
Definition three_players (acting : list Z) : session :=
  Session (Some (Some 0)) [Player (Some 0); Player (Some 1)] [Player (Some 2)]
          [List.map (fun c => Action (Some c)) acting] None.

(** Two updates in a row with all three players locked. *)
Definition all_locked_twice : list session :=
  [three_players [0; 1; 2]; three_players [2; 1; 0]].

(** All three visible players locked. *)
Definition thread_all_locked : thread :=
  upd (set_locks_by_cell {[ 0 := 266; 1 := 103; 2 := 84 ]})
      (upd (set_players_visible 3) thread0).

Definition session_timer (ph : string) (left_ms : Z) : session :=
  Session None [] [] [] (Some (Timer (Some ph) (Some left_ms))).



(** *** More of the event thread *)


(** The payload that [_on_message] hands to [_handle_api_event], if any. *)
Definition routed (m : message) : option payload :=
  match m with
  | MsgList (head :: _ :: ItemDict p :: _) => if is_eight head then Some p else None
  | MsgDict p => Some p
  | _ => None
  end.

(** The fields that the three branches of [_handle_api_event] derive, apart
    from the countdown epoch. *)
Definition derived_fields (s : SharedState)
  : option string * option Z * option Z * option Z * Z * gmap Z Z * bool :=
  (phase s, hovered_champ_id s, locked_champ_id s, local_cell_id s,
   players_visible s, locks_by_cell s, all_locked_announced s).

(** The lines of the loop over [added] for one slot, and the line of the
    loop over [removed], as functions of what the loops read. *)
Definition plus_lines (E : env) (N : gmap Z Z) (locked visible : Z) (me : option Z)
    (cid : Z) : list event :=
  match N !! cid with
  | Some ch =>
      LogLockPlus cid (lock_label E ch) locked visible
      :: (if bool_decide (me = Some cid) then [LogLockChamp (lock_label E ch) ch] else [])
  | None => []
  end.

Definition minus_line (E : env) (P : gmap Z Z) (locked visible : Z) (cid : Z) : event :=
  LogLockMinus cid (lock_label E (default 0 (P !! cid))) locked visible.

(** A lock line shows these two counts. *)
Definition lock_line_shows (locked visible : Z) (e : event) : Prop :=
  match e with
  | LogLockPlus _ _ l v | LogLockMinus _ _ l v => l = locked ∧ v = visible
  | _ => True
  end.

(** What the session branch derives, written as functions of the stored
    state: the state it leaves and the lines it writes before the timer. *)
Definition derived_state (E : env) (sess : session) (s : SharedState) : SharedState :=
  let me := match localPlayerCellId sess with
            | Some v => v
            | None => local_cell_id s
            end in
  let total := new_total sess s in
  let N := compute_locked E sess in
  let added := sorted_difference (dom N) (dom (locks_by_cell s)) in
  let champ := match me with
               | Some m => if bool_decide (m ∈ added) then N !! m else locked_champ_id s
               | None => locked_champ_id s
               end in
  let locked := Z.of_nat (size N) in
  let fire := (0 <? total) && (total <=? locked) && negb (all_locked_announced s) in
  set_all_locked_announced
    (if locked <? total then false else fire || all_locked_announced s)
    (set_locks_by_cell N
       (set_locked_champ_id champ
          (set_players_visible total (set_local_cell_id me s)))).

Definition derived_log (E : env) (sess : session) (s : SharedState) : list event :=
  let me := match localPlayerCellId sess with
            | Some v => v
            | None => local_cell_id s
            end in
  let count_visible := Z.of_nat (size (visible_cells sess)) in
  let total := new_total sess s in
  let N := compute_locked E sess in
  let P := locks_by_cell s in
  let locked := Z.of_nat (size N) in
  let fire := (0 <? total) && (total <=? locked) && negb (all_locked_announced s) in
  (if negb (count_visible =? players_visible s) && (0 <? count_visible)
   then [LogPlayers count_visible] else [])
  ++ List.flat_map (plus_lines E N locked total me) (sorted_difference (dom N) (dom P))
  ++ List.map (minus_line E P locked total) (sorted_difference (dom P) (dom N))
  ++ (if fire then [LogAllLocked locked total] else []).


(** A client whose session endpoint answers with a string. *)
Definition env_garbled : env :=
  Env (LCU.World (fun _ => LCU.obs_ready)
         (fun _ _ => LCU.Response 200 (Some (JStr "busy"))))
      (fun n => Z.of_nat n) (fun _ => false) acting_slots_locked
      NameDB.db_aatrox 1000 0.

End WS.

(** * Theorems *)

Section counting_facts.
Context {A : Type} (f : A -> bool).

Lemma count_if_app (l1 l2 : list A) :
  count_if f (l1 ++ l2) = (count_if f l1 + count_if f l2)%nat.
Proof. unfold count_if. by rewrite List.filter_app, length_app. Qed.

Lemma count_if_none (l : list A) :
  Forall (fun x => f x = false) l -> count_if f l = 0%nat.
Proof.
  induction 1 as [| x l Hx _ IH]; [done |].
  unfold count_if in *. cbn. by rewrite Hx.
Qed.

End counting_facts.

(** ** The LCU client *)

Module LCU_facts.
Import LCU.

(** The model on the lockfile of the running client. *)
Example parse_lockfile_ready :
  parse_lockfile (Some "LeagueClient:4242:51234:s3cr3t:https") = Some (51234, "s3cr3t").
Proof. reflexivity. Qed.

Example parse_lockfile_short : parse_lockfile (Some "LeagueClient:4242:51234") = None.
Proof. reflexivity. Qed.

Example refresh_reads_lockfile :
  lcu (refresh_if_needed w_ready_down true (Conn (_disable lcu_ready) 0 [])) = lcu_ready.
Proof. reflexivity. Qed.

Example not_found_is_no_data :
  interpret (Response 404 None) = Returned JNull
  ∧ interpret (Response 500 None) = Raised
  ∧ interpret (Response 200 (Some (JStr "ChampSelect"))) = Returned (JStr "ChampSelect").
Proof. repeat split. Qed.

Lemma init_io w c :
  io (_init_from_lockfile w c) = io c ++ [IoInit].
Proof.
  unfold _init_from_lockfile.
  repeat case_match; reflexivity.
Qed.

Lemma refresh_io w force c :
  ∃ tail, io (refresh_if_needed w force c) = io c ++ IoRefresh force :: tail
          ∧ (tail = [] ∨ tail = [IoInit]).
Proof.
  unfold refresh_if_needed.
  repeat case_match; try (exists []; split; [reflexivity | by left]).
  all: exists [IoInit]; rewrite init_io; simpl;
    rewrite <- app_assoc; split; [reflexivity | by right].
Qed.

Lemma request_io w path tm c :
  io (snd (request w path tm c)) =
  io c ++ [IoRequest (match base (lcu c) with Some b => b | None => "" end +:+ path) tm].
Proof. reflexivity. Qed.

Lemma request_lcu w path tm c : lcu (snd (request w path tm c)) = lcu c.
Proof. reflexivity. Qed.

Lemma forced_refreshes_app l1 l2 :
  forced_refreshes (l1 ++ l2) = (forced_refreshes l1 + forced_refreshes l2)%nat.
Proof. apply count_if_app. Qed.

Lemma requests_app l1 l2 :
  requests (l1 ++ l2) = (requests l1 + requests l2)%nat.
Proof. apply count_if_app. Qed.

(** A refresh that is not forced adds no forced refresh and no request. *)
Lemma refresh_counts w force c :
  forced_refreshes (io (refresh_if_needed w force c)) =
    (forced_refreshes (io c) + if force then 1 else 0)%nat
  ∧ requests (io (refresh_if_needed w force c)) = requests (io c).
Proof.
  destruct (refresh_io w force c) as (tail & -> & Htail).
  rewrite forced_refreshes_app, requests_app.
  destruct Htail as [-> | ->], force; cbn; split; lia.
Qed.

Lemma request_counts w path tm c :
  forced_refreshes (io (snd (request w path tm c))) = forced_refreshes (io c)
  ∧ requests (io (snd (request w path tm c))) = S (requests (io c)).
Proof.
  rewrite request_io, forced_refreshes_app, requests_app. cbn. split; lia.
Qed.

(** C1, as the code has it.  When the first HTTP attempt of [get] raises a
    [RequestException], [get] performs exactly one forced refresh, right
    after the failed attempt.  It then retries exactly once if that refresh
    left the connection enabled, and not at all if it left it disabled.  In
    the second case [get] returns [None] with [ok = False].  In the first
    case, if the retry raises as well, [get] returns [None] and [ok] stays as
    the refresh left it, that is [True].  [get] is a total function: nothing
    is raised to the caller. *)
Theorem get_transport_failure w path tm c :
  let c1 := if ok (lcu c) then c else refresh_if_needed w false c in
  ok (lcu c1) = true →
  fst (request w path tm c1) = Raised →
  let c2 := snd (request w path tm c1) in
  let c3 := refresh_if_needed w true c2 in
  let retry := IoRequest (match base (lcu c3) with Some b => b | None => "" end +:+ path) tm in
  let r := get w path tm c in
  (∃ tail, io (snd r) = io c2 ++ IoRefresh true :: tail
                          ++ (if ok (lcu c3) then [retry] else [])
           ∧ (tail = [] ∨ tail = [IoInit]))
  ∧ forced_refreshes (io (snd r)) = S (forced_refreshes (io c))
  ∧ requests (io (snd r)) =
      (requests (io c) + if ok (lcu c3) then 2 else 1)%nat
  ∧ (ok (lcu c3) = false → fst r = JNull ∧ ok (lcu (snd r)) = false)
  ∧ (ok (lcu c3) = true → fst (request w path tm c3) = Raised →
       fst r = JNull ∧ ok (lcu (snd r)) = true).
Proof.
  intros c1 Hok Hraise c2 c3 retry r.
  assert (Hpre : forced_refreshes (io c1) = forced_refreshes (io c)
                 ∧ requests (io c1) = requests (io c)).
  { subst c1. destruct (ok (lcu c)); [done |].
    destruct (refresh_counts w false c) as [-> ->]. split; lia. }
  destruct Hpre as [Hf Hr].
  destruct (request_counts w path tm c1) as [Hf2 Hr2]. fold c2 in Hf2, Hr2.
  destruct (refresh_counts w true c2) as [Hf3 Hr3]. fold c3 in Hf3, Hr3.
  destruct (refresh_io w true c2) as (tail & Hio3 & Htail). fold c3 in Hio3.
  assert (Hget : r = if ok (lcu c3)
                     then match request w path tm c3 with
                          | (Returned v, c4) => (v, c4)
                          | (Raised, c4) => (JNull, c4)
                          end
                     else (JNull, c3)).
  { subst r. unfold get. fold c1. rewrite Hok. cbn [negb].
    subst c3 c2. destruct (request w path tm c1) as [a c2'].
    cbn [fst snd] in *. subst a.
    by destruct (ok (lcu (refresh_if_needed w true c2'))). }
  rewrite Hget. clear Hget.
  destruct (ok (lcu c3)) eqn:Hok3.
  - destruct (request_counts w path tm c3) as [Hf4 Hr4].
    pose proof (request_lcu w path tm c3) as Hl4.
    pose proof (request_io w path tm c3) as Hio4.
    destruct (request w path tm c3) as [a' c4]. cbn [fst snd] in *.
    assert (Hshape : ∃ tail0, io c4 = io c2 ++ IoRefresh true :: tail0 ++ [retry]
                              ∧ (tail0 = [] ∨ tail0 = [IoInit])).
    { exists tail. split; [| done]. rewrite Hio4, Hio3, <- app_assoc. done. }
    destruct a'; cbn [fst snd]; (split; [exact Hshape |]);
      (split; [lia |]); (split; [lia |]); (split; [done |]);
      intros _ Hr'; [done |].
    by rewrite Hl4.
  - cbn [fst snd]. split; [exists tail; by rewrite app_nil_r |].
    repeat split; try lia; done.
Qed.

Lemma get_transport_failure_witness :
  let r := get w_ready_down "/lol-champ-select/v1/session" 1000 c_ready in
  forced_refreshes (io (snd r)) = 1%nat ∧ requests (io (snd r)) = 2%nat.
Proof.
  destruct (get_transport_failure w_ready_down "/lol-champ-select/v1/session" 1000 c_ready)
    as (_ & Hf & Hr & _); [reflexivity | reflexivity |].
  split; [exact Hf | exact Hr].
Defined.

(** C1 as claimed fails: with the lockfile in place and the network down,
    both attempts raise, [get] returns [None], and the connection is still
    enabled afterwards.  When the lockfile has gone, a failed first attempt is
    followed by no retry at all. *)
Lemma get_two_failures_stay_enabled :
  let c1 := c_ready in
  let c3 := refresh_if_needed w_ready_down true
              (snd (request w_ready_down "/lol-champ-select/v1/session" 1000 c1)) in
  let r := get w_ready_down "/lol-champ-select/v1/session" 1000 c_ready in
  fst (request w_ready_down "/lol-champ-select/v1/session" 1000 c1) = Raised
  ∧ fst (request w_ready_down "/lol-champ-select/v1/session" 1000 c3) = Raised
  ∧ fst r = JNull
  ∧ ok (lcu (snd r)) = true
  ∧ requests (io (snd (get w_gone_down "/lol-champ-select/v1/session" 1000 c_ready))) = 1%nat.
Proof. vm_compute. repeat split. Qed.

(** *** The rest of the client *)

Lemma added_app c c' new : io c' = io c ++ new → added c c' = new.
Proof. unfold added. intros ->. by rewrite drop_app_length. Qed.

Lemma disable_consistent l : consistent (_disable l).
Proof. by unfold consistent. Qed.

Lemma init_consistent w c : consistent (lcu (_init_from_lockfile w c)).
Proof.
  unfold _init_from_lockfile. cbn.
  destruct (negb _ || negb _); [apply disable_consistent |].
  destruct (parse_lockfile _) as [[p secret] |]; [| apply disable_consistent].
  unfold consistent. cbn. by exists p, secret.
Qed.

Lemma refresh_consistent w force c :
  consistent (lcu c) → consistent (lcu (refresh_if_needed w force c)).
Proof.
  intros Hc. unfold refresh_if_needed. cbn.
  destruct (negb _ || negb _); [by unfold consistent |].
  destruct (_ || _ || _ || _); [apply init_consistent | done].
Qed.

Lemma get_cases w path tm c :
  let c1 := if ok (lcu c) then c else refresh_if_needed w false c in
  let c2 := snd (request w path tm c1) in
  let c3 := refresh_if_needed w true c2 in
  let c4 := snd (request w path tm c3) in
  snd (get w path tm c) = c1 ∧ ok (lcu c1) = false
  ∨ snd (get w path tm c) = c2 ∧ ok (lcu c1) = true
  ∨ snd (get w path tm c) = c3 ∧ ok (lcu c1) = true ∧ ok (lcu c3) = false
  ∨ snd (get w path tm c) = c4 ∧ ok (lcu c1) = true ∧ ok (lcu c3) = true.
Proof.
  intros c1 c2 c3 c4. unfold get. fold c1.
  destruct (ok (lcu c1)) eqn:Hok1; cbn [negb]; [| by left].
  subst c4 c3 c2. destruct (request w path tm c1) as [[v |] c2]; cbn [fst snd];
    [right; by left |].
  destruct (ok (lcu (refresh_if_needed w true c2))) eqn:Hok3; cbn [negb];
    [| right; right; by left].
  right; right; right.
  by destruct (request w path tm (refresh_if_needed w true c2)) as [[v |] c4].
Qed.

(** X1.  The credentials of the client always agree with each other: a
    client that [__init__] has built is consistent, and [refresh_if_needed]
    and [get] keep a consistent client consistent, so that port, password,
    base URL and authentication are those of one lockfile, or all absent. *)
Theorem credentials_stay_consistent :
  (∀ w explicit tick0, consistent (lcu (__init__ w explicit tick0)))
  ∧ (∀ w force c,
       consistent (lcu c) → consistent (lcu (refresh_if_needed w force c)))
  ∧ (∀ w path tm c,
       consistent (lcu c) → consistent (lcu (snd (get w path tm c)))).
Proof.
  split_and!.
  - intros. apply init_consistent.
  - intros. by apply refresh_consistent.
  - intros w path tm c Hc.
    assert (Hc1 : consistent (lcu (if ok (lcu c) then c else refresh_if_needed w false c))).
    { destruct (ok (lcu c)); [done | by apply refresh_consistent]. }
    destruct (get_cases w path tm c) as [[-> _] | [[-> _] | [[-> _] | [-> _]]]].
    + done.
    + by rewrite request_lcu.
    + apply refresh_consistent. by rewrite request_lcu.
    + rewrite request_lcu. apply refresh_consistent. by rewrite request_lcu.
Qed.

Lemma credentials_stay_consistent_witness :
  consistent (lcu (snd (get w_ready_down "/lol-gameflow/v1/gameflow-phase" 1000 c_ready))).
Proof.
  destruct credentials_stay_consistent as (_ & _ & Hget).
  apply Hget. unfold consistent. cbn. by exists 51234, "s3cr3t".
Defined.

(** X2.  [get] sends a request only through an enabled client: with
    consistent credentials, every request of a call goes to the base URL of
    some port followed by the path, never to the bare path. *)
Theorem get_requests_use_the_base w path tm c :
  consistent (lcu c) →
  Forall (fun e => ∀ url t, e = IoRequest url t →
                   ∃ p : Z, url = ("https://127.0.0.1:" +:+ pretty p) +:+ path)
         (added c (snd (get w path tm c))).
Proof.
  intros Hc.
  set (c1 := if ok (lcu c) then c else refresh_if_needed w false c).
  set (c2 := snd (request w path tm c1)).
  set (c3 := refresh_if_needed w true c2).
  assert (Hc1 : consistent (lcu c1)).
  { subst c1. destruct (ok (lcu c)); [done | by apply refresh_consistent]. }
  assert (Hc3 : consistent (lcu c3)).
  { apply refresh_consistent. subst c2. by rewrite request_lcu. }
  assert (Hurl : ∀ c0, consistent (lcu c0) → ok (lcu c0) = true →
            ∃ p : Z, match base (lcu c0) with Some b => b | None => "" end +:+ path
                 = ("https://127.0.0.1:" +:+ pretty p) +:+ path).
  { intros c0 Hc0 Hok0. unfold consistent in Hc0. rewrite Hok0 in Hc0.
    destruct Hc0 as (p & secret & _ & _ & -> & _). by exists p. }
  assert (Hio1 : ∃ pre, io c1 = io c ++ pre ∧ Forall (fun e => is_request e = false) pre).
  { subst c1. destruct (ok (lcu c)).
    - exists []. by rewrite app_nil_r.
    - destruct (refresh_io w false c) as (tail & -> & [-> | ->]);
        eexists; (split; [done |]); repeat constructor. }
  destruct Hio1 as (pre & Hio1 & Hpre).
  assert (Hquiet : ∀ l, Forall (fun e => is_request e = false) l →
            Forall (fun e => ∀ url t, e = IoRequest url t →
                     ∃ p : Z, url = ("https://127.0.0.1:" +:+ pretty p) +:+ path) l).
  { intros l Hl. eapply Forall_impl; [exact Hl |]. by intros [] Hq u t Heq. }
  assert (Hio3 : ∃ mid, io c3 = io c2 ++ mid ∧ Forall (fun e => is_request e = false) mid).
  { destruct (refresh_io w true c2) as (tail & Hio & [-> | ->]);
      eexists; (split; [exact Hio |]); repeat constructor. }
  destruct Hio3 as (mid & Hio3 & Hmid).
  pose proof (get_cases w path tm c) as Hcases. cbv zeta in Hcases.
  fold c1 in Hcases. fold c2 in Hcases. fold c3 in Hcases.
  destruct Hcases as [[-> _] | [[-> Hok1] | [[-> [Hok1 _]] | [-> [Hok1 Hok3]]]]].
  - rewrite (added_app _ _ _ Hio1). by apply Hquiet.
  - erewrite added_app; [| subst c2; rewrite request_io, Hio1, <- app_assoc; done].
    apply Forall_app. split; [by apply Hquiet |].
    constructor; [| done]. intros url t [= <- <-]. by apply Hurl.
  - erewrite added_app;
      [| rewrite Hio3; subst c2; rewrite request_io, Hio1, <- !app_assoc; done].
    apply Forall_app. split; [by apply Hquiet |].
    constructor; [intros url t [= <- <-]; by apply Hurl |]. by apply Hquiet.
  - erewrite added_app;
      [| rewrite request_io, Hio3; subst c2;
         rewrite request_io, Hio1, <- !app_assoc; done].
    apply Forall_app. split; [by apply Hquiet |].
    constructor; [intros url t [= <- <-]; by apply Hurl |].
    apply Forall_app. split; [by apply Hquiet |].
    constructor; [| done]. intros url t [= <- <-]. by apply Hurl.
Qed.

Lemma get_requests_use_the_base_witness :
  Forall (fun e => ∀ url t, e = IoRequest url t →
                   ∃ p : Z, url = ("https://127.0.0.1:" +:+ pretty p) +:+ "/x")
         (added c_ready (snd (get w_ready_down "/x" 1000 c_ready))).
Proof.
  apply (get_requests_use_the_base w_ready_down "/x" 1000 c_ready).
  unfold consistent. cbn. by exists 51234, "s3cr3t".
Defined.

(** X3.  Retries are bounded: one call of [get] sends at most two requests
    and forces at most one refresh, a forced refresh only after a request;
    a call that sends no request returns [None] and leaves the client
    disabled. *)
Theorem get_is_bounded w path tm c :
  let r := get w path tm c in
  let new := added c (snd r) in
  (requests new ≤ 2)%nat
  ∧ (forced_refreshes new ≤ 1)%nat
  ∧ (forced_refreshes new ≤ requests new)%nat
  ∧ (requests new = 0%nat → fst r = JNull ∧ ok (lcu (snd r)) = false).
Proof.
  intros r new. subst r new.
  set (c1 := if ok (lcu c) then c else refresh_if_needed w false c).
  assert (Hio1 : ∃ pre, io c1 = io c ++ pre ∧ requests pre = 0%nat
                        ∧ forced_refreshes pre = 0%nat).
  { subst c1. destruct (ok (lcu c)).
    - exists []. by rewrite app_nil_r.
    - destruct (refresh_io w false c) as (tail & -> & [-> | ->]); by eexists. }
  destruct Hio1 as (pre & Hio1 & Hr1 & Hf1).
  unfold get. fold c1.
  destruct (ok (lcu c1)) eqn:Hok1; cbn [negb fst snd].
  2: { rewrite (added_app _ _ _ Hio1), Hr1, Hf1. split_and!; try lia; done. }
  pose proof (request_io w path tm c1) as Hio2.
  destruct (request w path tm c1) as [[v |] c2]; cbn [fst snd] in *.
  { erewrite added_app; [| rewrite Hio2, Hio1, <- app_assoc; done].
    rewrite requests_app, forced_refreshes_app, Hr1, Hf1. cbn. split_and!; lia. }
  destruct (refresh_io w true c2) as (tail & Hio3 & Htail).
  assert (Ht : requests tail = 0%nat ∧ forced_refreshes tail = 0%nat)
    by (by destruct Htail as [-> | ->]).
  destruct Ht as [Hrt Hft].
  destruct (ok (lcu (refresh_if_needed w true c2))) eqn:Hok3; cbn [negb fst snd].
  - pose proof (request_io w path tm (refresh_if_needed w true c2)) as Hio4.
    assert (Hnew : ∀ c4, io c4 = io (refresh_if_needed w true c2) ++
                          [IoRequest (match base (lcu (refresh_if_needed w true c2)) with
                                      | Some b => b | None => "" end +:+ path) tm] →
              (requests (added c c4) ≤ 2)%nat
              ∧ (forced_refreshes (added c c4) ≤ 1)%nat
              ∧ (forced_refreshes (added c c4) ≤ requests (added c c4))%nat
              ∧ requests (added c c4) ≠ 0%nat).
    { intros c4 Hc4.
      erewrite added_app; [| rewrite Hc4, Hio3, Hio2, Hio1, <- !app_assoc; done].
      rewrite !requests_app, !forced_refreshes_app, Hr1, Hf1.
      change (IoRefresh true :: tail) with ([IoRefresh true] ++ tail).
      rewrite !requests_app, !forced_refreshes_app, Hrt, Hft. cbn. lia. }
    destruct (request w path tm (refresh_if_needed w true c2)) as [[v |] c4];
      cbn [fst snd] in *; destruct (Hnew c4 Hio4) as (? & ? & ? & ?);
      split_and!; done.
  - erewrite added_app; [| rewrite Hio3, Hio2, Hio1, <- !app_assoc; done].
    rewrite !requests_app, !forced_refreshes_app, Hr1, Hf1.
    change (IoRefresh true :: tail) with ([IoRefresh true] ++ tail).
    rewrite !requests_app, !forced_refreshes_app, Hrt, Hft. cbn. split_and!; lia.
Qed.

Lemma get_is_bounded_witness :
  fst (get w_gone_down "/x" 1000 (Conn (_disable lcu_ready) 0 [])) = JNull.
Proof.
  destruct (get_is_bounded w_gone_down "/x" 1000 (Conn (_disable lcu_ready) 0 []))
    as (_ & _ & _ & Hnone).
  apply Hnone. reflexivity.
Defined.

(** X4.  A response with status 404 or 405 is "no data", not a failure: on
    an enabled client [get] returns [None] after that one request, without a
    refresh or a retry, and leaves the client as it was. *)
Theorem get_not_found_is_no_data w path tm c code body :
  ok (lcu c) = true →
  code = 404 ∨ code = 405 →
  let url := match base (lcu c) with Some b => b | None => "" end +:+ path in
  http_at w (tick c) url = Response code body →
  get w path tm c = (JNull, Conn (lcu c) (S (tick c)) (io c ++ [IoRequest url tm])).
Proof.
  intros Hok Hcode url Hresp. unfold get. rewrite Hok. cbv iota. rewrite Hok.
  cbn [negb]. unfold request. cbn [emit tick lcu io]. fold url. rewrite Hresp.
  destruct Hcode as [-> | ->]; reflexivity.
Qed.

Lemma get_not_found_is_no_data_witness :
  fst (get (World (fun _ => obs_ready) (fun _ _ => Response 404 None)) "/x" 1000 c_ready)
  = JNull.
Proof.
  rewrite (get_not_found_is_no_data _ "/x" 1000 c_ready 404 None);
    [reflexivity | reflexivity | by left | reflexivity].
Defined.

(** X5.  [refresh_if_needed] on an enabled client whose lockfile is found at
    the stored path rebuilds the client exactly when it is forced or the
    modification time is readable, not zero and different from the stored
    one; a modification time that cannot be read hides a rotation.  When it
    rebuilds and the lockfile then read is well formed, the client carries
    the port and the password of that file and its modification time. *)
Theorem refresh_detects_rotation w force c :
  let o := os_at w (tick c) in
  let o' := os_at w (S (tick c)) in
  let mt := default 0 (file_mtime o) in
  ok (lcu c) = true →
  str_truthy (found o) = true → is_file o = true → found o = lf_path (lcu c) →
  (force = false → (mt = 0 ∨ mt = lf_mtime (lcu c)) →
     refresh_if_needed w force c
     = Conn (lcu c) (S (tick c)) (io c ++ [IoRefresh false]))
  ∧ (force = true ∨ (mt ≠ 0 ∧ mt ≠ lf_mtime (lcu c)) →
     added c (refresh_if_needed w force c) = [IoRefresh force; IoInit]
     ∧ ∀ p secret,
         str_truthy (found o') = true → is_file o' = true →
         parse_lockfile (file_text o') = Some (p, secret) →
         lcu (refresh_if_needed w force c)
         = Mk true (Some p) (Some secret) (Some ("https://127.0.0.1:" +:+ pretty p))
              (Some ("riot", secret)) (_explicit_lockfile (lcu c)) (found o')
              (default (wall_clock o') (file_mtime o'))).
Proof.
  intros o o' mt Hok Hfound Hfile Hpath.
  assert (Hmt : match file_mtime o with Some m => m | None => 0 end = mt)
    by (subst mt; by destruct (file_mtime o)).
  split.
  - intros -> Hsame. unfold refresh_if_needed. cbn [emit next set_lcu lcu tick io].
    fold o. rewrite Hfound, Hfile, Hmt, Hok. cbn [negb orb].
    rewrite Hpath, bool_decide_eq_true_2 by done. cbn [negb orb].
    destruct Hsame as [-> | ->]; [done |].
    rewrite Z.eqb_refl. by rewrite andb_false_r.
  - intros Htrigger.
    assert (Hre : refresh_if_needed w force c
                  = _init_from_lockfile w
                      (Conn (Mk (ok (lcu c)) (port (lcu c)) (pw (lcu c)) (base (lcu c))
                                (auth (lcu c)) (_explicit_lockfile (lcu c)) (found o)
                                (lf_mtime (lcu c)))
                            (S (tick c)) (io c ++ [IoRefresh force]))).
    { unfold refresh_if_needed. cbn [emit next set_lcu lcu tick io].
      fold o. rewrite Hfound, Hfile, Hmt. cbn [negb orb].
      destruct Htrigger as [-> | [Hnz Hne]]; [done |].
      apply Z.eqb_neq in Hnz, Hne. rewrite Hnz, Hne. cbn.
      by rewrite !orb_true_r. }
    rewrite Hre. split.
    + apply added_app. rewrite init_io. cbn. by rewrite <- app_assoc.
    + intros p secret Hfound' Hfile' Hparse.
      unfold _init_from_lockfile. cbn [emit next set_lcu lcu tick io].
      fold o'. rewrite Hfound', Hfile', Hparse. cbn.
      by destruct (file_mtime o').
Qed.

Lemma refresh_detects_rotation_witness :
  refresh_if_needed w_ready_down false c_ready
  = Conn lcu_ready 1 [IoRefresh false].
Proof.
  destruct (refresh_detects_rotation w_ready_down false c_ready
              eq_refl eq_refl eq_refl eq_refl) as (Hsame & _).
  apply Hsame; [reflexivity | by right].
Defined.

Lemma split_on_no_separator sep f :
  has_char sep f = false → split_on sep f = [f].
Proof.
  induction f as [| b r IH]; [done |]. cbn [split_on has_char].
  intros [Hb Hr]%orb_false_iff. by rewrite Hb, IH.
Qed.

Lemma split_on_field sep f rest :
  has_char sep f = false →
  split_on sep (f +:+ String sep rest) = f :: split_on sep rest.
Proof.
  induction f as [| b r IH].
  - intros _. change ("" +:+ String sep rest) with (String sep rest).
    cbn [split_on]. by rewrite Ascii.eqb_refl.
  - change (String b r +:+ String sep rest) with (String b (r +:+ String sep rest)).
    cbn [split_on has_char].
    intros [Hb Hr]%orb_false_iff. by rewrite Hb, IH.
Qed.

(** Splitting undoes joining, for fields without the separator. *)
Lemma split_on_join sep fs :
  fs ≠ [] → Forall (fun f => has_char sep f = false) fs →
  split_on sep (join_with sep fs) = fs.
Proof.
  induction fs as [| f fs IH]; [done |].
  intros _ [Hf Hfs]%Forall_cons. destruct fs as [| g fs].
  - cbn. by apply split_on_no_separator.
  - change (join_with sep (f :: g :: fs)) with (f +:+ String sep (join_with sep (g :: fs))).
    rewrite split_on_field by done. by rewrite IH.
Qed.

(** X6.  Of a lockfile made of colon-separated fields, the client reads the
    third as the port, as [int] reads it, and takes the fourth as the
    password as it stands; fields after the fifth are ignored, and a lockfile
    with fewer than five fields, or with a port that [int] refuses, gives no
    credentials. *)
Theorem parse_lockfile_reads_five_fields fs :
  Forall (fun f => has_char ":" f = false) fs →
  parse_lockfile (Some (join_with ":" fs))
  = match fs with
    | _ :: _ :: port_s :: pw_s :: _ :: _ => (fun p => (p, pw_s)) <$> py_int port_s
    | _ => None
    end.
Proof.
  intros Hfs. unfold parse_lockfile. cbn [mbind option_bind].
  destruct fs as [| f0 fs]; [done |].
  rewrite split_on_join by done.
  by destruct fs as [| f1 [| f2 [| f3 [| f4 rest]]]].
Qed.

Lemma parse_lockfile_reads_five_fields_witness :
  parse_lockfile
    (Some (join_with ":" ["LeagueClient"; "4242"; " 51_234"; "p w"; "https"; "x"]))
  = Some (51234, "p w").
Proof.
  rewrite parse_lockfile_reads_five_fields; [reflexivity |].
  repeat constructor.
Defined.

(** What [int] makes of a port: digits may be grouped by single underscores
    and may come from any script, white space around them is dropped, and
    the control character 31, which [strip] drops, is refused. *)
Example py_int_reads_like_int :
  py_int "51_234" = Some 51234
  ∧ py_int (utf8 160 +:+ "٥١٢٣٤" +:+ utf8 8195) = Some 51234
  ∧ py_int "-007" = Some (-7)
  ∧ py_int (String (of_byte 31) "51234") = None
  ∧ strip (String (of_byte 31) "51234") = "51234"
  ∧ py_int "51__234" = None
  ∧ py_int "_51234" = None
  ∧ py_int "0x10" = None.
Proof. vm_compute. repeat split. Qed.

Lemma first_file_is_file h paths p : first_file h paths = Some p → isfile h p = true.
Proof. unfold first_file. intros H. by apply List.find_some in H as [_ H]. Qed.

(** X7.  [_find_lockfile] returns only paths that are files.  An explicit
    path that is a file wins over everything else, the environment variable
    comes next, and on a host where no path is a file the result is [None]. *)
Theorem find_lockfile_returns_a_file h explicit :
  (∀ p, _find_lockfile h explicit = Some p → isfile h p = true)
  ∧ (str_truthy explicit = true → isfile h (default "" explicit) = true →
     _find_lockfile h explicit = explicit)
  ∧ (∀ e, (str_truthy explicit = false ∨ isfile h (default "" explicit) = false) →
     environ_LCU_LOCKFILE h = Some e → str_truthy (Some e) = true → isfile h e = true →
     _find_lockfile h explicit = Some e)
  ∧ ((∀ p, isfile h p = false) → _find_lockfile h explicit = None).
Proof.
  split_and!.
  - intros p. unfold _find_lockfile.
    destruct (str_truthy explicit && _) eqn:He.
    { apply andb_true_iff in He as [_ He]. intros ->. exact He. }
    destruct (str_truthy (environ_LCU_LOCKFILE h) && _) eqn:Hv.
    { apply andb_true_iff in Hv as [_ Hv]. intros Heq. by rewrite Heq in Hv. }
    destruct (first_file h _) as [q |] eqn:Hq.
    { intros [= <-]. by apply first_file_is_file in Hq. }
    apply first_file_is_file.
  - intros Ht Hf. unfold _find_lockfile. by rewrite Ht, Hf.
  - intros e Hexp Henv Ht Hf. unfold _find_lockfile.
    assert (str_truthy explicit && isfile h (default "" explicit) = false) as ->
      by (destruct Hexp as [-> | ->]; [done | apply andb_false_r]).
    rewrite Henv, Ht. cbn. by rewrite Hf.
  - intros Hnone. unfold _find_lockfile.
    rewrite !Hnone, !andb_false_r.
    assert (Hff : ∀ l, first_file h l = None).
    { intros l. unfold first_file. induction l as [| q l IH]; [done |].
      cbn. by rewrite Hnone. }
    by rewrite !Hff.
Qed.

Lemma find_lockfile_returns_a_file_witness :
  _find_lockfile host_with_client None = Some "/opt/lol/lockfile"
  ∧ isfile host_with_client "/opt/lol/lockfile" = true.
Proof.
  split; [reflexivity |].
  apply (find_lockfile_returns_a_file host_with_client None). reflexivity.
Defined.

(** *** Strings and their characters *)

Lemma append_nil_r (s : string) : s +:+ "" = s.
Proof.
  induction s as [| a s IH]; [done |].
  change (String a s +:+ "") with (String a (s +:+ "")). by rewrite IH.
Qed.

Lemma append_assoc (s t u : string) : (s +:+ t) +:+ u = s +:+ (t +:+ u).
Proof.
  induction s as [| a s IH]; [done |].
  change (String a ((s +:+ t) +:+ u) = String a (s +:+ (t +:+ u))). by rewrite IH.
Qed.

Lemma join_app cs1 cs2 : join (cs1 ++ cs2) = join cs1 +:+ join cs2.
Proof.
  induction cs1 as [| c cs1 IH]; [done |].
  cbn [app join foldr]. fold (join (cs1 ++ cs2)). fold (join cs1).
  by rewrite IH, append_assoc.
Qed.

Lemma has_continuation_app n p q :
  has_continuation n p = true → has_continuation n (p +:+ q) = true.
Proof.
  revert p. induction n as [| n IH]; intros [| b p] H; try done.
  change (String b p +:+ q) with (String b (p +:+ q)). cbn in *.
  apply andb_true_iff in H as [-> H]. by apply IH.
Qed.

Lemma has_continuation_prefix p q :
  has_continuation (String.length p) (p +:+ q) = has_continuation (String.length p) p.
Proof.
  induction p as [| b p IH]; [done |].
  change (String b p +:+ q) with (String b (p +:+ q)). cbn. by rewrite IH.
Qed.

Lemma has_continuation_length n r :
  has_continuation n r = true → (n ≤ String.length r)%nat.
Proof.
  revert r. induction n as [| n IH]; intros [| b r] H; cbn in *; try done; try lia.
  apply andb_true_iff in H as [_ H]. apply IH in H. lia.
Qed.

Lemma split_chars_zero t : split_chars 0 t = ("", chars t).
Proof.
  unfold chars. destruct t as [| a r]; [done |]. cbn.
  by destruct (split_chars _ r).
Qed.

Lemma split_chars_prefix x t :
  split_chars (String.length x) (x +:+ t) = (x, chars t).
Proof.
  induction x as [| a x IH]; [apply split_chars_zero |].
  change (String a x +:+ t) with (String a (x +:+ t)). cbn. by rewrite IH.
Qed.

Lemma split_chars_spec owed s :
  fst (split_chars owed s) +:+ join (snd (split_chars owed s)) = s
  ∧ String.length (fst (split_chars owed s)) = (owed `min` String.length s)%nat.
Proof.
  revert owed. induction s as [| a r IH]; intros owed; [by destruct owed |].
  destruct owed as [| k]; cbn [split_chars].
  - match goal with |- context [split_chars ?n r] => destruct (IH n) as [H1 H2] end.
    destruct (split_chars _ r) as [g cs]. cbn [fst snd] in *. split; [| done].
    change (join (String a g :: cs)) with (String a g +:+ join cs).
    change (String a g +:+ join cs) with (String a (g +:+ join cs)). by rewrite H1.
  - destruct (IH k) as [H1 H2]. destruct (split_chars k r) as [g cs]. cbn [fst snd] in *.
    split; [| cbn; by rewrite H2].
    change (String a g +:+ join cs) with (String a (g +:+ join cs)). by rewrite H1.
Qed.

Lemma join_chars s : join (chars s) = s.
Proof.
  destruct (split_chars_spec 0 s) as [H _]. by rewrite split_chars_zero in H.
Qed.

Lemma chars_read g t : reads g t → chars (g +:+ t) = g :: chars t.
Proof.
  destruct g as [| a g]; [done |]. intros Hr. cbn in Hr.
  change (String a g +:+ t) with (String a (g +:+ t)).
  unfold chars at 1. cbn. rewrite Hr, split_chars_prefix. done.
Qed.

Lemma chars_well_cut s : well_cut (chars s).
Proof.
  unfold chars. generalize 0%nat.
  induction s as [| a r IH]; intros owed; [done |].
  destruct owed as [| k]; cbn [split_chars].
  - match goal with |- context [split_chars ?n r] =>
      pose proof (IH n) as Hw; destruct (split_chars_spec n r) as [H1 H2] end.
    destruct (split_chars _ r) as [g cs] eqn:Hsplit. cbn [fst snd well_cut] in *.
    split; [| done]. unfold reads. rewrite H1, H2.
    destruct (has_continuation (lead_length a) r) eqn:Hc; [| done].
    apply has_continuation_length in Hc. lia.
  - specialize (IH k). by destruct (split_chars k r).
Qed.

Lemma well_cut_join cs : well_cut cs → chars (join cs) = cs.
Proof.
  induction cs as [| g cs IH]; [done |]. intros [Hr Hw].
  cbn [join foldr]. fold (join cs). rewrite (chars_read _ _ Hr). by rewrite IH.
Qed.

Lemma well_cut_app cs1 cs2 : well_cut (cs1 ++ cs2) → well_cut cs1 ∧ well_cut cs2.
Proof.
  induction cs1 as [| g cs1 IH]; [done |]. cbn [app well_cut]. intros [Hr Hw].
  destruct (IH Hw) as [H1 H2]. split_and!; [| done | done].
  destruct g as [| a g]; [done |]. cbn in *. rewrite join_app, <- append_assoc in Hr.
  destruct (has_continuation (lead_length a) ((g +:+ join cs1) +:+ join cs2)) eqn:Hc.
  - rewrite Hr in Hc |- *. rewrite append_assoc, has_continuation_prefix in Hc.
    by rewrite has_continuation_prefix, Hc.
  - destruct (has_continuation (lead_length a) (g +:+ join cs1)) eqn:Hc1; [| done].
    apply (has_continuation_app _ _ (join cs2)) in Hc1. congruence.
Qed.

Lemma lstrip_chars_suffix cs : ∃ pre, cs = pre ++ lstrip_chars cs.
Proof.
  induction cs as [| c cs [pre IH]]; [by exists [] |].
  cbn [lstrip_chars]. destruct (is_space c); [| by exists []].
  exists (c :: pre). by rewrite IH at 1.
Qed.

Lemma lstrip_chars_head cs :
  lstrip_chars cs = cs ↔ match cs with c :: _ => is_space c = false | [] => True end.
Proof.
  destruct cs as [| c cs]; [done |]. cbn [lstrip_chars].
  destruct (is_space c) eqn:Hc; [| done].
  split; [| done]. intros H.
  destruct (lstrip_chars_suffix cs) as [pre Hpre].
  apply (f_equal List.length) in H. apply (f_equal List.length) in Hpre.
  rewrite length_app in Hpre. cbn in H. lia.
Qed.

Lemma lstrip_chars_idemp cs : lstrip_chars (lstrip_chars cs) = lstrip_chars cs.
Proof.
  induction cs as [| c cs IH]; [done |]. cbn [lstrip_chars].
  destruct (is_space c) eqn:Hc; [done |]. cbn [lstrip_chars]. by rewrite Hc.
Qed.

Lemma strip_chars_idemp cs : strip_chars (strip_chars cs) = strip_chars cs.
Proof.
  unfold strip_chars.
  set (f := lstrip_chars cs).
  assert (Hf : lstrip_chars f = f) by apply lstrip_chars_idemp.
  set (y := lstrip_chars (reverse f)).
  assert (Hy : lstrip_chars (reverse y) = reverse y).
  { apply lstrip_chars_head.
    destruct (lstrip_chars_suffix (reverse f)) as [pre Hpre]. fold y in Hpre.
    apply (f_equal reverse) in Hpre. rewrite reverse_involutive, reverse_app in Hpre.
    destruct (reverse y) as [| c r] eqn:Hr; [done |].
    apply lstrip_chars_head in Hf. rewrite Hpre in Hf. done. }
  rewrite Hy, reverse_involutive. subst y. by rewrite lstrip_chars_idemp.
Qed.

Lemma strip_chars_well_cut cs : well_cut cs → well_cut (strip_chars cs).
Proof.
  intros Hw. unfold strip_chars.
  destruct (lstrip_chars_suffix cs) as [pre Hpre]. rewrite Hpre in Hw.
  apply well_cut_app in Hw as [_ Hw].
  destruct (lstrip_chars_suffix (reverse (lstrip_chars cs))) as [pre2 Hpre2].
  apply (f_equal reverse) in Hpre2. rewrite reverse_involutive, reverse_app in Hpre2.
  rewrite Hpre2 in Hw. by apply well_cut_app in Hw as [Hw _].
Qed.

(** [strip] leaves what it has stripped as it is. *)
Lemma strip_idemp s : strip (strip s) = strip s.
Proof.
  unfold strip.
  rewrite (well_cut_join (strip_chars (chars s)))
    by apply strip_chars_well_cut, chars_well_cut.
  by rewrite strip_chars_idemp.
Qed.

End LCU_facts.

(** ** The websocket event thread *)

Module WS_facts.
Import WS.

(** The examples of the specification: with three visible players, the lock
    counts 1, 2, 3 give one all-locked line, and 1, 2, 3, 2, 3 give two. *)
Example all_locked_once :
  all_locked_count
    (trace (run_sessions env0
              [three_players [0]; three_players [0; 1]; three_players [0; 1; 2]]
              thread0)) = 1%nat.
Proof. vm_compute. reflexivity. Qed.

Example all_locked_again_after_a_drop :
  all_locked_count
    (trace (run_sessions env0
              [three_players [0]; three_players [0; 1]; three_players [0; 1; 2];
               three_players [0; 1]; three_players [0; 1; 2]]
              thread0)) = 2%nat.
Proof. vm_compute. reflexivity. Qed.

Example finalization_is_upper_case :
  phase_timer_of (session_timer "Finalization" 1) = "FINALIZATION"
  ∧ phase_timer_of (session_timer "fınalization" 1) = "FINALIZATION"
  ∧ phase_timer_of (session_timer "ﬁnalization" 1) = "FINALIZATION".
Proof. vm_compute. repeat split. Qed.

(** Arming from a finalization timer, and the phase exit that cancels it. *)
Example arm_then_leave :
  let th := fst (_handle_api_event env0 (session_update (session_timer "FINALIZATION" 5000))
                   thread_all_locked) in
  let th' := fst (_handle_api_event env0 (phase_update "InProgress") th) in
  epoch_fields (state th) = (true, 5000, 0, Some 1, Some 1)
  ∧ ticker th = Some (Ticker (Some 1) "finalization")
  ∧ epoch_fields (state th') = (false, 5000, 0, Some 1, Some 1)
  ∧ locks_by_cell (state th') = ∅
  ∧ players_visible (state th') = 0.
Proof. vm_compute. repeat split. Qed.

Lemma acquired_slots_app l1 l2 :
  acquired_slots (l1 ++ l2) = acquired_slots l1 ++ acquired_slots l2.
Proof. apply omap_app. Qed.

Lemma released_slots_app l1 l2 :
  released_slots (l1 ++ l2) = released_slots l1 ++ released_slots l2.
Proof. apply omap_app. Qed.

Lemma all_locked_count_app l1 l2 :
  all_locked_count (l1 ++ l2) = (all_locked_count l1 + all_locked_count l2)%nat.
Proof. apply count_if_app. Qed.

(** Timer events are no lock lines and no all-locked lines. *)
Lemma timer_events_silent l :
  Forall (fun e => is_timer_event e = true) l →
  acquired_slots l = [] ∧ released_slots l = [] ∧ all_locked_count l = 0%nat
  ∧ Forall (fun e => is_lock_event e = false) l.
Proof.
  induction 1 as [| e l He _ (IH1 & IH2 & IH3 & IH4)]; [done |].
  destruct e; try discriminate He; cbn; repeat split; try done;
    constructor; done.
Qed.

(** *** The arming block *)

Lemma stamp_epoch_spec E left_ms th :
  state (stamp_epoch E left_ms th) =
    set_loadout_t0 (monotonic_at E (LCU.tick (conn th)))
      (set_loadout_left0_ms left_ms (state th))
  ∧ conn (stamp_epoch E left_ms th) = LCU.next (conn th)
  ∧ ticker (stamp_epoch E left_ms th) = ticker th
  ∧ trace (stamp_epoch E left_ms th) = trace th ++ [WriteEpoch FLeft0; WriteEpoch FT0].
Proof. unfold stamp_epoch, write_epoch. cbn. by rewrite <- app_assoc. Qed.

Lemma next_seq_spec th :
  state (next_seq th) =
    set_current_ticker (Some (seq_value (ticker_seq (state th)) + 1))
      (set_ticker_seq (Some (seq_value (ticker_seq (state th)) + 1)) (state th))
  ∧ conn (next_seq th) = conn th
  ∧ ticker (next_seq th) = ticker th
  ∧ trace (next_seq th) =
      trace th ++ [ReadEpoch FSeq; WriteEpoch FSeq; ReadEpoch FSeq; WriteEpoch FCurrent].
Proof. unfold next_seq, write_epoch, read_epoch. cbn. by rewrite <- !app_assoc. Qed.

Lemma new_epoch_spec E left_ms th :
  state (new_epoch E left_ms th) =
    set_loadout_countdown_active true
      (set_current_ticker (Some (seq_value (ticker_seq (state th)) + 1))
         (set_ticker_seq (Some (seq_value (ticker_seq (state th)) + 1))
            (set_loadout_t0 (monotonic_at E (LCU.tick (conn th)))
               (set_loadout_left0_ms left_ms (state th)))))
  ∧ conn (new_epoch E left_ms th) = LCU.next (conn th)
  ∧ ticker (new_epoch E left_ms th) = ticker th
  ∧ trace (new_epoch E left_ms th) =
      trace th ++ [WriteEpoch FLeft0; WriteEpoch FT0; ReadEpoch FSeq; WriteEpoch FSeq;
                   ReadEpoch FSeq; WriteEpoch FCurrent; WriteEpoch FActive].
Proof.
  unfold new_epoch, write_epoch.
  destruct (next_seq_spec (stamp_epoch E left_ms th)) as (Hs & Hc & Hk & Ht).
  destruct (stamp_epoch_spec E left_ms th) as (Hs0 & Hc0 & Hk0 & Ht0).
  cbn [say upd state conn ticker trace].
  rewrite Hs, Hc, Hk, Ht, Hs0, Hc0, Hk0, Ht0, <- !app_assoc. done.
Qed.

Lemma start_ticker_spec E md left_ms th :
  state (start_ticker E md left_ms th) = state th
  ∧ conn (start_ticker E md left_ms th) = conn th
  ∧ ∃ body,
      trace (start_ticker E md left_ms th) =
        trace th ++ ReadEpoch FCurrent
                 :: LogLoadoutStart (current_ticker (state th)) md left_ms (timer_hz E)
                 :: body
      ∧ (body = [] ∨ body = [ReadEpoch FCurrent; TickerStart (current_ticker (state th)) md]).
Proof.
  unfold start_ticker, read_epoch. cbn.
  match goal with |- context [if ?b then _ else _] => destruct b end; cbn.
  - split_and!; [done | done |]. exists []. split; [by rewrite <- !app_assoc | by left].
  - split_and!; [done | done |]. eexists [_; _].
    rewrite <- !app_assoc. split; [done | by right].
Qed.

Lemma arm_unfold E pt left_ms th :
  arm E pt left_ms th =
    say ReleaseTimerLock
      (if loadout_countdown_active (state th)
       then read_epoch FActive (say AcquireTimerLock th)
       else start_ticker E (arm_mode pt left_ms) left_ms
              (new_epoch E left_ms (read_epoch FActive (say AcquireTimerLock th)))).
Proof. reflexivity. Qed.

Lemma state_say e th : state (say e th) = state th.
Proof. reflexivity. Qed.

Lemma trace_say e th : trace (say e th) = trace th ++ [e].
Proof. reflexivity. Qed.

Lemma ticker_say e th : ticker (say e th) = ticker th.
Proof. reflexivity. Qed.

(** The trace of an arming attempt: the lock taken first and released last;
    in between the check of the active flag, and when no epoch is active the
    writes of the epoch fields, the start line and at most the start of a
    ticker. *)
Lemma arm_trace_exact E pt left_ms th :
  ∃ body,
    trace (arm E pt left_ms th) = trace th ++ AcquireTimerLock :: body ++ [ReleaseTimerLock]
    ∧ if loadout_countdown_active (state th) then body = [ReadEpoch FActive]
      else ∃ rest,
          body = arming_accesses
                 ++ LogLoadoutStart (Some (seq_value (ticker_seq (state th)) + 1))
                      (arm_mode pt left_ms) left_ms (timer_hz E) :: rest
          ∧ (rest = [] ∨ rest = [ReadEpoch FCurrent;
                                 TickerStart (Some (seq_value (ticker_seq (state th)) + 1))
                                   (arm_mode pt left_ms)]).
Proof.
  rewrite arm_unfold, trace_say.
  destruct (loadout_countdown_active (state th)).
  - exists [ReadEpoch FActive]. split; [| done].
    unfold read_epoch. rewrite !trace_say, <- !app_assoc. done.
  - set (th0 := read_epoch FActive (say AcquireTimerLock th)).
    destruct (start_ticker_spec E (arm_mode pt left_ms) left_ms (new_epoch E left_ms th0))
      as (_ & _ & rest & -> & Hrest).
    destruct (new_epoch_spec E left_ms th0) as (Hs & _ & _ & Ht).
    rewrite Hs in Hrest |- *. rewrite Ht.
    assert (Hc : ∀ s, current_ticker (set_loadout_countdown_active true s) = current_ticker s)
      by done.
    assert (Hc' : ∀ v s, current_ticker (set_current_ticker v s) = v) by done.
    rewrite Hc, Hc' in Hrest |- *.
    subst th0. unfold read_epoch in *. rewrite !trace_say, !state_say in *.
    exists (arming_accesses
            ++ LogLoadoutStart (Some (seq_value (ticker_seq (state th)) + 1))
                 (arm_mode pt left_ms) left_ms (timer_hz E) :: rest).
    split; [| by exists rest].
    rewrite <- !app_assoc. done.
Qed.

Lemma arm_trace E pt left_ms th :
  ∃ new, trace (arm E pt left_ms th) = trace th ++ new
         ∧ Forall (fun e => is_timer_event e = true) new.
Proof.
  destruct (arm_trace_exact E pt left_ms th) as (body & -> & Hbody).
  eexists. split; [done |].
  destruct (loadout_countdown_active (state th)).
  - subst body. repeat constructor.
  - destruct Hbody as (rest & -> & [-> | ->]); repeat constructor.
Qed.

(** The state after an arming attempt. *)
Lemma arm_state E pt left_ms th :
  state (arm E pt left_ms th) =
    if loadout_countdown_active (state th) then state th
    else set_loadout_countdown_active true
           (set_current_ticker (Some (seq_value (ticker_seq (state th)) + 1))
              (set_ticker_seq (Some (seq_value (ticker_seq (state th)) + 1))
                 (set_loadout_t0 (monotonic_at E (LCU.tick (conn th)))
                    (set_loadout_left0_ms left_ms (state th))))).
Proof.
  rewrite arm_unfold, state_say.
  destruct (loadout_countdown_active (state th)).
  - unfold read_epoch. by rewrite !state_say.
  - rewrite (proj1 (start_ticker_spec _ _ _ _)), (proj1 (new_epoch_spec _ _ _)).
    unfold read_epoch. by rewrite !state_say.
Qed.

(** What arming leaves alone. *)
Lemma arm_frame E pt left_ms th :
  let s := state th in
  let s' := state (arm E pt left_ms th) in
  phase s' = phase s ∧ hovered_champ_id s' = hovered_champ_id s
  ∧ locked_champ_id s' = locked_champ_id s ∧ local_cell_id s' = local_cell_id s
  ∧ players_visible s' = players_visible s ∧ locks_by_cell s' = locks_by_cell s
  ∧ all_locked_announced s' = all_locked_announced s.
Proof.
  cbn zeta. rewrite arm_state.
  by destruct (loadout_countdown_active (state th)).
Qed.

Lemma probe_spec E n left_ms th :
  state (snd (probe E n left_ms th)) = state th
  ∧ ticker (snd (probe E n left_ms th)) = ticker th
  ∧ ∃ new, trace (snd (probe E n left_ms th)) = trace th ++ new
           ∧ Forall (fun e => is_poll e || is_sleep e = true) new.
Proof.
  revert left_ms th. induction n as [| n IH]; intros left_ms th; cbn.
  - repeat split. exists []. by rewrite app_nil_r.
  - destruct (LCU.session (world E) (conn th)) as [v c]. cbn.
    destruct (as_session v) as [s2 |]; cbn.
    + destruct (0 <? left_ms_of s2); cbn.
      * repeat split. exists [Poll]. split; [done | repeat constructor].
      * destruct (IH (left_ms_of s2) (say Sleep60 (with_conn c (say Poll th))))
          as (Hs & Ht & new & Hn & Hf).
        rewrite Hs, Ht, Hn. cbn. repeat split.
        exists (Poll :: Sleep60 :: new).
        split; [by rewrite <- !app_assoc | by repeat constructor].
    + repeat split. exists [Poll]. split; [done | repeat constructor].
Qed.

Lemma should_start_spec E sess th :
  state (snd (should_start_of E sess th)) = state th
  ∧ ticker (snd (should_start_of E sess th)) = ticker th
  ∧ ∃ new, trace (snd (should_start_of E sess th)) = trace th ++ new
           ∧ Forall (fun e => is_poll e || is_sleep e = true) new.
Proof.
  assert (Hid : ∃ new, trace th = trace th ++ new
                       ∧ Forall (fun e => is_poll e || is_sleep e = true) new)
    by (exists []; by rewrite app_nil_r).
  unfold should_start_of.
  destruct (bool_decide _ && _); cbn [snd]; [done |].
  destruct (_ && _); cbn [snd]; [| done].
  destruct (left_ms_of sess <=? 0); cbn [snd]; [| done].
  pose proof (probe_spec E 8 (left_ms_of sess) th) as Hp.
  by destruct (probe E 8 (left_ms_of sess) th) as [[l |] th'].
Qed.

Lemma maybe_start_timer_trace E sess th :
  ∃ new, trace (fst (_maybe_start_timer E sess th)) = trace th ++ new
         ∧ Forall (fun e => is_timer_event e = true) new.
Proof.
  unfold _maybe_start_timer.
  destruct (should_start_spec E sess th) as (_ & _ & new & Hn & Hf).
  apply (Forall_impl _ (fun e => is_timer_event e = true)) in Hf;
    [| by intros []].
  destruct (should_start_of E sess th) as [[[[] l] |] th']; cbn [fst snd] in *;
    [| by exists new | by exists new].
  destruct (arm_trace E (phase_timer_of sess) l th') as (new2 & Hn2 & Hf2).
  exists (new ++ new2). rewrite Hn2, Hn, <- app_assoc.
  split; [done | by apply Forall_app].
Qed.

Lemma maybe_start_timer_frame E sess th :
  let s := state th in
  let s' := state (fst (_maybe_start_timer E sess th)) in
  phase s' = phase s ∧ hovered_champ_id s' = hovered_champ_id s
  ∧ locked_champ_id s' = locked_champ_id s ∧ local_cell_id s' = local_cell_id s
  ∧ players_visible s' = players_visible s ∧ locks_by_cell s' = locks_by_cell s
  ∧ all_locked_announced s' = all_locked_announced s.
Proof.
  unfold _maybe_start_timer.
  destruct (should_start_spec E sess th) as (Hs & _).
  destruct (should_start_of E sess th) as [[[[] l] |] th']; cbn [fst snd] in *;
    [| by rewrite Hs | by rewrite Hs].
  pose proof (arm_frame E (phase_timer_of sess) l th') as H.
  cbn zeta in H. by rewrite Hs in H.
Qed.

(** *** The session branch *)

Lemma handle_session E sess th :
  _handle_api_event E (session_update sess) th = on_session E sess th.
Proof. reflexivity. Qed.

Lemma set_locked_champ_id_eta s : set_locked_champ_id (locked_champ_id s) s = s.
Proof. by destruct s. Qed.

(** The loop over [added]: one "+1" line per slot, in the order of the list;
    of the state only [locked_champ_id] may change. *)
Lemma added_loop E (N : gmap Z Z) curr l th :
  (∀ c, c ∈ l → is_Some (N !! c)) →
  let th' := foldl (on_added E N curr) th l in
  ∃ v new,
    state th' = set_locked_champ_id v (state th)
    ∧ conn th' = conn th ∧ ticker th' = ticker th
    ∧ trace th' = trace th ++ new
    ∧ acquired_slots new = l ∧ released_slots new = []
    ∧ all_locked_count new = 0%nat.
Proof.
  revert th. induction l as [| c l IH]; intros th Hin; cbn.
  - exists (locked_champ_id (state th)), [].
    rewrite set_locked_champ_id_eta, app_nil_r. done.
  - destruct (Hin c) as [ch Hch]; [by left |].
    destruct (IH (on_added E N curr th c)) as (v & new & Hs & Hc & Ht & Htr & Ha & Hr & Hn).
    { intros c' Hc'. apply Hin. by right. }
    rewrite Hs, Hc, Ht, Htr. clear Hs Hc Ht Htr IH.
    unfold on_added. rewrite Hch. cbn.
    destruct (local_cell_id (state th)) as [me |]; cbn;
      [destruct (c =? me); cbn |].
    + exists v, (LogLockPlus c (lock_label E ch) (Z.of_nat (size curr))
                   (players_visible (state th))
                 :: LogLockChamp (lock_label E ch) ch :: new).
      rewrite <- !app_assoc.
      unfold acquired_slots, released_slots, all_locked_count in *.
      cbn. by rewrite Ha, Hr.
    + exists v, (LogLockPlus c (lock_label E ch) (Z.of_nat (size curr))
                   (players_visible (state th)) :: new).
      rewrite <- !app_assoc.
      unfold acquired_slots, released_slots, all_locked_count in *.
      cbn. by rewrite Ha, Hr.
    + exists v, (LogLockPlus c (lock_label E ch) (Z.of_nat (size curr))
                   (players_visible (state th)) :: new).
      rewrite <- !app_assoc.
      unfold acquired_slots, released_slots, all_locked_count in *.
      cbn. by rewrite Ha, Hr.
Qed.

(** The loop over [removed]: one "-1" line per slot; the state stays. *)
Lemma removed_loop E curr l th :
  let th' := foldl (on_removed E curr) th l in
  ∃ new,
    state th' = state th ∧ conn th' = conn th ∧ ticker th' = ticker th
    ∧ trace th' = trace th ++ new
    ∧ acquired_slots new = [] ∧ released_slots new = l
    ∧ all_locked_count new = 0%nat.
Proof.
  revert th. induction l as [| c l IH]; intros th; cbn.
  - exists []. by rewrite app_nil_r.
  - destruct (IH (on_removed E curr th c)) as (new & Hs & Hc & Ht & Htr & Ha & Hr & Hn).
    rewrite Hs, Hc, Ht, Htr. cbn.
    exists (LogLockMinus c (lock_label E (default 0 (locks_by_cell (state th) !! c)))
              (Z.of_nat (size curr)) (players_visible (state th)) :: new).
    rewrite <- !app_assoc.
    unfold acquired_slots, released_slots, all_locked_count in *.
    cbn. by rewrite Ha, Hr.
Qed.

Lemma sorted_difference_elem (a b : gset Z) c :
  c ∈ sorted_difference a b ↔ c ∈ a ∧ c ∉ b.
Proof.
  unfold sorted_difference.
  rewrite merge_sort_Permutation, elem_of_elements. set_solver.
Qed.

Lemma sorted_difference_sorted (a b : gset Z) :
  StronglySorted Z.lt (sorted_difference a b).
Proof.
  unfold sorted_difference.
  assert (Hnd : NoDup (merge_sort Z.le (elements (a ∖ b)))).
  { rewrite merge_sort_Permutation. apply NoDup_elements. }
  assert (Hs : StronglySorted Z.le (merge_sort Z.le (elements (a ∖ b)))).
  { apply StronglySorted_merge_sort; apply _. }
  induction Hs as [| x l Hs IH Hall]; [constructor |].
  apply NoDup_cons in Hnd as [Hx Hnd].
  constructor; [by apply IH |].
  rewrite Forall_forall in Hall |- *. intros y Hy.
  specialize (Hall y Hy).
  assert (x ≠ y) by (intros ->; done). lia.
Qed.

Lemma set_players_visible_eta s : set_players_visible (players_visible s) s = s.
Proof. by destruct s. Qed.

Lemma derive_players_spec sess th :
  let th' := derive_players sess th in
  let L := match localPlayerCellId sess with
           | Some v => v
           | None => local_cell_id (state th)
           end in
  state th' = set_players_visible (new_total sess (state th)) (set_local_cell_id L (state th))
  ∧ conn th' = conn th ∧ ticker th' = ticker th
  ∧ ∃ new, trace th' = trace th ++ new
           ∧ acquired_slots new = [] ∧ released_slots new = []
           ∧ all_locked_count new = 0%nat.
Proof.
  unfold derive_players, new_total. cbn.
  destruct (negb _ && _); cbn.
  - do 3 (split; [done |]). by eexists [_].
  - split; [by destruct (state th) |]. do 2 (split; [done |]).
    exists []. by rewrite app_nil_r.
Qed.

Lemma derive_locks_spec E sess th :
  let th' := derive_locks E sess th in
  let P := locks_by_cell (state th) in
  let N := compute_locked E sess in
  ∃ v new,
    state th' = set_locks_by_cell N (set_locked_champ_id v (state th))
    ∧ conn th' = conn th ∧ ticker th' = ticker th
    ∧ trace th' = trace th ++ new
    ∧ acquired_slots new = sorted_difference (dom N) (dom P)
    ∧ released_slots new = sorted_difference (dom P) (dom N)
    ∧ all_locked_count new = 0%nat.
Proof.
  intros th' P N. subst th'. unfold derive_locks. fold N. fold P.
  destruct (added_loop E N (dom N) (sorted_difference (dom N) (dom P)) th)
    as (v & new1 & Hs1 & Hc1 & Ht1 & Htr1 & Ha1 & Hr1 & Hn1).
  { intros c [Hc _]%sorted_difference_elem. by apply elem_of_dom. }
  set (th1 := foldl _ th (sorted_difference (dom N) (dom P))) in *.
  destruct (removed_loop E (dom N) (sorted_difference (dom P) (dom N)) th1)
    as (new2 & Hs2 & Hc2 & Ht2 & Htr2 & Ha2 & Hr2 & Hn2).
  set (th2 := foldl _ th1 _) in *.
  exists v, (new1 ++ new2). cbn.
  rewrite Hs2, Hs1, Hc2, Hc1, Ht2, Ht1, Htr2, Htr1.
  rewrite acquired_slots_app, released_slots_app, all_locked_count_app.
  rewrite Ha1, Ha2, Hr1, Hr2, Hn1, Hn2, app_nil_r, <- app_assoc. done.
Qed.

(** The all-locked decision on a state: the line is written exactly when
    [fire] holds, and [flag_after] is what the flag is left at. *)
Lemma derive_all_locked_spec th :
  let th' := derive_all_locked th in
  let total := players_visible (state th) in
  let locked := Z.of_nat (size (locks_by_cell (state th))) in
  let fire := (0 <? total) && (total <=? locked) && negb (all_locked_announced (state th)) in
  state th' = set_all_locked_announced
                (if locked <? total then false
                 else fire || all_locked_announced (state th)) (state th)
  ∧ conn th' = conn th ∧ ticker th' = ticker th
  ∧ trace th' = trace th ++ (if fire then [LogAllLocked locked total] else []).
Proof.
  intros th' total locked fire. subst th'.
  unfold derive_all_locked. cbn zeta. fold total. fold locked. fold fire.
  destruct fire eqn:Hfire, (locked <? total) eqn:Hlt; cbn;
    rewrite ?app_nil_r; try done.
  by destruct (state th).
Qed.

Lemma emitted_app th th' new : trace th' = trace th ++ new → emitted th th' = new.
Proof. unfold emitted. intros ->. by rewrite drop_app_length. Qed.

(** One session update, all its parts put together. *)
Lemma session_update_spec E sess th :
  let th' := session_step E th sess in
  let P := locks_by_cell (state th) in
  let N := compute_locked E sess in
  let total := new_total sess (state th) in
  let locked := Z.of_nat (size N) in
  let fire := (0 <? total) && (total <=? locked)
              && negb (all_locked_announced (state th)) in
  ∃ new,
    trace th' = trace th ++ new
    ∧ acquired_slots new = sorted_difference (dom N) (dom P)
    ∧ released_slots new = sorted_difference (dom P) (dom N)
    ∧ all_locked_count new = (if fire then 1 else 0)%nat
    ∧ locks_by_cell (state th') = N
    ∧ players_visible (state th') = total
    ∧ all_locked_announced (state th') =
        (if locked <? total then false else fire || all_locked_announced (state th)).
Proof.
  intros th' P N total locked fire. subst th'.
  unfold session_step. rewrite handle_session. unfold on_session, derive_session.
  destruct (derive_players_spec sess th) as (Hs1 & _ & _ & new1 & Htr1 & Ha1 & Hr1 & Hn1).
  set (th1 := derive_players sess th) in *.
  destruct (derive_locks_spec E sess th1) as (v & new2 & Hs2 & _ & _ & Htr2 & Ha2 & Hr2 & Hn2).
  set (th2 := derive_locks E sess th1) in *.
  destruct (derive_all_locked_spec th2) as (Hs3 & _ & _ & Htr3).
  set (th3 := derive_all_locked th2) in *.
  destruct (maybe_start_timer_trace E sess th3) as (new4 & Htr4 & Hf4).
  destruct (timer_events_silent _ Hf4) as (Ha4 & Hr4 & Hn4 & _).
  pose proof (maybe_start_timer_frame E sess th3) as Hfr. cbn zeta in Hfr.
  destruct Hfr as (_ & _ & _ & _ & Hpv & Hlk & Hfl).
  assert (Hlocks1 : locks_by_cell (state th1) = P) by (by rewrite Hs1).
  assert (Hflag2 : all_locked_announced (state th2) = all_locked_announced (state th))
    by (by rewrite Hs2, Hs1).
  assert (Hpv2 : players_visible (state th2) = total) by (by rewrite Hs2, Hs1).
  assert (Hlk2 : locks_by_cell (state th2) = N) by (by rewrite Hs2).
  rewrite Hlocks1 in Ha2, Hr2.
  rewrite Hpv2, Hlk2, Hflag2 in Hs3, Htr3. fold locked in Hs3, Htr3. fold fire in Hs3, Htr3.
  exists (new1 ++ new2 ++ (if fire then [LogAllLocked locked total] else []) ++ new4).
  rewrite Htr4, Htr3, Htr2, Htr1, Hpv, Hlk, Hfl, Hs3.
  rewrite !acquired_slots_app, !released_slots_app, !all_locked_count_app.
  rewrite Ha1, Ha2, Ha4, Hr1, Hr2, Hr4, Hn1, Hn2, Hn4.
  cbn [set_all_locked_announced locks_by_cell players_visible all_locked_announced].
  rewrite Hlk2, Hpv2.
  destruct fire; cbn; rewrite ?app_nil_r, <- ?app_assoc; cbn; done.
Qed.

Lemma lock_diff_aux E sess th :
  let P := locks_by_cell (state th) in
  let N := compute_locked E sess in
  let th' := fst (_handle_api_event E (session_update sess) th) in
  (∀ c, c ∈ acquired_slots (emitted th th') ↔ c ∈ dom N ∖ dom P)
  ∧ (∀ c, c ∈ released_slots (emitted th th') ↔ c ∈ dom P ∖ dom N)
  ∧ locks_by_cell (state th') = N.
Proof.
  intros P N th'.
  destruct (session_update_spec E sess th) as (new' & Htr & Ha & Hr & _ & Hl & _).
  unfold session_step in Htr, Hl. fold th' in Htr, Hl.
  rewrite (emitted_app _ _ _ Htr). rewrite Ha, Hr.
  split_and!; [| | exact Hl].
  - intros c. rewrite sorted_difference_elem. set_solver.
  - intros c. rewrite sorted_difference_elem. set_solver.
Qed.

(** C2.  For a session update with stored lock map [P] and newly computed
    lock map [N], the slots of the "lock acquired" lines, in the order they
    are written, are the keys of [N] that are no keys of [P], and the slots of
    the "lock released" lines are the keys of [P] that are no keys of [N];
    both lists are strictly increasing; afterwards the stored map is [N]. *)
Theorem lock_diff E sess th :
  let P := locks_by_cell (state th) in
  let N := compute_locked E sess in
  let th' := fst (_handle_api_event E (session_update sess) th) in
  let new := emitted th th' in
  (∀ c, c ∈ acquired_slots new ↔ c ∈ dom N ∖ dom P)
  ∧ (∀ c, c ∈ released_slots new ↔ c ∈ dom P ∖ dom N)
  ∧ StronglySorted Z.lt (acquired_slots new)
  ∧ StronglySorted Z.lt (released_slots new)
  ∧ locks_by_cell (state th') = N.
Proof.
  intros P N th' new.
  destruct (lock_diff_aux E sess th) as (Ha & Hr & Hl).
  destruct (session_update_spec E sess th) as (new' & Htr & Ha' & Hr' & _).
  unfold session_step in Htr. fold th' in Htr, Ha, Hr, Hl.
  split_and!; [exact Ha | exact Hr | | | exact Hl]; subst new;
    rewrite (emitted_app _ _ _ Htr), ?Ha', ?Hr'; apply sorted_difference_sorted.
Qed.

Lemma lock_diff_witness :
  locks_by_cell
    (state (fst (_handle_api_event env0 (session_update (three_players [0; 1])) thread0)))
  = acting_slots_locked (three_players [0; 1]).
Proof. apply (lock_diff env0 (three_players [0; 1]) thread0). Defined.


(** C9.  A slot that is a key of both the stored and the new lock map gets no
    "lock acquired" and no "lock released" line, whatever the two characters
    are, and afterwards the stored map holds the new character for it. *)
Theorem changed_pick_is_silent E sess th c a b :
  locks_by_cell (state th) !! c = Some a →
  compute_locked E sess !! c = Some b →
  a ≠ b →
  let th' := fst (_handle_api_event E (session_update sess) th) in
  (c ∉ acquired_slots (emitted th th'))
  ∧ (c ∉ released_slots (emitted th th'))
  ∧ locks_by_cell (state th') !! c = Some b.
Proof.
  intros Ha Hb _ th'.
  destruct (lock_diff_aux E sess th) as (Hacq & Hrel & Hst).
  fold th' in Hacq, Hrel, Hst.
  rewrite Hacq, Hrel, Hst.
  assert (Hin_old : c ∈ dom (locks_by_cell (state th))) by (apply elem_of_dom; eauto).
  assert (Hin_new : c ∈ dom (compute_locked E sess)) by (apply elem_of_dom; eauto).
  split_and!; [| | done]; rewrite elem_of_difference; tauto.
Qed.

Lemma changed_pick_is_silent_witness :
  let th := upd (set_locks_by_cell {[ 0 := 7 ]}) thread0 in
  let th' := fst (_handle_api_event env0 (session_update (three_players [0])) th) in
  locks_by_cell (state th') !! 0 = Some 266.
Proof.
  apply (changed_pick_is_silent env0 (three_players [0])
           (upd (set_locks_by_cell {[ 0 := 7 ]}) thread0) 0 7 266);
    [reflexivity | reflexivity | discriminate].
Defined.


(** *** The visible player count *)

Lemma add_cells_spec {A} (cell : A → option Z) l (seen : gset Z) :
  add_cells cell l seen = list_to_set (omap cell l) ∪ seen.
Proof.
  unfold add_cells. revert seen.
  induction l as [| p l IH]; intros seen; cbn; [set_solver |].
  rewrite IH. destruct (cell p); cbn; set_solver.
Qed.

Lemma fallback_cells_spec (rounds : list (list action)) (seen : gset Z) :
  foldl (fun seen rnd => add_cells actorCellId rnd seen) seen rounds
  = list_to_set (omap actorCellId (List.concat rounds)) ∪ seen.
Proof.
  revert seen. induction rounds as [| r rounds IH]; intros seen; cbn; [set_solver |].
  rewrite IH, add_cells_spec, omap_app. set_solver.
Qed.

Lemma visible_cells_spec sess :
  let roster : gset Z := list_to_set (omap cellId (myTeam sess ++ theirTeam sess)) in
  let actors : gset Z := list_to_set (omap actorCellId (List.concat (actions sess))) in
  visible_cells sess = if bool_decide (roster = ∅) then actors else roster.
Proof.
  intros roster actors. unfold visible_cells.
  rewrite !add_cells_spec, union_empty_r_L.
  assert (Hr : list_to_set (omap cellId (theirTeam sess))
               ∪ list_to_set (omap cellId (myTeam sess)) = roster).
  { subst roster. rewrite omap_app. set_solver. }
  rewrite Hr. case_bool_decide as He; [| done].
  rewrite fallback_cells_spec, He. subst actors. set_solver.
Qed.

(** C6.  On a session update the visible player count is computed from the
    distinct slot ids of both rosters, or from the actor slot ids of the
    action list when the rosters give none; the stored count takes the new
    value only when it differs from the stored one and is not zero, so a
    count of zero leaves the stored count as it was. *)
Theorem visible_count_update E sess th :
  let roster : gset Z := list_to_set (omap cellId (myTeam sess ++ theirTeam sess)) in
  let actors : gset Z := list_to_set (omap actorCellId (List.concat (actions sess))) in
  let count := Z.of_nat (size (if bool_decide (roster = ∅) then actors else roster)) in
  let old := players_visible (state th) in
  let new := players_visible (state (fst (_handle_api_event E (session_update sess) th))) in
  new = (if bool_decide (count ≠ old ∧ count ≠ 0) then count else old)
  ∧ (count = 0 → new = old).
Proof.
  intros roster actors count old new.
  destruct (session_update_spec E sess th) as (? & _ & _ & _ & _ & _ & Hpv & _).
  unfold session_step in Hpv. fold new in Hpv.
  assert (Hnew : new = if bool_decide (count ≠ old ∧ count ≠ 0) then count else old).
  { rewrite Hpv. unfold new_total. rewrite visible_cells_spec.
    fold roster. fold actors. fold count. fold old.
    destruct (count =? old) eqn:Heq, (0 <? count) eqn:Hpos; cbn;
      case_bool_decide; subst count; lia. }
  split; [exact Hnew |].
  intros H0. rewrite Hnew. case_bool_decide; [lia | done].
Qed.

Lemma visible_count_update_witness :
  let th := upd (set_players_visible 3) thread0 in
  players_visible (state (fst (_handle_api_event env0 (session_update empty_session) th))) = 3.
Proof.
  apply (visible_count_update env0 empty_session (upd (set_players_visible 3) thread0)).
  reflexivity.
Defined.

(** *** The all-locked edge *)

(** One update, read through the counts it leaves behind. *)
Lemma all_locked_step E sess th :
  let th' := session_step E th sess in
  let fire := (0 <? visible_count th') && (visible_count th' <=? lock_count th')
              && negb (all_locked_announced (state th)) in
  ∃ new,
    trace th' = trace th ++ new
    ∧ all_locked_count new = (if fire then 1 else 0)%nat
    ∧ all_locked_announced (state th') =
        (if lock_count th' <? visible_count th' then false
         else fire || all_locked_announced (state th)).
Proof.
  intros th' fire.
  destruct (session_update_spec E sess th) as (new & Htr & _ & _ & Hn & Hl & Hpv & Hfl).
  fold th' in Htr, Hl, Hpv, Hfl.
  exists new. subst fire. unfold lock_count, visible_count.
  rewrite Hl, Hpv. done.
Qed.

Lemma run_sessions_cons E sess l th :
  run_sessions E (sess :: l) th = run_sessions E l (session_step E th sess).
Proof. reflexivity. Qed.

Lemma run_sessions_trace E l th :
  ∃ new, trace (run_sessions E l th) = trace th ++ new.
Proof.
  revert th. induction l as [| sess l IH]; intros th.
  - exists []. by rewrite app_nil_r.
  - rewrite run_sessions_cons.
    destruct (IH (session_step E th sess)) as (new2 & ->).
    destruct (all_locked_step E sess th) as (new1 & -> & _).
    exists (new1 ++ new2). by rewrite app_assoc.
Qed.

(** In a streak the line is written at most once, and not at all when the
    flag is set at its start. *)
Lemma streak_bound E l th :
  streak E l th →
  (all_locked_count (emitted th (run_sessions E l th))
   ≤ if all_locked_announced (state th) then 0 else 1)%nat.
Proof.
  revert th. induction l as [| sess l IH]; intros th.
  - intros _. unfold emitted. cbn. rewrite drop_all. cbn.
    destruct (all_locked_announced _); lia.
  - rewrite run_sessions_cons. cbn [streak].
    intros [Hle Hrest]. specialize (IH _ Hrest).
    destruct (all_locked_step E sess th) as (new1 & Htr1 & Hn1 & Hfl1).
    destruct (run_sessions_trace E l (session_step E th sess)) as (new2 & Htr2).
    rewrite (emitted_app _ _ _ Htr2) in IH.
    assert (Htr : trace (run_sessions E l (session_step E th sess)) = trace th ++ new1 ++ new2)
      by (by rewrite Htr2, Htr1, app_assoc).
    rewrite (emitted_app _ _ _ Htr), all_locked_count_app, Hn1.
    rewrite Hfl1 in IH.
    assert (Hnlt : (lock_count (session_step E th sess)
                    <? visible_count (session_step E th sess)) = false)
      by (apply Z.ltb_ge; lia).
    rewrite Hnlt in IH.
    destruct (all_locked_announced (state th)); cbn in *.
    + rewrite andb_false_r in *. cbn in *. lia.
    + rewrite andb_true_r, orb_false_r in *.
      destruct (_ && _); cbn in *; lia.
Qed.

(** C3.  For session updates handled one after the other: an update writes
    the all-locked line exactly when, with the counts it has just stored, the
    visible count is positive, the lock count is at least the visible count
    and the announced flag was unset; it writes it at most once and leaves the
    flag set when it does; an update that leaves the lock count below the
    visible count leaves the flag unset.  Hence a streak of updates that each
    leave the lock count at or above the visible count holds at most one
    all-locked line, and the update after a drop below the visible count
    writes the line again as soon as all visible players are locked. *)
Theorem all_locked_edge E :
  (∀ sess th,
     let th' := session_step E th sess in
     let n := all_locked_count (emitted th th') in
     (n = 1%nat ↔ 0 < visible_count th' ∧ visible_count th' <= lock_count th'
                  ∧ all_locked_announced (state th) = false)
     ∧ (n ≤ 1)%nat
     ∧ (n = 1%nat → all_locked_announced (state th') = true)
     ∧ (lock_count th' < visible_count th' → all_locked_announced (state th') = false))
  ∧ (∀ l th,
       streak E l th →
       (all_locked_count (emitted th (run_sessions E l th)) ≤ 1)%nat)
  ∧ (∀ s1 s2 th,
       let th1 := session_step E th s1 in
       let th2 := session_step E th1 s2 in
       lock_count th1 < visible_count th1 →
       0 < visible_count th2 → visible_count th2 <= lock_count th2 →
       all_locked_count (emitted th1 th2) = 1%nat).
Proof.
  split_and!.
  - intros sess th th' n.
    destruct (all_locked_step E sess th) as (new & Htr & Hn & Hfl).
    fold th' in Htr, Hn, Hfl. subst n. rewrite (emitted_app _ _ _ Htr), Hn, Hfl.
    destruct (0 <? visible_count th') eqn:Hpos,
             (visible_count th' <=? lock_count th') eqn:Hle,
             (lock_count th' <? visible_count th') eqn:Hlt,
             (all_locked_announced (state th)); cbn;
      rewrite ?Z.ltb_lt, ?Z.ltb_ge, ?Z.leb_le, ?Z.leb_gt in *;
      split_and!; try split; try done; try lia; intros; lia.
  - intros l th Hst. pose proof (streak_bound E l th Hst) as Hb.
    destruct (all_locked_announced (state th)); lia.
  - intros s1 s2 th th1 th2 Hdrop Hpos Hle.
    destruct (all_locked_step E s1 th) as (_ & _ & _ & Hfl1). fold th1 in Hfl1.
    destruct (all_locked_step E s2 th1) as (new & Htr & Hn & _). fold th2 in Htr, Hn.
    rewrite (emitted_app _ _ _ Htr), Hn.
    apply Z.ltb_lt in Hdrop. rewrite Hdrop in Hfl1. rewrite Hfl1.
    apply Z.ltb_lt in Hpos. apply Z.leb_le in Hle. by rewrite Hpos, Hle.
Qed.

Lemma all_locked_edge_witness :
  (all_locked_count
     (emitted thread0
        (run_sessions env0 all_locked_twice thread0))
   ≤ 1)%nat.
Proof.
  destruct (all_locked_edge env0) as (_ & Hstreak & _).
  apply Hstreak. vm_compute. repeat split; discriminate.
Defined.


(** *** The arming decision *)








(** *** The countdown epoch *)


Lemma armings_app l1 l2 : armings (l1 ++ l2) = (armings l1 + armings l2)%nat.
Proof. apply count_if_app. Qed.




(** The trace of an arming that succeeds, and of a phase exit: the phase
    exit clears the active flag without taking the lock. *)
Example arming_under_the_lock :
  emitted thread0 (arm env0 "FINALIZATION" 5000 thread0)
  = [AcquireTimerLock; ReadEpoch FActive; WriteEpoch FLeft0; WriteEpoch FT0;
     ReadEpoch FSeq; WriteEpoch FSeq; ReadEpoch FSeq; WriteEpoch FCurrent;
     WriteEpoch FActive; ReadEpoch FCurrent;
     LogLoadoutStart (Some 1) "finalization" 5000 1000;
     ReadEpoch FCurrent; TickerStart (Some 1) "finalization"; ReleaseTimerLock]
  ∧ emitted thread0 (fst (_handle_api_event env0 (phase_update "InProgress") thread0))
    = [LogPhase "InProgress"; WriteEpoch FActive].
Proof. vm_compute. repeat split. Qed.

(** *** Phase updates *)

Lemma handle_phase E d th :
  _handle_api_event E (Payload (Some phase_uri) d) th = (on_phase d th, Normal).
Proof. reflexivity. Qed.

(** C7.  A phase update changes the state only when its data is a string
    that differs from the stored phase.  Then the phase field takes the new
    value and, for "ChampSelect", the hovered-skin caches and the set of
    processed action ids are cleared, the player count, the lock map and
    every other field staying as they were; for any other phase the hovered
    champion is cleared, the visible player count is set to zero, the lock
    map is emptied, the all-locked flag and the countdown-active flag are
    cleared, every other field staying as it was. *)
Theorem phase_update_effect E d th :
  let th' := fst (_handle_api_event E (Payload (Some phase_uri) d) th) in
  let s := state th in
  conn th' = conn th ∧ ticker th' = ticker th
  ∧ ((∀ ph, d = JStr ph → Some ph = phase s) → state th' = s)
  ∧ (∀ ph, d = JStr ph → Some ph ≠ phase s → ph = "ChampSelect" →
       state th' =
         State (Some ph) (hovered_champ_id s) (locked_champ_id s) (local_cell_id s)
           (players_visible s) (locks_by_cell s) (all_locked_announced s)
           (loadout_countdown_active s) (loadout_left0_ms s) (loadout_t0 s)
           (ticker_seq s) (current_ticker s) None None None false ∅)
  ∧ (∀ ph, d = JStr ph → Some ph ≠ phase s → ph ≠ "ChampSelect" →
       state th' =
         State (Some ph) None (locked_champ_id s) (local_cell_id s)
           0 ∅ false false (loadout_left0_ms s) (loadout_t0 s)
           (ticker_seq s) (current_ticker s) (last_hovered_skin_key s)
           (last_hovered_skin_id s) (last_hovered_skin_slug s) (last_hover_written s)
           (processed_action_ids s)).
Proof.
  intros th' s. subst th' s. rewrite handle_phase. cbn [fst]. unfold on_phase.
  split_and!.
  - destruct d; try done. repeat case_bool_decide; by repeat case_match.
  - destruct d; try done. repeat case_bool_decide; by repeat case_match.
  - intros Hsame. destruct d as [| ph | | | | | |]; try done.
    rewrite bool_decide_eq_true_2; [done | by apply Hsame].
  - intros ph -> Hne ->. rewrite bool_decide_eq_false_2 by done.
    by rewrite bool_decide_eq_true_2 by done.
  - intros ph -> Hne Hother. rewrite bool_decide_eq_false_2 by done.
    rewrite (bool_decide_eq_false_2 (ph = "ChampSelect")) by done.
    by case_bool_decide.
Qed.

Lemma phase_update_effect_witness :
  state (fst (_handle_api_event env0 (phase_update "Lobby") thread_all_locked)) =
    State (Some "Lobby") None None None 0 ∅ false false 0 0 None None None None None
      false ∅.
Proof.
  destruct (phase_update_effect env0 (JStr "Lobby") thread_all_locked)
    as (_ & _ & _ & _ & Hleave).
  apply (Hleave "Lobby"); [reflexivity | discriminate | discriminate].
Defined.

(** *** The sequence number *)

Lemma quiet_refl th : quiet th th.
Proof. split; [done |]. exists []. by rewrite app_nil_r. Qed.

Lemma quiet_trans th1 th2 th3 : quiet th1 th2 → quiet th2 th3 → quiet th1 th3.
Proof.
  intros (Hs1 & new1 & Ht1 & Hn1) (Hs2 & new2 & Ht2 & Hn2).
  split; [congruence |]. exists (new1 ++ new2).
  rewrite Ht2, Ht1, app_assoc, armings_app. split; [done | lia].
Qed.

Lemma quiet_foldl {A} (f : thread → A → thread) l th :
  (∀ th x, quiet th (f th x)) → quiet th (foldl f th l).
Proof.
  intros Hf. revert th. induction l as [| x l IH]; intros th; cbn.
  - apply quiet_refl.
  - eapply quiet_trans; [apply Hf | apply IH].
Qed.

Lemma quiet_say e th : is_start e = false → quiet th (say e th).
Proof.
  intros He. split; [done |]. exists [e]. split; [done |].
  unfold armings. cbn. by rewrite He.
Qed.

Lemma quiet_upd f th :
  ticker_seq (f (state th)) = ticker_seq (state th) → quiet th (upd f th).
Proof. intros Hf. split; [done |]. exists []. by rewrite app_nil_r. Qed.

Lemma on_added_quiet E N curr th c : quiet th (on_added E N curr th c).
Proof.
  unfold on_added. destruct (N !! c); [| apply quiet_refl].
  cbn zeta. cbn [say state].
  destruct (local_cell_id (state th)) as [me |]; [destruct (c =? me) |].
  - eapply quiet_trans; [eapply (quiet_say (LogLockPlus _ _ _ _)); reflexivity |].
    eapply quiet_trans; [eapply (quiet_say (LogLockChamp _ _)); reflexivity |].
    by apply quiet_upd.
  - apply quiet_say; reflexivity.
  - apply quiet_say; reflexivity.
Qed.

Lemma on_removed_quiet E curr th c : quiet th (on_removed E curr th c).
Proof. apply quiet_say; reflexivity. Qed.

Lemma derive_session_quiet E sess th : quiet th (derive_session E sess th).
Proof.
  unfold derive_session.
  apply (quiet_trans _ (derive_players sess th));
    [| apply (quiet_trans _ (derive_locks E sess (derive_players sess th)))].
  - unfold derive_players. cbn zeta.
    match goal with |- context [if ?b then _ else _] => destruct b end.
    + eapply quiet_trans; [| eapply (quiet_say (LogPlayers _)); reflexivity].
      eapply quiet_trans; by apply quiet_upd.
    + by apply quiet_upd.
  - unfold derive_locks. cbn zeta.
    set (th1 := derive_players sess th).
    set (added := sorted_difference _ _). set (removed := sorted_difference _ _).
    set (f := on_added E _ _). set (g := on_removed E _).
    apply (quiet_trans _ (foldl f th1 added));
      [apply quiet_foldl; intros; apply on_added_quiet |].
    apply (quiet_trans _ (foldl g (foldl f th1 added) removed));
      [apply quiet_foldl; intros; apply on_removed_quiet |].
    by apply quiet_upd.
  - unfold derive_all_locked. cbn zeta.
    set (th2 := derive_locks E sess _).
    destruct (_ && _ && _), (_ <? _); cbn [upd say state trace];
      try (split; [done |]; exists []; by rewrite app_nil_r);
      split; try done; eexists [_]; split; done.
Qed.







(** *** The session branch, exactly *)

Lemma on_added_exact E (N : gmap Z Z) curr th c ch :
  N !! c = Some ch →
  on_added E N curr th c =
    Thread (if bool_decide (local_cell_id (state th) = Some c)
            then set_locked_champ_id (Some ch) (state th) else state th)
           (conn th) (ticker th)
           (trace th ++ plus_lines E N (Z.of_nat (size curr)) (players_visible (state th))
                          (local_cell_id (state th)) c).
Proof.
  intros Hch. unfold on_added, plus_lines. rewrite Hch. cbn [say state trace conn ticker].
  destruct (local_cell_id (state th)) as [me |].
  - destruct (c =? me) eqn:Hc.
    + apply Z.eqb_eq in Hc as ->. rewrite !bool_decide_eq_true_2 by done.
      unfold upd. cbn. by rewrite <- app_assoc.
    + apply Z.eqb_neq in Hc. rewrite !bool_decide_eq_false_2 by congruence. done.
  - by rewrite !bool_decide_eq_false_2.
Qed.

Lemma thread_eta th : Thread (state th) (conn th) (ticker th) (trace th) = th.
Proof. by destruct th. Qed.

Lemma added_loop_exact E (N : gmap Z Z) curr l th :
  (∀ c, c ∈ l → is_Some (N !! c)) →
  foldl (on_added E N curr) th l =
    Thread (set_locked_champ_id
              (match local_cell_id (state th) with
               | Some m => if bool_decide (m ∈ l) then N !! m else locked_champ_id (state th)
               | None => locked_champ_id (state th)
               end) (state th))
           (conn th) (ticker th)
           (trace th ++ List.flat_map
                          (plus_lines E N (Z.of_nat (size curr))
                             (players_visible (state th)) (local_cell_id (state th))) l).
Proof.
  revert th. induction l as [| c l IH]; intros th Hin.
  - cbn [foldl List.flat_map]. rewrite app_nil_r.
    assert (Hv : match local_cell_id (state th) with
                 | Some m => if bool_decide (m ∈ []) then N !! m else locked_champ_id (state th)
                 | None => locked_champ_id (state th)
                 end = locked_champ_id (state th)).
    { destruct (local_cell_id (state th)); [| done].
      rewrite bool_decide_eq_false_2; [done | apply not_elem_of_nil]. }
    by rewrite Hv, set_locked_champ_id_eta, thread_eta.
  - destruct (Hin c) as [ch Hch]; [by left |].
    cbn [foldl]. rewrite (on_added_exact _ _ _ _ _ _ Hch).
    rewrite IH by (intros c' Hc'; apply Hin; by right).
    cbn [state conn ticker trace List.flat_map].
    set (s1 := if bool_decide (local_cell_id (state th) = Some c)
               then set_locked_champ_id (Some ch) (state th) else state th).
    assert (Hloc : local_cell_id s1 = local_cell_id (state th))
      by (subst s1; by destruct (bool_decide _)).
    assert (Hpv : players_visible s1 = players_visible (state th))
      by (subst s1; by destruct (bool_decide _)).
    assert (Hset : ∀ v, set_locked_champ_id v s1 = set_locked_champ_id v (state th))
      by (intros v; subst s1; by destruct (bool_decide _)).
    assert (Hlk : locked_champ_id s1 =
                  if bool_decide (local_cell_id (state th) = Some c)
                  then Some ch else locked_champ_id (state th))
      by (subst s1; by destruct (bool_decide _)).
    rewrite Hloc, Hpv, Hset, Hlk, <- app_assoc. f_equal.
    destruct (local_cell_id (state th)) as [m |] eqn:Hm;
      [| by rewrite bool_decide_eq_false_2 by done].
    destruct (decide (m = c)) as [-> | Hne].
    + rewrite (bool_decide_eq_true_2 (Some c = Some c)) by done.
      rewrite (bool_decide_eq_true_2 (c ∈ c :: l)) by (by left).
      rewrite Hch. by destruct (bool_decide (c ∈ l)).
    + rewrite (bool_decide_eq_false_2 (Some m = Some c)) by congruence.
      destruct (bool_decide (m ∈ l)) eqn:Hl.
      * apply bool_decide_eq_true in Hl.
        by rewrite (bool_decide_eq_true_2 (m ∈ c :: l)) by (by right).
      * apply bool_decide_eq_false in Hl.
        rewrite (bool_decide_eq_false_2 (m ∈ c :: l)); [done |].
        intros [-> | ?]%elem_of_cons; done.
Qed.

Lemma removed_loop_exact E curr l th :
  foldl (on_removed E curr) th l =
    Thread (state th) (conn th) (ticker th)
           (trace th ++ List.map (minus_line E (locks_by_cell (state th))
                                    (Z.of_nat (size curr)) (players_visible (state th))) l).
Proof.
  revert th. induction l as [| c l IH]; intros th.
  - cbn. by rewrite app_nil_r, thread_eta.
  - cbn [foldl]. rewrite IH. unfold on_removed at 1 2 3 4 5 6.
    cbn [say state conn ticker trace List.map]. by rewrite <- app_assoc.
Qed.

Lemma derive_session_exact E sess th :
  derive_session E sess th =
    Thread (derived_state E sess (state th)) (conn th) (ticker th)
           (trace th ++ derived_log E sess (state th)).
Proof.
  unfold derive_session.
  assert (H1 : derive_players sess th =
    Thread (set_players_visible (new_total sess (state th))
              (set_local_cell_id (match localPlayerCellId sess with
                                  | Some v => v
                                  | None => local_cell_id (state th)
                                  end) (state th)))
           (conn th) (ticker th)
           (trace th ++ if negb (Z.of_nat (size (visible_cells sess)) =? players_visible (state th))
                           && (0 <? Z.of_nat (size (visible_cells sess)))
                        then [LogPlayers (Z.of_nat (size (visible_cells sess)))] else [])).
  { unfold derive_players, new_total. cbn [upd state conn ticker trace
      set_local_cell_id players_visible].
    destruct (negb _ && _); unfold say, upd; cbn; [done |].
    rewrite app_nil_r. by destruct (state th). }
  rewrite H1. clear H1.
  set (th1 := Thread _ _ _ _).
  assert (H2 : derive_locks E sess th1 =
    Thread (set_locks_by_cell (compute_locked E sess)
              (set_locked_champ_id
                 (match local_cell_id (state th1) with
                  | Some m =>
                      if bool_decide (m ∈ sorted_difference (dom (compute_locked E sess))
                                            (dom (locks_by_cell (state th1))))
                      then compute_locked E sess !! m else locked_champ_id (state th1)
                  | None => locked_champ_id (state th1)
                  end) (state th1)))
           (conn th1) (ticker th1)
           (trace th1
            ++ List.flat_map
                 (plus_lines E (compute_locked E sess)
                    (Z.of_nat (size (dom (compute_locked E sess))))
                    (players_visible (state th1)) (local_cell_id (state th1)))
                 (sorted_difference (dom (compute_locked E sess))
                    (dom (locks_by_cell (state th1))))
            ++ List.map
                 (minus_line E (locks_by_cell (state th1))
                    (Z.of_nat (size (dom (compute_locked E sess))))
                    (players_visible (state th1)))
                 (sorted_difference (dom (locks_by_cell (state th1)))
                    (dom (compute_locked E sess))))).
  { unfold derive_locks. cbn zeta.
    rewrite added_loop_exact
      by (intros c [Hc _]%sorted_difference_elem; by apply elem_of_dom).
    rewrite removed_loop_exact. cbn [upd state conn ticker trace].
    by rewrite <- app_assoc. }
  rewrite H2. clear H2. rewrite size_dom.
  unfold derive_all_locked, derived_state, derived_log. subst th1.
  cbn [upd say state conn ticker trace set_locks_by_cell set_locked_champ_id
       set_players_visible set_local_cell_id players_visible locks_by_cell
       all_locked_announced local_cell_id locked_champ_id].
  set (fire := (0 <? new_total sess (state th))
               && (new_total sess (state th) <=? Z.of_nat (size (compute_locked E sess)))
               && negb (all_locked_announced (state th))).
  set (below := Z.of_nat (size (compute_locked E sess)) <? new_total sess (state th)).
  destruct fire, below; unfold upd, say; cbn [state conn ticker trace orb];
    rewrite <- ?app_assoc, ?app_nil_r; done.
Qed.

Lemma session_step_exact E sess th :
  fst (_handle_api_event E (session_update sess) th)
  = fst (_maybe_start_timer E sess
           (Thread (derived_state E sess (state th)) (conn th) (ticker th)
                   (trace th ++ derived_log E sess (state th)))).
Proof. rewrite handle_session. unfold on_session. by rewrite derive_session_exact. Qed.

Lemma timer_keeps_derived_fields E sess th :
  derived_fields (state (fst (_maybe_start_timer E sess th))) = derived_fields (state th).
Proof.
  pose proof (maybe_start_timer_frame E sess th) as H. cbn zeta in H.
  destruct H as (H1 & H2 & H3 & H4 & H5 & H6 & H7).
  unfold derived_fields. by rewrite H1, H2, H3, H4, H5, H6, H7.
Qed.

Lemma sorted_difference_diag (a : gset Z) : sorted_difference a a = [].
Proof.
  unfold sorted_difference. by rewrite difference_diag_L, elements_empty.
Qed.

(** Deriving again from what a derivation has left derives nothing. *)
Lemma replay_core E sess s s1 :
  derived_fields s1 = derived_fields (derived_state E sess s) →
  derived_log E sess s1 = []
  ∧ derived_fields (derived_state E sess s1) = derived_fields s1.
Proof.
  set (me := match localPlayerCellId sess with Some v => v | None => local_cell_id s end).
  set (count := Z.of_nat (size (visible_cells sess))).
  set (total := new_total sess s).
  set (N := compute_locked E sess).
  set (locked := Z.of_nat (size N)).
  set (flag := if locked <? total then false
               else (0 <? total) && (total <=? locked) && negb (all_locked_announced s)
                    || all_locked_announced s).
  intros Heq. unfold derived_fields, derived_state in Heq. cbn in Heq.
  fold me total N locked in Heq.
  injection Heq as Hph Hho Hch Hlo Hpv Hlk Hfl.
  fold flag in Hfl.
  assert (Hme : match localPlayerCellId sess with
                | Some v => v
                | None => local_cell_id s1
                end = me).
  { subst me. destruct (localPlayerCellId sess); [done | by rewrite Hlo]. }
  assert (Hcond : negb (count =? total) && (0 <? count) = false).
  { subst total. unfold new_total. fold count.
    destruct (count =? players_visible s) eqn:Hc, (0 <? count) eqn:Hp; cbn;
      rewrite ?Z.eqb_refl, ?Hc, ?Hp; done. }
  assert (Htot : new_total sess s1 = total).
  { unfold new_total. fold count. by rewrite Hpv, Hcond. }
  assert (Hfire : (0 <? total) && (total <=? locked) && negb flag = false
                  ∧ (if locked <? total then false
                     else (0 <? total) && (total <=? locked) && negb flag || flag) = flag).
  { subst flag.
    destruct (0 <? total) eqn:H0, (total <=? locked) eqn:H1, (locked <? total) eqn:H2,
             (all_locked_announced s); cbn; try done;
      rewrite ?Z.ltb_lt, ?Z.ltb_ge, ?Z.leb_le, ?Z.leb_gt in *; lia. }
  destruct Hfire as [Hfire Hflag].
  split.
  - unfold derived_log. fold count. rewrite Hme, Htot, Hpv, Hlk, Hfl, Hcond. fold N locked.
    by rewrite Hfire, !sorted_difference_diag.
  - unfold derived_fields, derived_state. cbn. rewrite Hme, Htot, Hlk, Hfl. fold N locked.
    rewrite Hflag, sorted_difference_diag, ?Hlo, ?Hpv.
    repeat f_equal. destruct me; [| done].
    rewrite bool_decide_eq_false_2; [done | apply not_elem_of_nil].
Qed.

(** X8.  A session update that arrives a second time derives nothing new:
    handled again right after itself, it leaves the phase, the hovered and
    the locked champion, the local slot, the visible player count, the lock
    map and the all-locked flag as they are, and writes nothing but what the
    timer does (polls, sleeps, the lock, the accesses to the epoch fields, a
    start). *)
Theorem session_replay_derives_nothing E sess th :
  let th1 := fst (_handle_api_event E (session_update sess) th) in
  let th2 := fst (_handle_api_event E (session_update sess) th1) in
  derived_fields (state th2) = derived_fields (state th1)
  ∧ Forall (fun e => is_timer_event e = true) (emitted th1 th2).
Proof.
  intros th1 th2.
  assert (H1 : derived_fields (state th1) = derived_fields (derived_state E sess (state th))).
  { subst th1. by rewrite session_step_exact, timer_keeps_derived_fields. }
  destruct (replay_core E sess (state th) (state th1) H1) as [Hlog Hst].
  subst th2. rewrite session_step_exact, Hlog, app_nil_r.
  split.
  - by rewrite timer_keeps_derived_fields.
  - destruct (maybe_start_timer_trace E sess
                (Thread (derived_state E sess (state th1)) (conn th1) (ticker th1)
                        (trace th1))) as (new & Htr & Hnew).
    cbn [trace] in Htr. by rewrite (emitted_app _ _ _ Htr).
Qed.

(** X9.  The champion of the local player is recorded when the local slot
    becomes locked: if the local slot, as the update gives it or else as
    stored, is a key of the new lock map and no key of the stored one,
    [locked_champ_id] becomes its champion and the "lock:champ" line is
    written; in every other case the update leaves [locked_champ_id] as it
    is. *)
Theorem local_lock_is_recorded E sess th :
  let th' := fst (_handle_api_event E (session_update sess) th) in
  let N := compute_locked E sess in
  let P := locks_by_cell (state th) in
  let me := match localPlayerCellId sess with
            | Some v => v
            | None => local_cell_id (state th)
            end in
  (∀ m ch, me = Some m → P !! m = None → N !! m = Some ch →
     locked_champ_id (state th') = Some ch
     ∧ LogLockChamp (lock_label E ch) ch ∈ emitted th th')
  ∧ ((∀ m, me = Some m → is_Some (P !! m) ∨ N !! m = None) →
     locked_champ_id (state th') = locked_champ_id (state th)).
Proof.
  intros th' N P me.
  assert (Hlocked : locked_champ_id (state th') =
                    match me with
                    | Some m => if bool_decide (m ∈ sorted_difference (dom N) (dom P))
                                then N !! m else locked_champ_id (state th)
                    | None => locked_champ_id (state th)
                    end).
  { subst th'. rewrite session_step_exact.
    pose proof (timer_keeps_derived_fields E sess
                  (Thread (derived_state E sess (state th)) (conn th) (ticker th)
                          (trace th ++ derived_log E sess (state th)))) as Hd.
    unfold derived_fields in Hd. injection Hd as _ _ Hd _ _ _ _. by rewrite Hd. }
  split.
  - intros m ch Hme HP HN.
    assert (Hin : m ∈ sorted_difference (dom N) (dom P)).
    { apply sorted_difference_elem. split; [by apply elem_of_dom | by apply not_elem_of_dom]. }
    split; [by rewrite Hlocked, Hme, bool_decide_eq_true_2, HN |].
    subst th'. rewrite session_step_exact.
    destruct (maybe_start_timer_trace E sess
                (Thread (derived_state E sess (state th)) (conn th) (ticker th)
                        (trace th ++ derived_log E sess (state th)))) as (new & Htr & _).
    cbn [trace] in Htr. rewrite <- app_assoc in Htr. rewrite (emitted_app _ _ _ Htr).
    apply elem_of_app. left. unfold derived_log. fold N P me.
    apply elem_of_app. right. apply elem_of_app. left.
    apply list_elem_of_In, List.in_flat_map. exists m.
    split; [by apply list_elem_of_In |].
    unfold plus_lines. rewrite HN, Hme, bool_decide_eq_true_2 by done.
    right. by left.
  - intros Hnot. rewrite Hlocked. destruct me as [m |]; [| done].
    rewrite bool_decide_eq_false_2; [done |].
    intros [HinN HninP]%sorted_difference_elem.
    destruct (Hnot m eq_refl) as [HP | HN].
    + by apply HninP, elem_of_dom.
    + by apply not_elem_of_dom in HN.
Qed.

Lemma local_lock_is_recorded_witness :
  locked_champ_id
    (state (fst (_handle_api_event env0 (session_update (three_players [0])) thread0)))
  = Some 266.
Proof.
  destruct (local_lock_is_recorded env0 (three_players [0]) thread0) as (Hrec & _).
  apply (Hrec 0 266); reflexivity.
Defined.

(** X10.  Every "+1" and "-1" line of a session update shows the same two
    counts: the number of slots in the new lock map, not a running count,
    and the visible player count as the update has just stored it. *)
Theorem lock_lines_show_new_counts E sess th :
  let th' := fst (_handle_api_event E (session_update sess) th) in
  Forall (lock_line_shows (Z.of_nat (size (compute_locked E sess)))
            (players_visible (state th')))
         (emitted th th').
Proof.
  intros th'.
  assert (Hpv : players_visible (state th') = new_total sess (state th)).
  { destruct (session_update_spec E sess th) as (? & _ & _ & _ & _ & _ & Hpv & _).
    exact Hpv. }
  rewrite Hpv. subst th'. rewrite session_step_exact.
  destruct (maybe_start_timer_trace E sess
              (Thread (derived_state E sess (state th)) (conn th) (ticker th)
                      (trace th ++ derived_log E sess (state th)))) as (new & Htr & Hnew).
  cbn [trace] in Htr. rewrite <- app_assoc in Htr. rewrite (emitted_app _ _ _ Htr).
  apply Forall_app. split.
  - unfold derived_log. repeat apply Forall_app_2.
    + destruct (_ && _); by repeat constructor.
    + apply Forall_forall. intros e He.
      apply list_elem_of_In, List.in_flat_map in He as (c & _ & He).
      unfold plus_lines in He. destruct (compute_locked E sess !! c); [| done].
      destruct He as [<- | He]; [done |].
      destruct (bool_decide _); [| done]. by destruct He as [<- | []].
    + apply Forall_forall. intros e He.
      apply list_elem_of_In, List.in_map_iff in He as (c & <- & _). done.
    + destruct (_ && _ && _); by repeat constructor.
  - eapply Forall_impl; [exact Hnew |]. by intros [].
Qed.

(** *** Hover, phase and the frames *)

Lemma handle_hover E d th :
  _handle_api_event E (Payload (Some hover_uri) d) th = (on_hover E d th, Normal).
Proof. reflexivity. Qed.

(** X11.  Hover updates are deduplicated and never clear the hover.  The
    data is read with [int]: a number is cut to an integer, a boolean is 0 or
    1, a string is parsed.  When it reads as an id that is not zero and
    differs from the stored one, that id is stored and one line is written.
    In every other case (no data, data that [int] refuses, zero, the stored
    id) nothing changes.  The same update handled again changes nothing and
    writes no second line, and an update never writes another field than
    [hovered_champ_id]. *)
Theorem hover_update_dedupes E d th :
  let th1 := fst (_handle_api_event E (Payload (Some hover_uri) d) th) in
  fst (_handle_api_event E (Payload (Some hover_uri) d) th1) = th1
  ∧ state th1 = set_hovered_champ_id (hovered_champ_id (state th1)) (state th)
  ∧ (hover_id d = None ∨ hover_id d = Some 0 ∨ hover_id d = hovered_champ_id (state th) →
     th1 = th)
  ∧ (∀ cid, hover_id d = Some cid → cid ≠ 0 → Some cid ≠ hovered_champ_id (state th) →
       hovered_champ_id (state th1) = Some cid
       ∧ emitted th th1 = [LogHover (match NameDB.champ_name (db E) cid with
                                     | Some (String a r) => Name (String a r)
                                     | _ => ChampFallback cid
                                     end) cid]).
Proof.
  intros th1. subst th1. rewrite !handle_hover. cbn [fst].
  assert (Heta : state th = set_hovered_champ_id (hovered_champ_id (state th)) (state th))
    by (by destruct (state th)).
  unfold on_hover at 2 3 4 5 6 7.
  destruct (hover_id d) as [cid |] eqn:Hid;
    [| unfold on_hover; rewrite Hid; split_and!; [done | done | done | by intros]].
  destruct (negb (cid =? 0) && negb (bool_decide (Some cid = hovered_champ_id (state th))))
    eqn:Hcond.
  - apply andb_true_iff in Hcond as [Hnz Hne].
    assert (Hnz' : cid ≠ 0) by (by apply negb_true_iff, Z.eqb_neq in Hnz).
    assert (Hne' : Some cid ≠ hovered_champ_id (state th))
      by (by apply negb_true_iff, bool_decide_eq_false in Hne).
    split_and!.
    + unfold on_hover. rewrite Hid. cbn [upd say state].
      rewrite bool_decide_eq_true_2 by done. by rewrite andb_false_r.
    + done.
    + intros [? | [[= ?] | ?]]; congruence.
    + intros ? [= <-] _ _. split; [done |].
      unfold on_hover. rewrite Hid, Hnz, Hne. by apply emitted_app.
  - unfold on_hover. rewrite Hid, Hcond. split_and!; [done | done | done |].
    intros ? [= <-] Hnz Hne. exfalso.
    apply andb_false_iff in Hcond as [Hc | Hc].
    + apply negb_false_iff, Z.eqb_eq in Hc. done.
    + apply negb_false_iff, bool_decide_eq_true in Hc. done.
Qed.

Lemma hover_update_dedupes_witness :
  hovered_champ_id
    (state (fst (_handle_api_event env0
                   (Payload (Some hover_uri) (JFloat (Finite 533 (-1)))) thread0)))
  = Some 266.
Proof.
  destruct (hover_update_dedupes env0 (JFloat (Finite 533 (-1))) thread0)
    as (_ & _ & _ & Hset).
  apply (Hset 266); [reflexivity | discriminate | discriminate].
Defined.

(** What [int] makes of hover data: 12.5 is cut to 12, [true] is 1, "1_0" is
    10, and an infinity is refused. *)
Example hover_id_reads_like_int :
  hover_id (JFloat (Finite 25 (-1))) = Some 12
  ∧ hover_id (JBool true) = Some 1
  ∧ hover_id (JStr "1_0") = Some 10
  ∧ hover_id (JFloat NotFinite) = None.
Proof. vm_compute. repeat split. Qed.

(** X12.  Phase updates are deduplicated: the same phase update handled
    again right after itself changes nothing, so that the resets of the
    phase change are applied once, and afterwards the stored phase is the
    string that arrived. *)
Theorem phase_update_dedupes E d th :
  let th1 := fst (_handle_api_event E (Payload (Some phase_uri) d) th) in
  fst (_handle_api_event E (Payload (Some phase_uri) d) th1) = th1
  ∧ ∀ ph, d = JStr ph → phase (state th1) = Some ph.
Proof.
  intros th1. subst th1. rewrite !handle_phase. cbn [fst].
  destruct d as [| ph | | | | | |]; try (split; [done | intros; discriminate]).
  assert (Hph : phase (state (on_phase (JStr ph) th)) = Some ph).
  { unfold on_phase. case_bool_decide as Hsame; [done |].
    repeat case_bool_decide; done. }
  split; [| by intros ? [= <-]].
  unfold on_phase at 1. by rewrite bool_decide_eq_true_2.
Qed.

Lemma phase_update_dedupes_witness :
  phase (state (fst (_handle_api_event env0 (phase_update "ChampSelect") thread0)))
  = Some "ChampSelect".
Proof.
  by apply (phase_update_dedupes env0 (JStr "ChampSelect") thread0).
Defined.

(** X13.  Which frames reach the handler, and which leave the thread as it
    is.  A frame that does not parse, a value that is neither list nor
    object, a list that is shorter than three, whose head is not equal to 8
    or that has no object in third place, and an event whose key is none of
    the three routed ones are dropped without a trace.  A list of three or
    more whose head equals 8, as the integer or as the float 8.0, hands its
    third item to the handler.  A session event whose data is no object is
    dropped when the data is truthy, the exception being swallowed; data that
    is falsy (null, false, 0, 0.0, the empty string, the empty list) is
    handled as an update with the empty object. *)
Theorem unrouted_frames_are_dropped E th :
  _on_message E MsgInvalid th = th
  ∧ _on_message E MsgOther th = th
  ∧ (∀ items,
       (List.length items < 3)%nat
       ∨ (∀ h, items !! 0%nat = Some h → is_eight h = false)
       ∨ (∀ p, items !! 2%nat ≠ Some (ItemDict p)) →
       _on_message E (MsgList items) th = th)
  ∧ (∀ h i p rest,
       is_eight h = true →
       _on_message E (MsgList (h :: i :: ItemDict p :: rest)) th
       = fst (_handle_api_event E p th))
  ∧ (∀ m p,
       routed m = Some p →
       uri p ∉ [Some phase_uri; Some hover_uri; Some session_uri] →
       _on_message E m th = th)
  ∧ (∀ m p,
       routed m = Some p → uri p = Some session_uri → (∀ sess, data p ≠ JSession sess) →
       _on_message E m th
       = if truthy (data p) then th
         else fst (_handle_api_event E (session_update empty_session) th)).
Proof.
  assert (Hrouted : ∀ m p, routed m = Some p →
            _on_message E m th = fst (_handle_api_event E p th)).
  { intros m p Hr. unfold routed in Hr. unfold _on_message.
    repeat case_match; by simplify_eq. }
  split_and!; try done.
  - intros items Hbad. unfold _on_message.
    destruct items as [| i0 [| i1 [| i2 rest]]]; try done.
    destruct i2 as [z2 | x2 | p |]; try done.
    destruct (is_eight i0) eqn:H8; [| done].
    exfalso. destruct Hbad as [Hlen | [H0 | H2]].
    + cbn in Hlen. lia.
    + by rewrite (H0 i0 eq_refl) in H8.
    + by apply (H2 p).
  - intros h i p rest H8. cbn. by rewrite H8.
  - intros m p Hr Huri. rewrite (Hrouted m p Hr). unfold _handle_api_event.
    destruct (uri p) as [[| a u] |]; try done.
    repeat case_bool_decide; try done; subst; exfalso; apply Huri; set_solver.
  - intros m p Hr Huri Hdata. rewrite (Hrouted m p Hr). unfold _handle_api_event.
    rewrite Huri. cbn [bool_decide decide_rel]. cbn.
    unfold as_session. destruct (data p) eqn:Hd; try (by destruct (truthy _)).
    by destruct (Hdata s).
Qed.

Lemma unrouted_frames_are_dropped_witness :
  _on_message env0 (MsgList [ItemFloat (Finite 1 3); ItemOther; ItemDict (Payload None JNull)])
    thread0 = thread0
  ∧ locks_by_cell
      (state (_on_message env0
                (MsgList [ItemFloat (Finite 1 3); ItemOther;
                          ItemDict (Payload (Some session_uri) (JInt 0))])
                thread_all_locked)) = ∅.
Proof.
  destruct (unrouted_frames_are_dropped env0 thread0) as (_ & _ & _ & _ & Hother & _).
  destruct (unrouted_frames_are_dropped env0 thread_all_locked)
    as (_ & _ & _ & _ & _ & Hfalsy).
  split.
  - apply (Hother _ (Payload None JNull)); [reflexivity |]. vm_compute. set_solver.
  - rewrite (Hfalsy _ (Payload (Some session_uri) (JInt 0))); [| reflexivity .. | discriminate].
    reflexivity.
Defined.

(** *** Arming, the ticker and runs of events *)



(** X15.  When the probe asks the session endpoint and gets something that is
    no object, the handler raises, and what was derived before stays: the
    lock map is the new one, no countdown is armed, and the epoch fields and
    the ticker are as they were. *)
Theorem probe_exception_keeps_derivations E sess th :
  snd (_handle_api_event E (session_update sess) th) = Exception →
  let th' := fst (_handle_api_event E (session_update sess) th) in
  state th' = derived_state E sess (state th)
  ∧ locks_by_cell (state th') = compute_locked E sess
  ∧ epoch_fields (state th') = epoch_fields (state th)
  ∧ ticker th' = ticker th
  ∧ armings (emitted th th') = 0%nat.
Proof.
  rewrite handle_session. unfold on_session. rewrite derive_session_exact.
  set (d1 := Thread _ _ _ _). unfold _maybe_start_timer.
  destruct (should_start_spec E sess d1) as (Hs & Hk & new & Htr & Hnew).
  destruct (should_start_of E sess d1) as [[[[] l] |] th2]; cbn [fst snd] in *;
    try discriminate.
  intros _. rewrite Hs, Hk. subst d1. cbn [state ticker trace] in *.
  split_and!; try done.
  rewrite <- app_assoc in Htr. rewrite (emitted_app _ _ _ Htr), armings_app.
  assert (armings new = 0%nat) as ->.
  { apply count_if_none. eapply Forall_impl; [exact Hnew |]. by intros []. }
  assert (armings (derived_log E sess (state th)) = 0%nat) as ->; [| done].
  apply count_if_none. unfold derived_log. repeat apply Forall_app_2.
  - destruct (_ && _); by repeat constructor.
  - apply Forall_forall. intros e He.
    apply list_elem_of_In, List.in_flat_map in He as (c & _ & He).
    unfold plus_lines in He. destruct (compute_locked E sess !! c); [| done].
    destruct He as [<- | He]; [done |].
    destruct (bool_decide _); [| done]. by destruct He as [<- | []].
  - apply Forall_forall. intros e He.
    by apply list_elem_of_In, List.in_map_iff in He as (c & <- & _).
  - destruct (_ && _ && _); by repeat constructor.
Qed.

Lemma probe_exception_keeps_derivations_witness :
  locks_by_cell
    (state (fst (_handle_api_event env_garbled
                   (session_update (three_players [0; 1; 2])) thread0)))
  = acting_slots_locked (three_players [0; 1; 2]).
Proof.
  apply (probe_exception_keeps_derivations env_garbled (three_players [0; 1; 2]) thread0).
  reflexivity.
Defined.



(** One session update and the epoch: it arms nothing and leaves the epoch
    as it is, or it arms once, from inactive to active. *)
Lemma session_step_epoch E sess th :
  ∃ new, trace (session_step E th sess) = trace th ++ new
    ∧ ((armings new = 0%nat
        ∧ epoch_fields (state (session_step E th sess)) = epoch_fields (state th))
       ∨ (armings new = 1%nat
          ∧ loadout_countdown_active (state th) = false
          ∧ loadout_countdown_active (state (session_step E th sess)) = true)).
Proof.
  unfold session_step. rewrite handle_session. unfold on_session, _maybe_start_timer.
  pose proof (derive_session_quiet E sess th) as (_ & new0 & Htr0 & Hn0).
  assert (He0 : epoch_fields (state (derive_session E sess th)) = epoch_fields (state th))
    by (by rewrite derive_session_exact).
  set (d1 := derive_session E sess th) in *. clearbody d1.
  destruct (should_start_spec E sess d1) as (Hs & _ & new1 & Htr1 & Hnew1).
  assert (Hn1 : armings new1 = 0%nat).
  { apply count_if_none. eapply Forall_impl; [exact Hnew1 |]. by intros []. }
  destruct (should_start_of E sess d1) as [[[[] l] |] th2]; cbn [fst snd] in *.
  - destruct (arm_trace_exact E (phase_timer_of sess) l th2) as (body & Htr2 & Hbody).
    pose proof (arm_state E (phase_timer_of sess) l th2) as Hst.
    exists (new0 ++ new1 ++ AcquireTimerLock :: body ++ [ReleaseTimerLock]).
    rewrite Htr2, Htr1, Htr0, <- !app_assoc. split; [done |].
    change (AcquireTimerLock :: body ++ [ReleaseTimerLock])
      with ([AcquireTimerLock] ++ body ++ [ReleaseTimerLock]).
    rewrite !armings_app, Hn0, Hn1, Hst.
    assert (Hact : loadout_countdown_active (state th2) = loadout_countdown_active (state th)).
    { rewrite Hs. unfold epoch_fields in He0. by injection He0. }
    destruct (loadout_countdown_active (state th2)) eqn:Ha.
    + left. subst body. by rewrite Hs.
    + right. destruct Hbody as (rest & -> & [-> | ->]); by rewrite <- Hact.
  - exists (new0 ++ new1). rewrite Htr1, Htr0, <- app_assoc, armings_app, Hn0, Hn1, Hs.
    split; [done | by left].
  - exists (new0 ++ new1). rewrite Htr1, Htr0, <- app_assoc, armings_app, Hn0, Hn1, Hs.
    split; [done | by left].
Qed.

(** X17.  Session updates alone arm at most one countdown: over any sequence
    of session updates at most one start line is written, and when a
    countdown is already active none is, and the epoch fields stay as they
    are. *)
Theorem one_arming_per_run_of_sessions E l th :
  (armings (emitted th (run_sessions E l th)) ≤ 1)%nat
  ∧ (loadout_countdown_active (state th) = true →
     armings (emitted th (run_sessions E l th)) = 0%nat
     ∧ epoch_fields (state (run_sessions E l th)) = epoch_fields (state th)).
Proof.
  assert (Hactive : ∀ l th, loadout_countdown_active (state th) = true →
            ∃ new, trace (run_sessions E l th) = trace th ++ new
                   ∧ armings new = 0%nat
                   ∧ epoch_fields (state (run_sessions E l th)) = epoch_fields (state th)).
  { clear l th. induction l as [| sess l IH]; intros th Hact.
    - exists []. by rewrite app_nil_r.
    - rewrite run_sessions_cons.
      destruct (session_step_epoch E sess th) as (new1 & Htr1 & [[Hn1 He1] | [_ [Hf _]]]);
        [| congruence].
      destruct (IH (session_step E th sess)) as (new2 & Htr2 & Hn2 & He2).
      { unfold epoch_fields in He1. injection He1 as -> _ _ _ _. done. }
      exists (new1 ++ new2). rewrite Htr2, Htr1, <- app_assoc, armings_app, Hn1, Hn2, He2.
      done. }
  assert (Hany : ∀ l th, ∃ new, trace (run_sessions E l th) = trace th ++ new
                                ∧ (armings new ≤ 1)%nat).
  { clear l th. induction l as [| sess l IH]; intros th.
    - exists []. rewrite app_nil_r. split; [done | cbn; lia].
    - rewrite run_sessions_cons.
      destruct (session_step_epoch E sess th) as (new1 & Htr1 & [[Hn1 _] | [Hn1 [_ Ht]]]).
      + destruct (IH (session_step E th sess)) as (new2 & Htr2 & Hn2).
        exists (new1 ++ new2). rewrite Htr2, Htr1, <- app_assoc, armings_app, Hn1.
        split; [done | lia].
      + destruct (Hactive l (session_step E th sess) Ht) as (new2 & Htr2 & Hn2 & _).
        exists (new1 ++ new2). rewrite Htr2, Htr1, <- app_assoc, armings_app, Hn1, Hn2.
        split; [done | lia]. }
  split.
  - destruct (Hany l th) as (new & Htr & Hn). by rewrite (emitted_app _ _ _ Htr).
  - intros Hact. destruct (Hactive l th Hact) as (new & Htr & Hn & He).
    by rewrite (emitted_app _ _ _ Htr).
Qed.

Lemma one_arming_per_run_of_sessions_witness :
  let th := fst (_handle_api_event env0 (session_update (session_timer "FINALIZATION" 5000))
                   thread0) in
  armings (emitted th (run_sessions env0 all_locked_twice th)) = 0%nat.
Proof.
  apply (one_arming_per_run_of_sessions env0 all_locked_twice). reflexivity.
Defined.

End WS_facts.

(** ** The name database *)

Module NameDB_facts.
Import NameDB.

(** A skin file of Aatrox in the cache, read with the network down. *)
Example cached_skins :
  let doc := DocChampion
               [("Aatrox", [SkinObj (SStr "266000") (SStr "default") (SInt 0);
                            SkinObj (SStr "266001") (SStr "Justicar Aatrox") (SInt 1);
                            SkinObj SNull (SStr "Broken") (SInt 2)])] in
  let w := World {[ "champ_Aatrox_14.1.1_en_US.json" := Readable doc ]} ∅ false in
  fst (fst (candidates_for_champ (Some 266) db_aatrox w)) =
    Ok [MkEntry "Aatrox" Champion "Aatrox" 266 None;
        MkEntry "Aatrox Justicar Aatrox" Skin "Aatrox" 266 (Some 266001);
        MkEntry "Justicar Aatrox" Skin "Aatrox" 266 (Some 266001)].
Proof. vm_compute. reflexivity. Qed.

(** A readable cache file is answered from, without a request. *)
Lemma cache_json_cached name url w d :
  files w !! name = Some (Readable d) → _cache_json name url w = (Ok d, w).
Proof. unfold _cache_json. by intros ->. Qed.

Lemma cache_json_offline name url : _cache_json name url offline = (Raise, offline).
Proof. reflexivity. Qed.

Lemma lang_steps_offline db slug cid a l :
  foldl (lang_step db slug cid) (a, offline) l = (a, offline).
Proof.
  induction l as [| lang l IH]; [done |].
  cbn [foldl]. unfold lang_step at 2. by rewrite cache_json_offline.
Qed.

Lemma ensure_champ_spec slug cid db w :
  let r := _ensure_champ slug cid db w in
  index_of (fst r) = index_of db
  ∧ _global_entries (fst r) = _global_entries db
  ∧ slug ∈ _skins_loaded (fst r)
  ∧ (slug ∈ _skins_loaded db → r = (db, w)).
Proof.
  unfold _ensure_champ. case_bool_decide as Hin; cbn zeta; [done |].
  destruct (foldl _ _ _) as [a w']. cbn. split_and!; [done | done | set_solver | done].
Qed.

(** **** The documents a lookup works from *)

Lemma length_append (s1 s2 : string) :
  String.length (s1 +:+ s2) = (String.length s1 + String.length s2)%nat.
Proof.
  induction s1 as [| a s1 IH]; [done |].
  change (String a s1 +:+ s2) with (String a (s1 +:+ s2)). cbn. by rewrite IH.
Qed.

Lemma append_cancel_r (s1 s2 t : string) : s1 +:+ t = s2 +:+ t → s1 = s2.
Proof.
  revert s2. induction s1 as [| a s1 IH]; intros [| b s2] H; [done | | |].
  - apply (f_equal String.length) in H. rewrite !length_append in H. cbn in H. lia.
  - apply (f_equal String.length) in H. rewrite !length_append in H. cbn in H. lia.
  - change (String a (s1 +:+ t) = String b (s2 +:+ t)) in H.
    injection H as -> H. by rewrite (IH _ H).
Qed.

Lemma skin_file_inj db slug lang lang' :
  skin_file db slug lang = skin_file db slug lang' → lang = lang'.
Proof.
  unfold skin_file. intros H. repeat apply String.app_inj in H.
  by apply append_cancel_r in H.
Qed.

Lemma cache_json_available name url w :
  fst (_cache_json name url w)
  = match available w name url with Some d => Ok d | None => Raise end.
Proof.
  unfold _cache_json, available.
  destruct (files w !! name) as [[| d] |]; try done;
    destruct (remote w !! url), (writable w); done.
Qed.

(** One call of [_cache_json] for a language, seen from every language. *)
Lemma cache_step db slug lang0 w :
  let w1 := snd (_cache_json (skin_file db slug lang0) (skin_url db slug lang0) w) in
  (∀ lang, available w1 (skin_file db slug lang) (skin_url db slug lang)
           = available w (skin_file db slug lang) (skin_url db slug lang))
  ∧ (∀ n d, files w !! n = Some (Readable d) → files w1 !! n = Some (Readable d))
  ∧ (∀ d, available w (skin_file db slug lang0) (skin_url db slug lang0) = Some d →
          files w1 !! skin_file db slug lang0 = Some (Readable d))
  ∧ ((∃ d, files w !! skin_file db slug lang0 = Some (Readable d)) → w1 = w).
Proof.
  cbn zeta.
  assert (Hfetch : ∀ d,
            (∀ d0, files w !! skin_file db slug lang0 ≠ Some (Readable d0)) →
            remote w !! skin_url db slug lang0 = Some d → writable w = true →
            let w1 := World (<[skin_file db slug lang0 := Readable d]> (files w))
                        (remote w) (writable w) in
            (∀ lang, available w1 (skin_file db slug lang) (skin_url db slug lang)
                     = available w (skin_file db slug lang) (skin_url db slug lang))
            ∧ (∀ n d', files w !! n = Some (Readable d') →
                       files w1 !! n = Some (Readable d'))
            ∧ (∀ d', available w (skin_file db slug lang0) (skin_url db slug lang0)
                     = Some d' →
                     files w1 !! skin_file db slug lang0 = Some (Readable d'))
            ∧ ((∃ d', files w !! skin_file db slug lang0 = Some (Readable d')) → w1 = w)).
  { intros d Hno Hr Hw. cbn zeta. unfold available. cbn [files remote writable].
    split_and!.
    - intros lang. destruct (decide (lang = lang0)) as [-> | Hne].
      + rewrite lookup_insert_eq, Hr, Hw.
        destruct (files w !! skin_file db slug lang0) as [[| d0] |] eqn:Hf0; try done.
        by destruct (Hno d0).
      + rewrite lookup_insert_ne; [done |]. intros H. apply skin_file_inj in H.
        by apply Hne.
    - intros n d' Hn. rewrite lookup_insert_ne; [done |]. intros <-. by destruct (Hno d').
    - intros d' Hd'. rewrite lookup_insert_eq.
      destruct (files w !! skin_file db slug lang0) as [[| d0] |] eqn:Hf0;
        try (by destruct (Hno d0)); rewrite Hw, Hr in Hd'; by injection Hd' as ->.
    - intros [d' Hd']. by destruct (Hno d'). }
  assert (Hsame : let w1 := w in
            (∀ lang, available w1 (skin_file db slug lang) (skin_url db slug lang)
                     = available w (skin_file db slug lang) (skin_url db slug lang))
            ∧ (∀ n d', files w !! n = Some (Readable d') →
                       files w1 !! n = Some (Readable d'))) by done.
  unfold _cache_json.
  destruct (files w !! skin_file db slug lang0) as [[| d0] |] eqn:Hf0.
  - destruct (remote w !! skin_url db slug lang0) as [d |] eqn:Hr;
      [destruct (writable w) eqn:Hw |]; cbn [snd].
    + apply Hfetch; [intros d0; by rewrite ?Hf0 | done | done].
    + split_and!; [done | done | | by intros [? [=]]].
      intros d'. unfold available. by rewrite Hf0, Hw.
    + split_and!; [done | done | | by intros [? [=]]].
      intros d'. unfold available. rewrite Hf0, Hr. by destruct (writable w).
  - cbn [snd]. split_and!; [done | done | | done].
    intros d'. unfold available. rewrite Hf0. by intros [= ->].
  - destruct (remote w !! skin_url db slug lang0) as [d |] eqn:Hr;
      [destruct (writable w) eqn:Hw |]; cbn [snd].
    + apply Hfetch; [intros d0; by rewrite ?Hf0 | done | done].
    + split_and!; [done | done | | by intros [? [=]]].
      intros d'. unfold available. by rewrite Hf0, Hw.
    + split_and!; [done | done | | by intros [? [=]]].
      intros d'. unfold available. rewrite Hf0, Hr. by destruct (writable w).
Qed.

Lemma lang_step_available db slug cid a w lang :
  lang_step db slug cid (a, w) lang
  = (apply_doc db slug cid a lang
       (available w (skin_file db slug lang) (skin_url db slug lang)),
     snd (_cache_json (skin_file db slug lang) (skin_url db slug lang) w)).
Proof.
  unfold lang_step.
  change ("champ_" +:+ slug +:+ "_" +:+ ver db +:+ "_" +:+ lang +:+ ".json")
    with (skin_file db slug lang).
  change ("https://ddragon.leagueoflegends.com/cdn/" +:+ ver db +:+ "/data/" +:+ lang
          +:+ "/champion/" +:+ slug +:+ ".json") with (skin_url db slug lang).
  pose proof (cache_json_available (skin_file db slug lang) (skin_url db slug lang) w) as H.
  destruct (_cache_json _ _ w) as [r w1]. cbn [fst snd] in *. subst r.
  by destruct (available w _ _) as [[data |] |].
Qed.

(** The loop over the languages works from the documents that are there when
    the lookup begins, caches each one it fetches, and changes no file that
    can be read. *)
Lemma lang_steps_available db slug cid l a w :
  let r := foldl (lang_step db slug cid) (a, w) l in
  fst r = foldl (fun a lang =>
                   apply_doc db slug cid a lang
                     (available w (skin_file db slug lang) (skin_url db slug lang))) a l
  ∧ (∀ lang, available (snd r) (skin_file db slug lang) (skin_url db slug lang)
             = available w (skin_file db slug lang) (skin_url db slug lang))
  ∧ (∀ n d, files w !! n = Some (Readable d) → files (snd r) !! n = Some (Readable d))
  ∧ (∀ lang d, lang ∈ l →
       available w (skin_file db slug lang) (skin_url db slug lang) = Some d →
       files (snd r) !! skin_file db slug lang = Some (Readable d))
  ∧ ((∀ lang, lang ∈ l → ∃ d, files w !! skin_file db slug lang = Some (Readable d)) →
     snd r = w).
Proof.
  revert a w. induction l as [| lang0 l IH]; intros a w; cbn zeta.
  { split_and!; try done. intros lang d H. by apply elem_of_nil in H. }
  cbn [foldl]. rewrite lang_step_available.
  destruct (cache_step db slug lang0 w) as (Hav & Hkeep & Hfill & Hsame).
  set (w1 := snd (_cache_json _ _ w)) in *.
  destruct (IH (apply_doc db slug cid a lang0
                  (available w (skin_file db slug lang0) (skin_url db slug lang0))) w1)
    as (H1 & H2 & H3 & H4 & H5).
  split_and!.
  - rewrite H1. clear -Hav. generalize (apply_doc db slug cid a lang0
      (available w (skin_file db slug lang0) (skin_url db slug lang0))).
    induction l as [| x l IHl]; intros b; [done |]. cbn [foldl]. by rewrite Hav, IHl.
  - intros lang. by rewrite H2, Hav.
  - intros n d Hn. by apply H3, Hkeep.
  - intros lang d Hin Hd. apply elem_of_cons in Hin as [-> | Hin].
    + by apply H3, Hfill.
    + apply H4; [done |]. by rewrite Hav.
  - intros Hall. rewrite H5.
    + apply Hsame, Hall, list_elem_of_here.
    + intros lang Hin. destruct (Hall lang) as (d & Hd); [by apply list_elem_of_further |].
      exists d. by apply Hkeep.
Qed.

(** **** The entries that the documents give *)

Lemma add_label_keeps slug cid sid a label e :
  e ∈ out a → e ∈ out (add_label slug cid sid a label).
Proof.
  intros He. unfold add_label. case_bool_decide; [done |]. cbn.
  apply elem_of_app. by left.
Qed.

Lemma add_label_labelled slug cid sid a label :
  labelled cid a →
  labelled cid (add_label slug cid sid a label)
  ∧ label ∈ keys_seen (add_label slug cid sid a label).
Proof.
  intros Ha. unfold add_label. case_bool_decide as Hin; [by split |]. cbn. split; [| set_solver].
  intros k Hk. apply elem_of_union in Hk as [Hk | Hk].
  - apply elem_of_singleton in Hk as ->.
    exists (MkEntry label Skin slug cid (Some sid)). split; [| done].
    apply elem_of_app. right. apply list_elem_of_here.
  - destruct (Ha k Hk) as (e & He & Hkey). exists e. split; [| done].
    apply elem_of_app. by left.
Qed.

Lemma skin_step_keeps cname slug cid a s e :
  e ∈ out a → e ∈ out (skin_step cname slug cid a s).
Proof.
  intros He. unfold skin_step. repeat case_match; try done; cbn [foldl];
    repeat apply add_label_keeps; by repeat case_match.
Qed.

Lemma skin_step_labelled cname slug cid a s :
  labelled cid a → labelled cid (skin_step cname slug cid a s).
Proof.
  intros Ha. unfold skin_step.
  destruct (int_of (id_field s)) as [sid |]; [| done].
  destruct (name_of (name_field s)) as [sname |]; [| done].
  destruct (num_of (num_field s)) as [num |]; [| done].
  set (a1 := if sid =? 0 then a else _).
  assert (Ha1 : labelled cid a1) by (subst a1; by destruct (sid =? 0)).
  clearbody a1. destruct (_ || _); [done |]. cbn [foldl].
  by apply add_label_labelled, add_label_labelled.
Qed.

Lemma skin_step_lists cname slug cid a s sname :
  labelled cid a → listed_skin s sname →
  ∃ e, e ∈ out (skin_step cname slug cid a s)
       ∧ key e = sname ∧ entry_kind e = Skin ∧ champ_id e = cid.
Proof.
  intros Ha ([sid Hsid] & Hname & Hne & num & Hnum & Hnz). unfold skin_step.
  rewrite Hsid, Hname, Hnum.
  set (a1 := if sid =? 0 then a else _).
  assert (Ha1 : labelled cid a1) by (subst a1; by destruct (sid =? 0)).
  clearbody a1. apply Z.eqb_neq in Hnz. rewrite Hnz, bool_decide_eq_false_2 by done.
  cbn [orb foldl].
  destruct (add_label_labelled slug cid sid a1 (cname +:+ " " +:+ sname) Ha1) as [Ha2 _].
  destruct (add_label_labelled slug cid sid _ sname Ha2) as [Ha3 Hin].
  by apply Ha3.
Qed.

Lemma skin_steps_keep cname slug cid skins a e :
  e ∈ out a → e ∈ out (foldl (skin_step cname slug cid) a skins).
Proof.
  revert a. induction skins as [| s skins IH]; intros a He; [done |].
  cbn [foldl]. by apply IH, skin_step_keeps.
Qed.

Lemma skin_steps_labelled cname slug cid skins a :
  labelled cid a → labelled cid (foldl (skin_step cname slug cid) a skins).
Proof.
  revert a. induction skins as [| s skins IH]; intros a Ha; [done |].
  cbn [foldl]. by apply IH, skin_step_labelled.
Qed.

Lemma skin_steps_list cname slug cid skins a s sname :
  labelled cid a → s ∈ skins → listed_skin s sname →
  ∃ e, e ∈ out (foldl (skin_step cname slug cid) a skins)
       ∧ key e = sname ∧ entry_kind e = Skin ∧ champ_id e = cid.
Proof.
  revert a. induction skins as [| s0 skins IH]; intros a Ha Hin Hs.
  { by apply elem_of_nil in Hin. }
  cbn [foldl]. apply elem_of_cons in Hin as [-> | Hin].
  - destruct (skin_step_lists cname slug cid a s0 sname Ha Hs) as (e & He & Hkey).
    exists e. split; [| done]. by apply skin_steps_keep.
  - apply IH; [by apply skin_step_labelled | done | done].
Qed.

Lemma apply_doc_keeps db slug cid a lang o e :
  e ∈ out a → e ∈ out (apply_doc db slug cid a lang o).
Proof.
  intros He. unfold apply_doc. destruct o as [[data |] |]; [| done | done].
  by apply skin_steps_keep.
Qed.

Lemma apply_doc_labelled db slug cid a lang o :
  labelled cid a → labelled cid (apply_doc db slug cid a lang o).
Proof.
  intros Ha. unfold apply_doc. destruct o as [[data |] |]; [| done | done].
  by apply skin_steps_labelled.
Qed.

(** Every listed skin of every document that is there has an entry under its
    name. *)
Lemma docs_list db slug cid (docs : string → option document) l a lang data skins s sname :
  labelled cid a →
  lang ∈ l → docs lang = Some (DocChampion data) → assoc slug data = Some skins →
  s ∈ skins → listed_skin s sname →
  ∃ e, e ∈ out (foldl (fun a lang => apply_doc db slug cid a lang (docs lang)) a l)
       ∧ key e = sname ∧ entry_kind e = Skin ∧ champ_id e = cid.
Proof.
  intros Ha Hin Hdoc Hskins Hs Hlisted.
  revert a Ha. induction l as [| x l IH]; intros a Ha.
  { by apply elem_of_nil in Hin. }
  cbn [foldl]. apply elem_of_cons in Hin as [<- | Hin].
  - assert (∃ e, e ∈ out (apply_doc db slug cid a lang (docs lang))
                 ∧ key e = sname ∧ entry_kind e = Skin ∧ champ_id e = cid)
      as (e & He & Hkey).
    { unfold apply_doc. rewrite Hdoc, Hskins. by apply (skin_steps_list _ _ _ _ _ s). }
    exists e. split; [| done]. clear -He.
    revert He. generalize (apply_doc db slug cid a lang (docs lang)).
    induction l as [| y l IH]; intros b Hb; [done |].
    cbn [foldl]. by apply IH, apply_doc_keeps.
  - apply IH; [done |]. by apply apply_doc_labelled.
Qed.

(** C8.  A lookup of the entries for a champion id returns a list for every
    id, every database and every state of the cache directory and the
    network: no exception leaves it.  It only reads the index of the database
    (version, languages, slugs and names) and fills its caches; asked again
    for the same id it gives the same list and changes nothing, whatever the
    network has become.  With no cache file and the network down it gives
    the entries it already has for a known id, and the list of all champions
    for an unknown one.  The name of a champion by its id is there or
    absent.  The first lookup of a known champion works from the cache: for
    every language it takes the cache file when that can be read, and else
    fetches the document and writes it to the cache, where it is afterwards;
    no file that can be read is changed, and with a readable file for every
    language the cache directory stays as it is.  The list depends on the
    outside only through these documents, and every skin of such a document
    with an id, a name and a number other than zero has an entry under its
    name. *)
Theorem lookups_degrade :
  (∀ id db w,
     ∃ l db' w',
       candidates_for_champ id db w = (Ok l, db', w')
       ∧ index_of db' = index_of db
       ∧ ∀ w2, candidates_for_champ id db' w2 = (Ok l, db', w2))
  ∧ (∀ cid slug db,
       cid ≠ 0 → slug_by_id db !! cid = Some slug →
       ∃ db', candidates_for_champ (Some cid) db offline
              = (Ok (default [] (entries_by_champ db !! slug)), db', offline))
  ∧ (∀ id db,
       (∀ cid, id = Some cid → cid = 0 ∨ slug_by_id db !! cid = None) →
       ∃ db', candidates_for_champ id db offline
              = (Ok (default (global_entries db) (_global_entries db)), db', offline))
  ∧ (∀ db cid, (∀ nm, (cid, nm) ∉ champ_name_by_id db) → champ_name db cid = None)
  ∧ (∀ cid slug db w,
       cid ≠ 0 → slug_by_id db !! cid = Some slug → slug ∉ _skins_loaded db →
       ∃ l db' w',
         candidates_for_champ (Some cid) db w = (Ok l, db', w')
         ∧ (∀ lang d, lang ∈ langs db →
              available w (skin_file db slug lang) (skin_url db slug lang) = Some d →
              files w' !! skin_file db slug lang = Some (Readable d))
         ∧ (∀ n d, files w !! n = Some (Readable d) → files w' !! n = Some (Readable d))
         ∧ ((∀ lang, lang ∈ langs db →
               ∃ d, files w !! skin_file db slug lang = Some (Readable d)) →
            w' = w)
         ∧ (∀ w2,
              (∀ lang, lang ∈ langs db →
                 available w2 (skin_file db slug lang) (skin_url db slug lang)
                 = available w (skin_file db slug lang) (skin_url db slug lang)) →
              fst (fst (candidates_for_champ (Some cid) db w2)) = Ok l)
         ∧ (∀ lang data skins s sname,
              lang ∈ langs db →
              available w (skin_file db slug lang) (skin_url db slug lang)
              = Some (DocChampion data) →
              assoc slug data = Some skins → s ∈ skins → listed_skin s sname →
              ∃ e, e ∈ l ∧ key e = sname ∧ entry_kind e = Skin ∧ champ_id e = cid)).
Proof.
  split_and!.
  - intros id db w. unfold candidates_for_champ.
    set (known := match id with Some cid => _ | None => None end).
    destruct known as [[cid slug] |] eqn:Hknown.
    + pose proof (ensure_champ_spec slug cid db w) as (Hidx & Hglb & Hin & _).
      destruct (_ensure_champ slug cid db w) as [db' w'] eqn:He. cbn [fst] in *.
      eexists _, db', w'. split_and!; [done | done |].
      intros w2.
      assert (Hslugs : slug_by_id db' = slug_by_id db) by (by injection Hidx).
      rewrite Hslugs. fold known. rewrite Hknown.
      pose proof (ensure_champ_spec slug cid db' w2) as (_ & _ & _ & Hsame).
      by rewrite (Hsame Hin).
    + destruct (_global_entries db) as [glb |] eqn:Hg.
      * exists glb, db, w. split_and!; [done | done |].
        intros w2. fold known. by rewrite Hknown, Hg.
      * eexists _, _, w. split_and!; [done | done |].
        intros w2. cbn [slug_by_id _global_entries]. fold known. by rewrite Hknown.
  - intros cid slug db Hnz Hslug. unfold candidates_for_champ.
    apply Z.eqb_neq in Hnz. rewrite Hnz, Hslug. cbn [fmap option_fmap option_map].
    unfold _ensure_champ. case_bool_decide as Hin; [by exists db |].
    rewrite lang_steps_offline. eexists. cbn. by rewrite lookup_insert_eq.
  - intros id db Hunknown. unfold candidates_for_champ.
    assert (Hk : match id with
                 | Some cid => if cid =? 0 then None
                               else (fun slug => (cid, slug)) <$> slug_by_id db !! cid
                 | None => None
                 end = None).
    { destruct id as [cid |]; [| done].
      destruct (Hunknown cid eq_refl) as [-> | ->]; [done |].
      by destruct (cid =? 0). }
    rewrite Hk. destruct (_global_entries db); eexists; done.
  - intros db cid Hno. unfold champ_name.
    induction (champ_name_by_id db) as [| [k v] l IH]; [done |].
    cbn. case_decide as Hk.
    + subst k. exfalso. apply (Hno v). by left.
    + apply IH. intros nm Hnm. apply (Hno nm). by right.
  - intros cid slug db w Hnz Hslug Hnew. unfold candidates_for_champ.
    apply Z.eqb_neq in Hnz. rewrite Hnz, Hslug. cbn [fmap option_fmap option_map].
    assert (Hrun : ∀ w0, _ensure_champ slug cid db w0 =
              let r := foldl (lang_step db slug cid)
                         (Acc (skin_name_by_id db) (default [] (entries_by_champ db !! slug)) ∅,
                          w0) (langs db) in
              (Mk (ver db) (langs db) (slug_by_id db) (champ_name_by_id_by_lang db)
                  (champ_name_by_id db) (<[slug := out (fst r)]> (entries_by_champ db))
                  (names (fst r)) ({[slug]} ∪ _skins_loaded db) (_global_entries db),
               snd r)).
    { intros w0. unfold _ensure_champ. rewrite bool_decide_eq_false_2 by done.
      cbn zeta. by destruct (foldl _ _ _) as [a w1]. }
    rewrite Hrun. cbn zeta.
    set (a0 := Acc (skin_name_by_id db) (default [] (entries_by_champ db !! slug)) ∅).
    destruct (lang_steps_available db slug cid (langs db) a0 w) as (Hacc & _ & Hkeep & Hfill & Hsame).
    eexists _, _, _. split; [done |]. cbn [entries_by_champ]. rewrite lookup_insert_eq.
    cbn [default]. split_and!; [done | done | done | |].
    + intros w2 Hw2. rewrite Hrun. cbn zeta. cbn [fst entries_by_champ].
      rewrite lookup_insert_eq. cbn [default]. fold a0.
      destruct (lang_steps_available db slug cid (langs db) a0 w2) as (Hacc2 & _).
      rewrite Hacc, Hacc2.
      assert (Heq : ∀ l a,
                (∀ lang, lang ∈ l →
                   available w2 (skin_file db slug lang) (skin_url db slug lang)
                   = available w (skin_file db slug lang) (skin_url db slug lang)) →
                foldl (fun a lang => apply_doc db slug cid a lang
                         (available w2 (skin_file db slug lang) (skin_url db slug lang))) a l
                = foldl (fun a lang => apply_doc db slug cid a lang
                           (available w (skin_file db slug lang) (skin_url db slug lang))) a l).
      { clear. induction l as [| x l IH]; intros a Hl; [done |]. cbn [foldl].
        rewrite Hl by apply list_elem_of_here. apply IH.
        intros lang Hin. by apply Hl, list_elem_of_further. }
      by rewrite (Heq _ _ Hw2).
    + intros lang data skins s sname Hin Hdoc Hskins Hs Hlisted. rewrite Hacc.
      apply (docs_list db slug cid
               (fun lang => available w (skin_file db slug lang) (skin_url db slug lang))
               (langs db) a0 lang data skins s sname); try done;
        intros k Hk; by apply elem_of_empty in Hk.
Qed.

Lemma lookups_degrade_witness :
  ∃ l db' w',
    candidates_for_champ (Some 266) db_aatrox w_cached = (Ok l, db', w')
    ∧ w' = w_cached
    ∧ ∃ e, e ∈ l ∧ key e = "Justicar Aatrox" ∧ entry_kind e = Skin ∧ champ_id e = 266.
Proof.
  destruct lookups_degrade as (_ & _ & _ & _ & Hcache).
  destruct (Hcache 266 "Aatrox" db_aatrox w_cached)
    as (l & db' & w' & Hl & _ & _ & Hsame & _ & Hlisted).
  - discriminate.
  - reflexivity.
  - apply not_elem_of_empty.
  - exists l, db', w'. split_and!; [done | |].
    + apply Hsame. intros lang Hin. apply list_elem_of_singleton in Hin as ->.
      eexists. reflexivity.
    + eapply (Hlisted "en_US" _ _
                (SkinObj (SStr "266001") (SStr "Justicar Aatrox") (SInt 1))).
      * apply list_elem_of_here.
      * reflexivity.
      * reflexivity.
      * apply list_elem_of_further, list_elem_of_here.
      * split_and!; [by eexists | by vm_compute | discriminate |].
        exists 1. by split.
Defined.

(** *** The cache of documents *)

(** X18.  A document that [_cache_json] returned is in the cache afterwards:
    asked again under the same name it is answered from the file, whatever
    the URL, the network and the write access have become.  A call touches no
    other file, and it raises only when no readable file is there and the
    request fails or the file cannot be written; then it leaves the cache
    directory as it was. *)
Theorem cache_json_round_trip name url w r w' :
  _cache_json name url w = (r, w') →
  match r with
  | Ok d =>
      (∀ url2 w2, files w2 !! name = files w' !! name →
                  _cache_json name url2 w2 = (Ok d, w2))
      ∧ (∀ n, n ≠ name → files w' !! n = files w !! n)
      ∧ remote w' = remote w ∧ writable w' = writable w
      ∧ (files w !! name = Some (Readable d)
         ∨ remote w !! url = Some d ∧ writable w = true)
  | Raise =>
      w' = w
      ∧ (∀ d, files w !! name ≠ Some (Readable d))
      ∧ (remote w !! url = None ∨ writable w = false)
  end.
Proof.
  unfold _cache_json.
  assert (Hagain : ∀ d url2 w2, files w2 !! name = Some (Readable d) →
                     match files w2 !! name with
                     | Some (Readable d0) => (Ok d0, w2)
                     | _ => match remote w2 !! url2 with
                            | Some d0 =>
                                if writable w2
                                then (Ok d0, World (<[name := Readable d0]> (files w2))
                                               (remote w2) (writable w2))
                                else (Raise, w2)
                            | None => (Raise, w2)
                            end
                     end = (Ok d, w2)) by (by intros d url2 w2 ->).
  destruct (files w !! name) as [[| d] |] eqn:Hf.
  - destruct (remote w !! url) as [d |] eqn:Hr; [destruct (writable w) eqn:Hw |];
      intros [= <- <-].
    + split_and!; [| by intros n Hn; cbn; rewrite lookup_insert_ne | done | done | by right].
      intros url2 w2 Hw2. apply Hagain. cbn in Hw2. by rewrite lookup_insert_eq in Hw2.
    + split_and!; [done | congruence | by right].
    + split_and!; [done | congruence | by left].
  - intros [= <- <-]. split_and!; [| done | done | done | by left].
    intros url2 w2 Hw2. apply Hagain. by rewrite Hw2.
  - destruct (remote w !! url) as [d |] eqn:Hr; [destruct (writable w) eqn:Hw |];
      intros [= <- <-].
    + split_and!; [| by intros n Hn; cbn; rewrite lookup_insert_ne | done | done | by right].
      intros url2 w2 Hw2. apply Hagain. cbn in Hw2. by rewrite lookup_insert_eq in Hw2.
    + split_and!; [done | congruence | by right].
    + split_and!; [done | congruence | by left].
Qed.

Lemma cache_json_round_trip_witness :
  let name := "champ_Aatrox_14.1.1_en_US.json" in
  let url := "https://ddragon.leagueoflegends.com/cdn/14.1.1/data/en_US/champion/Aatrox.json" in
  let w' := snd (_cache_json name url w_online) in
  _cache_json name url (World (files w') ∅ false)
  = (fst (_cache_json name url w_online), World (files w') ∅ false).
Proof.
  intros name url w'.
  destruct (cache_json_round_trip name url w_online _ w' eq_refl) as (Hagain & _).
  by apply Hagain.
Defined.

(** *** The entries of a champion *)

Lemma grown_start slug cid out0 names0 : grown slug cid out0 names0 (Acc names0 out0 ∅).
Proof.
  exists []. rewrite app_nil_r. split_and!; try done.
  - constructor.
  - intros e He. by apply elem_of_nil in He.
  - intros e sid He. by apply elem_of_nil in He.
Qed.

Lemma grown_add_label slug cid out0 names0 sid a label :
  label ≠ "" → (sid ≠ 0 → is_Some (names a !! sid)) →
  grown slug cid out0 names0 a →
  grown slug cid out0 names0 (add_label slug cid sid a label).
Proof.
  intros Hlabel Hsid (new & Hout & Hshape & Hnd & Hseen & H0 & Hmono & Hnames).
  unfold add_label. case_bool_decide as Hin; [by exists new |].
  exists (new ++ [MkEntry label Skin slug cid (Some sid)]). cbn [out names keys_seen].
  split_and!.
  - by rewrite Hout, app_assoc.
  - apply Forall_app_2; [done |]. constructor; [| constructor].
    by repeat split; [eexists |].
  - rewrite fmap_app. apply NoDup_app. split_and!; [done | | by apply NoDup_singleton].
    intros k Hk Hk'. apply list_elem_of_singleton in Hk'. cbn in Hk'. subst k.
    apply list_elem_of_fmap in Hk as (e & -> & He). by apply Hin, Hseen.
  - intros e He. apply elem_of_app in He as [He | He].
    + apply elem_of_union_r. by apply Hseen.
    + apply list_elem_of_singleton in He as ->. cbn. set_solver.
  - done.
  - done.
  - intros e sid' He Hid Hnz. apply elem_of_app in He as [He | He].
    + by apply (Hnames e).
    + apply list_elem_of_singleton in He as ->. cbn in Hid. injection Hid as <-.
      by apply Hsid.
Qed.

Lemma append_not_empty (a b : string) : b ≠ "" → a +:+ b ≠ "".
Proof. destruct a; [done |]. intros _. discriminate. Qed.

Lemma grown_skin_step slug cid out0 names0 cname a s :
  grown slug cid out0 names0 a →
  grown slug cid out0 names0 (skin_step cname slug cid a s).
Proof.
  intros Ha. unfold skin_step.
  destruct (int_of (id_field s)) as [sid |]; [| done].
  destruct (name_of (name_field s)) as [sname |]; [| done].
  destruct (num_of (num_field s)) as [num |]; [| done].
  set (a1 := if sid =? 0 then a else _).
  assert (Ha1 : grown slug cid out0 names0 a1 ∧ (sid ≠ 0 → is_Some (names a1 !! sid))).
  { subst a1. destruct (Z.eqb_spec sid 0) as [-> | Hnz]; [done |].
    destruct Ha as (new & Hout & Hshape & Hnd & Hseen & H0 & Hmono & Hnames).
    split; [| by intros _; cbn; rewrite lookup_insert_eq].
    exists new. cbn [out names keys_seen]. split_and!; try done.
    - by rewrite lookup_insert_ne.
    - intros k Hk. destruct (decide (k = sid)) as [-> | Hne].
      + by rewrite lookup_insert_eq.
      + rewrite lookup_insert_ne by done. by apply Hmono.
    - intros e sid' He Hid Hnz'. destruct (decide (sid' = sid)) as [-> | Hne].
      + by rewrite lookup_insert_eq.
      + rewrite lookup_insert_ne by done. by apply (Hnames e). }
  clearbody a1. destruct Ha1 as [Ha1 Hsid].
  destruct (num =? 0); [done |]. case_bool_decide as Hname; [done |].
  cbn [orb foldl].
  assert (Hkeep : ∀ a l, names (add_label slug cid sid a l) = names a)
    by (intros a' l; unfold add_label; by case_bool_decide).
  apply grown_add_label; [done | by rewrite Hkeep |].
  apply grown_add_label; [| done | done].
  by apply append_not_empty, append_not_empty.
Qed.

Lemma grown_lang_steps db slug cid out0 names0 l a w :
  grown slug cid out0 names0 a →
  grown slug cid out0 names0 (fst (foldl (lang_step db slug cid) (a, w) l)).
Proof.
  revert a w. induction l as [| lang l IH]; intros a w Ha; [done |].
  cbn [foldl]. unfold lang_step at 2.
  destruct (_cache_json _ _ w) as [[[data |] |] w']; try by apply IH.
  apply IH. generalize (default [] (assoc slug data)). intros skins.
  set (cname := default slug _). clearbody cname.
  revert a Ha. induction skins as [| s skins IHs]; intros a Ha; [done |].
  cbn [foldl]. by apply IHs, grown_skin_step.
Qed.

(** X19.  The first lookup of a champion appends to the entries it has:
    what was there stays in front, every entry that comes after is a skin
    entry of this champion with a label that is not empty, and no label comes
    twice among them.  The entries of the other champions stay as they are.
    The name of every skin with an entry and an id other than 0 is recorded,
    no recorded name is dropped, and no name is ever recorded for the id 0. *)
Theorem ensure_champ_appends_skins slug cid db w :
  slug ∉ _skins_loaded db →
  let db' := fst (_ensure_champ slug cid db w) in
  ∃ new,
    entries_by_champ db' !! slug = Some (default [] (entries_by_champ db !! slug) ++ new)
    ∧ Forall (skin_entry_of slug cid) new
    ∧ NoDup (key <$> new)
    ∧ (∀ s, s ≠ slug → entries_by_champ db' !! s = entries_by_champ db !! s)
    ∧ skin_name_by_id db' !! 0 = skin_name_by_id db !! 0
    ∧ (∀ k, is_Some (skin_name_by_id db !! k) → is_Some (skin_name_by_id db' !! k))
    ∧ (∀ e sid, e ∈ new → skin_id e = Some sid → sid ≠ 0 →
                is_Some (skin_name_by_id db' !! sid)).
Proof.
  intros Hnew. unfold _ensure_champ. case_bool_decide; [done |]. cbn zeta.
  pose proof (grown_lang_steps db slug cid (default [] (entries_by_champ db !! slug))
                (skin_name_by_id db) (langs db) _ w
                (grown_start slug cid _ _)) as Hg.
  destruct (foldl _ _ _) as [a w']. cbn [fst] in *.
  destruct Hg as (new & Hout & Hshape & Hnd & _ & H0 & Hmono & Hnames).
  exists new. cbn [entries_by_champ skin_name_by_id].
  split_and!; try done.
  - by rewrite lookup_insert_eq, Hout.
  - intros s Hs. by rewrite lookup_insert_ne.
Qed.

Lemma ensure_champ_appends_skins_witness :
  ∃ new,
    entries_by_champ (fst (_ensure_champ "Aatrox" 266 db_aatrox w_cached)) !! "Aatrox"
    = Some ([MkEntry "Aatrox" Champion "Aatrox" 266 None] ++ new)
    ∧ NoDup (key <$> new).
Proof.
  destruct (ensure_champ_appends_skins "Aatrox" 266 db_aatrox w_cached)
    as (new & Hout & _ & Hnd & _).
  - apply not_elem_of_empty.
  - by exists new.
Defined.

(** X20.  The list of all champions, built for a lookup without a known
    champion, holds an entry exactly for every name of every language whose
    id has a slug that is not empty: a champion entry under that name, with
    the slug of the id and no skin.  Names whose id has no slug are left
    out. *)
Theorem global_entries_are_the_named_champions db e :
  e ∈ global_entries db ↔
  (∃ lang mp, (lang, mp) ∈ champ_name_by_id_by_lang db ∧ (champ_id e, key e) ∈ mp)
  ∧ slug_by_id db !! champ_id e = Some (champ_slug e)
  ∧ champ_slug e ≠ ""
  ∧ entry_kind e = Champion
  ∧ skin_id e = None.
Proof.
  unfold global_entries.
  rewrite list_elem_of_In, List.in_concat. split.
  - intros (l & Hl & He). apply List.in_map_iff in Hl as ([lang mp] & <- & Hmp).
    apply list_elem_of_In, list_elem_of_omap in He as ([cid nm] & Hin & Hsome).
    destruct (slug_by_id db !! cid) as [[| a r] |] eqn:Hslug; try done.
    injection Hsome as <-. cbn. split_and!; try done.
    exists lang, mp. by rewrite list_elem_of_In.
  - intros ((lang & mp & Hmp & Hin) & Hslug & Hne & Hkind & Hskin).
    eexists. split.
    + apply List.in_map_iff. exists (lang, mp). split; [done | by apply list_elem_of_In].
    + apply list_elem_of_In, list_elem_of_omap. exists (champ_id e, key e).
      split; [done |]. rewrite Hslug.
      destruct e as [k kd sl ci sk]; cbn in *.
      destruct sl; [done |]. by subst.
Qed.

Lemma global_entries_are_the_named_champions_witness :
  MkEntry "Aatrox" Champion "Aatrox" 266 None ∈ global_entries db_aatrox.
Proof.
  apply global_entries_are_the_named_champions. cbn. split_and!; try done.
  exists "en_US", [(266, "Aatrox")]. split; apply list_elem_of_here.
Defined.

(** *** Normalized entries *)

Lemma norm_steps normalize_text entries out cache :
  coherent normalize_text cache →
  ∃ cache',
    foldl (norm_step normalize_text) (out, cache) entries
    = (out ++ ((fun e => (e, normalize_text (key e))) <$> entries), cache')
    ∧ coherent normalize_text cache'
    ∧ cache ⊆ cache'
    ∧ (∀ e, e ∈ entries → cache' !! key e = Some (normalize_text (key e))).
Proof.
  revert out cache. induction entries as [| e entries IH]; intros out cache Hco.
  - exists cache. cbn. rewrite app_nil_r. split_and!; try done.
    intros e He. by apply elem_of_nil in He.
  - cbn [foldl]. unfold norm_step at 2.
    destruct (cache !! key e) as [nk |] eqn:Hk.
    + pose proof (Hco _ _ Hk) as ->.
      destruct (IH (out ++ [(e, normalize_text (key e))]) cache Hco)
        as (cache' & -> & Hco' & Hsub & Hall).
      exists cache'. rewrite fmap_cons, <- app_assoc. split_and!; try done.
      intros e' He'. apply elem_of_cons in He' as [-> | He']; [| by apply Hall].
      by apply (lookup_weaken _ _ _ _ Hk).
    + cbn zeta.
      assert (Hco1 : coherent normalize_text (<[key e := normalize_text (key e)]> cache)).
      { intros k v Hkv. destruct (decide (k = key e)) as [-> | Hne].
        - rewrite lookup_insert_eq in Hkv. by injection Hkv as <-.
        - rewrite lookup_insert_ne in Hkv by done. by apply Hco. }
      destruct (IH (out ++ [(e, normalize_text (key e))]) _ Hco1)
        as (cache' & -> & Hco' & Hsub & Hall).
      exists cache'. rewrite fmap_cons, <- app_assoc. split_and!; try done.
      * etrans; [| exact Hsub]. by apply insert_subseteq.
      * intros e' He'. apply elem_of_cons in He' as [-> | He']; [| by apply Hall].
        apply (lookup_weaken _ _ _ _ (lookup_insert_eq _ _ _) Hsub).
Qed.

(** X21.  With a cache of normalized keys that is coherent, as the empty one
    is, [normalized_entries] pairs every entry of the lookup, in its order,
    with the normalization of its key.  The cache stays coherent, keeps what
    it held, and holds the key of every entry afterwards.  The database and
    the cache directory end as the lookup alone leaves them. *)
Theorem normalized_entries_pairs_every_entry normalize_text id db cache w :
  coherent normalize_text cache →
  ∃ entries db' w' cache',
    candidates_for_champ id db w = (Ok entries, db', w')
    ∧ normalized_entries normalize_text id db cache w
      = (Ok ((fun e => (e, normalize_text (key e))) <$> entries), db', cache', w')
    ∧ coherent normalize_text cache'
    ∧ cache ⊆ cache'
    ∧ (∀ e, e ∈ entries → cache' !! key e = Some (normalize_text (key e))).
Proof.
  intros Hco. unfold normalized_entries.
  assert (Hok : ∃ l db' w', candidates_for_champ id db w = (Ok l, db', w')).
  { unfold candidates_for_champ.
    destruct (match id with Some cid => _ | None => None end) as [[cid slug] |].
    - destruct (_ensure_champ slug cid db w) as [db' w']. by eexists _, _, _.
    - destruct (_global_entries db); by eexists _, _, _. }
  destruct Hok as (l & db' & w' & ->).
  destruct (norm_steps normalize_text l [] cache Hco) as (cache' & -> & Hco' & Hsub & Hall).
  by exists l, db', w', cache'.
Qed.

Lemma normalized_entries_pairs_every_entry_witness :
  fst (fst (fst (normalized_entries LCU.lower (Some 266) db_aatrox ∅ offline)))
  = Ok [(MkEntry "Aatrox" Champion "Aatrox" 266 None, "aatrox")].
Proof.
  destruct (normalized_entries_pairs_every_entry LCU.lower (Some 266) db_aatrox ∅ offline)
    as (entries & db' & w' & cache' & Hc & Hn & _).
  - intros k v Hkv. by rewrite lookup_empty in Hkv.
  - rewrite Hn. vm_compute in Hc. by injection Hc as <- <- <-.
Defined.

(** *** The languages *)

(** X22.  Unless the specification asks for all languages, the languages of
    the database do not depend on the network, and every one of them is free
    of surrounding white space: [strip] leaves it as it is.  The empty
    language is among them exactly when the specification is not empty and
    holds white space only.  The canonical language is en_US when that is
    among the languages or when there is none; otherwise it is the first of
    them. *)
Theorem resolved_languages languages spec :
  let r := _resolve_langs_spec languages spec in
  (LCU.lower (LCU.strip spec) ≠ "all" →
     (∀ other, _resolve_langs_spec other spec = r)
     ∧ Forall (fun x => LCU.strip x = x) r
     ∧ ("" ∈ r ↔ spec ≠ "" ∧ LCU.strip spec = ""))
  ∧ (canonical_lang r ∈ r ∨ r = [] ∧ canonical_lang r = "en_US")
  ∧ ("en_US" ∈ r → canonical_lang r = "en_US")
  ∧ ("en_US" ∉ r → canonical_lang r = default "en_US" (head r)).
Proof.
  cbn zeta. split_and!.
  - intros Hall. unfold _resolve_langs_spec.
    case_bool_decide as Hempty; cbn [orb].
    { split_and!; [done | by repeat constructor |].
      split; [| by intros [? _]]. intros H. by apply list_elem_of_singleton in H. }
    case_bool_decide as Hdef; cbn [orb].
    { split_and!; [done | by repeat constructor |].
      split; [by intros H; apply list_elem_of_singleton in H |].
      intros [_ Hs]. rewrite Hs in Hdef. exfalso. revert Hdef. vm_compute. set_solver. }
    case_bool_decide; [done |].
    destruct (LCU.has_char "," (LCU.strip spec)) eqn:Hcomma.
    + split_and!; [done | |].
      * apply Forall_forall. intros x Hx.
        apply list_elem_of_In, List.filter_In in Hx as [Hx _].
        apply list_elem_of_In, list_elem_of_fmap in Hx as (y & -> & _).
        apply LCU_facts.strip_idemp.
      * split.
        -- intros Hx. apply list_elem_of_In, List.filter_In in Hx as [_ Hx].
           by rewrite bool_decide_eq_true_2 in Hx.
        -- intros [_ Hs]. by rewrite Hs in Hcomma.
    + split_and!; [done | |].
      * constructor; [apply LCU_facts.strip_idemp | constructor].
      * rewrite list_elem_of_singleton. naive_solver.
  - unfold canonical_lang. case_bool_decide; [by left |].
    destruct (_resolve_langs_spec languages spec); [by right | left; apply list_elem_of_here].
  - intros Hen. unfold canonical_lang. by rewrite bool_decide_eq_true_2.
  - intros Hen. unfold canonical_lang. rewrite bool_decide_eq_false_2 by done.
    by destruct (_resolve_langs_spec languages spec).
Qed.

Lemma resolved_languages_witness :
  _resolve_langs_spec Raise (LCU.utf8 160 +:+ "en_US, ,fr_FR" +:+ LCU.utf8 8195)
  = ["en_US"; "fr_FR"].
Proof.
  destruct (resolved_languages (Ok ["en_US"; "fr_FR"])
              (LCU.utf8 160 +:+ "en_US, ,fr_FR" +:+ LCU.utf8 8195)) as ((Hsame & _) & _).
  - vm_compute. discriminate.
  - rewrite (Hsame Raise). vm_compute. reflexivity.
Defined.

(** White space outside ASCII around the word asks for all languages, too;
    then the languages are those that the network gives. *)
Example all_languages_padded :
  _resolve_langs_spec (Ok ["xx"]) (LCU.utf8 160 +:+ "All") = ["xx"]
  ∧ _resolve_langs_spec Raise (LCU.utf8 160 +:+ "All") = ["en_US"; "fr_FR"].
Proof. vm_compute. repeat split. Qed.

End NameDB_facts.
